(** * node-bluez: the object registry of [lib/Bluez.js]

    A shallow embedding of the [Bluez] class: the handle resolvers
    [getAdapter] and [getDevice], and the two ObjectManager signal handlers
    [onInterfacesAdded] and [onInterfaceRemoved].

    JavaScript objects have identity and are mutated in place, and the
    handlers share them (a service takes over the very [characteristics]
    object of the placeholder that was waiting for it), so objects live in a
    heap and are named by locations.  The handlers are [async]: they are
    embedded as trees whose [Await] nodes are the calls of
    [this.getInterface]; one interpreter runs a tree to completion against
    a transport, another one interleaves several of them at their awaits. *)

From Stdlib Require Import Ascii.
From stdpp Require Import gmap strings list fin_maps.


(** ** Strings and the three regular expressions *)

Module Js.

(** [s.replace(/a/g, "b")] for single characters. *)
Fixpoint replace_all (a b : Ascii.ascii) (s : string) : string :=
  match s with
  | EmptyString => EmptyString
  | String c s' => String (if Ascii.eqb c a then b else c) (replace_all a b s')
  end.

(** The class [\w] of a regular expression without the unicode flag:
    [A-Za-z0-9_]. *)
Definition is_word (c : Ascii.ascii) : bool :=
  (Ascii.leb "a"%char c && Ascii.leb c "z"%char)
  || (Ascii.leb "A"%char c && Ascii.leb c "Z"%char)
  || (Ascii.leb "0"%char c && Ascii.leb c "9"%char)
  || Ascii.eqb c "_"%char.

(** The longest prefix of word characters, and what follows it: the only
    way a greedy [\w+] can be followed by a character outside [\w]. *)
Fixpoint span_word (s : string) : string * string :=
  match s with
  | EmptyString => (EmptyString, EmptyString)
  | String c s' =>
      if is_word c
      then let '(w, r) := span_word s' in (String c w, r)
      else (EmptyString, s)
  end.

Fixpoint strip_prefix (p s : string) : option string :=
  match p, s with
  | EmptyString, _ => Some s
  | String a p', String b s' =>
      if Ascii.eqb a b then strip_prefix p' s' else None
  | String _ _, EmptyString => None
  end.

Definition nonempty (s : string) : bool :=
  match s with EmptyString => false | String _ _ => true end.

(** [dev.match(new RegExp("^/org/bluez/(\\w+)$"))]: the group, if any. *)
Definition match_adapter (dev : string) : option string :=
  match strip_prefix "/org/bluez/" dev with
  | Some r =>
      let '(w, rest) := span_word r in
      if nonempty w && negb (nonempty rest) then Some w else None
  | None => None
  end.

(** What follows the adapter segment in the two device patterns:
    [/dev_(\w+)$]. *)
Definition match_dev_suffix (rest : string) : option string :=
  match strip_prefix "/dev_" rest with
  | Some r =>
      let '(id, rest') := span_word r in
      if nonempty id && negb (nonempty rest') then Some id else None
  | None => None
  end.

(** [address.match(new RegExp("^/org/bluez/(\\w+)/dev_(\\w+)$"))]:
    groups 1 and 2. *)
Definition match_device (address : string) : option (string * string) :=
  match strip_prefix "/org/bluez/" address with
  | Some r =>
      let '(w, rest) := span_word r in
      if nonempty w
      then match match_dev_suffix rest with
           | Some id => Some (w, id)
           | None => None
           end
      else None
  | None => None
  end.

(** [path.match(new RegExp("^/org/bluez/(\\w+)(?:/dev_(\\w+))?$"))]:
    group 1, and group 2 when the optional part took part in the match
    ([undefined] otherwise). *)
Definition match_removed (path : string) : option (string * option string) :=
  match strip_prefix "/org/bluez/" path with
  | Some r =>
      let '(w, rest) := span_word r in
      if nonempty w
      then if nonempty rest
           then match match_dev_suffix rest with
                | Some id => Some (w, Some id)
                | None => None
                end
           else Some (w, None)
      else None
  | None => None
  end.

(** The property names every plain object inherits from
    [Object.prototype]: [obj[k]] is truthy for them although [obj] has no
    such entry of its own. *)
Definition prototype_names : list string :=
  [ "constructor"; "__proto__"; "hasOwnProperty"; "isPrototypeOf";
    "propertyIsEnumerable"; "toLocaleString"; "toString"; "valueOf";
    "__defineGetter__"; "__defineSetter__"; "__lookupGetter__";
    "__lookupSetter__" ].

Definition inherited (k : string) : bool :=
  bool_decide (k ∈ prototype_names).

End Js.

(** ** Values, objects and the state of a [Bluez] instance *)

Definition loc := positive.

(** What [getInterface(service, path, iface)] resolves to: the interface
    [h_iface] of the remote object at [h_path]. *)
Record handle := Handle { h_path : string; h_iface : string }.

(** The values found in [this.adapter] and [this.devices]: a path string,
    a handle object, or a member inherited from [Object.prototype]. *)
Inductive value :=
| VStr (s : string)
| VObj (l : loc)
| VProto (name : string).

Definition truthy (v : option value) : bool :=
  match v with
  | None => false
  | Some (VStr s) => Js.nonempty s
  | Some _ => true
  end.

Definition is_string (v : option value) : bool :=
  match v with Some (VStr _) => true | _ => false end.

(** [obj[k]] on one of the two top-level maps. *)
Definition js_get (m : gmap string value) (k : string) : option value :=
  match m !! k with
  | Some v => Some v
  | None => if Js.inherited k then Some (VProto k) else None
  end.

(** [obj[k] = s] for a string [s]: the [__proto__] setter ignores values
    that are not objects, every other key gets an entry of its own. *)
Definition js_set_str (m : gmap string value) (k s : string) : gmap string value :=
  if String.eqb k "__proto__" then m else <[k := VStr s]> m.

(** The entity classes.  Their files ([Adapter.js], [Device.js],
    [Service.js], [Characteristic.js], [Descriptor.js]) are required by
    [Bluez.js]; the handlers use of them the constructor and the child map
    ([services], [characteristics], [descriptors]).  A child map is an
    object of its own ([OPlain]), referenced by location, because the code
    passes it from a placeholder to the entity that replaces it. *)
Inductive obj :=
| OAdapter (iface : handle)
| ODevice (iface changed : handle) (services : loc)
| OService (iface : handle) (characteristics : loc)
| OCharacteristic (iface changed : handle) (descriptors : loc)
| ODescriptor (iface : handle)
| OHolderC (characteristics : loc)   (* { characteristics: {} } *)
| OHolderD (descriptors : loc)       (* { descriptors: {} } *)
| OPlain (m : gmap string loc).        (* {} used as a map from UUID to child *)

(** Property bags of the BlueZ interfaces, with the properties the handlers
    read. *)
Record AdapterProps := { adapter_Address : string; adapter_Name : string }.
Record DeviceProps := { Address : string; Name : string; Connected : bool }.
Record ServiceProps := { service_Device : string; service_UUID : string }.
Record CharacteristicProps :=
  { characteristic_Service : string; characteristic_UUID : string }.
Record DescriptorProps :=
  { descriptor_Characteristic : string; descriptor_UUID : string }.

(** The second argument of [InterfacesAdded]: which interfaces the object
    at the path has, with their property bags. *)
Record Interfaces := {
  Adapter1 : option AdapterProps;
  Device1 : option DeviceProps;
  GattService1 : option ServiceProps;
  GattCharacteristic1 : option CharacteristicProps;
  GattDescriptor1 : option DescriptorProps;
}.

Inductive event :=
| EvDevice (address : string) (props : DeviceProps)   (* emit('device', ..) *)
| EvError (message : string).                         (* emit("error", ..) *)

Inductive exn :=
| Error (message : string)          (* throw new Error(message) *)
| TypeError                         (* a property of undefined or null *)
| Rejected (path iface : string).   (* getInterface rejected *)

Record Bluez := {
  adapter : gmap string value;          (* this.adapter *)
  adapter_props : option AdapterProps;  (* this.adapter_props *)
  devices : gmap string value;          (* this.devices *)
  _path : gmap string loc;              (* this._path *)
  heap : gmap loc obj;
  events : list event;                  (* emitted so far, oldest first *)
  calls : list (string * string);       (* getInterface calls, oldest first *)
  listening : bool;                     (* a listener is attached for 'error' *)
}.

(** The state the constructor leaves. *)
Definition constructor : Bluez :=
  {| adapter := ∅; adapter_props := None; devices := ∅; _path := ∅;
     heap := ∅; events := []; calls := []; listening := false |}.

Definition set_adapter (f : gmap string value → gmap string value) (b : Bluez) :=
  {| adapter := f (adapter b); adapter_props := adapter_props b;
     devices := devices b; _path := _path b; heap := heap b;
     events := events b; calls := calls b; listening := listening b |}.
Definition set_adapter_props (p : option AdapterProps) (b : Bluez) :=
  {| adapter := adapter b; adapter_props := p;
     devices := devices b; _path := _path b; heap := heap b;
     events := events b; calls := calls b; listening := listening b |}.
Definition set_devices (f : gmap string value → gmap string value) (b : Bluez) :=
  {| adapter := adapter b; adapter_props := adapter_props b;
     devices := f (devices b); _path := _path b; heap := heap b;
     events := events b; calls := calls b; listening := listening b |}.
Definition set_path (f : gmap string loc → gmap string loc) (b : Bluez) :=
  {| adapter := adapter b; adapter_props := adapter_props b;
     devices := devices b; _path := f (_path b); heap := heap b;
     events := events b; calls := calls b; listening := listening b |}.
Definition set_heap (f : gmap loc obj → gmap loc obj) (b : Bluez) :=
  {| adapter := adapter b; adapter_props := adapter_props b;
     devices := devices b; _path := _path b; heap := f (heap b);
     events := events b; calls := calls b; listening := listening b |}.
Definition set_events (f : list event → list event) (b : Bluez) :=
  {| adapter := adapter b; adapter_props := adapter_props b;
     devices := devices b; _path := _path b; heap := heap b;
     events := f (events b); calls := calls b; listening := listening b |}.
Definition set_calls (f : list (string * string) → list (string * string)) (b : Bluez) :=
  {| adapter := adapter b; adapter_props := adapter_props b;
     devices := devices b; _path := _path b; heap := heap b;
     events := events b; calls := f (calls b); listening := listening b |}.

(** [bluez.on('error', listener)], of [EventEmitter], which [Bluez]
    extends: from then on an 'error' event has somebody to go to.  Neither
    the constructor nor any method of the class attaches one. *)
Definition on_error (b : Bluez) : Bluez :=
  {| adapter := adapter b; adapter_props := adapter_props b;
     devices := devices b; _path := _path b; heap := heap b;
     events := events b; calls := calls b; listening := true |}.

(** ** Asynchronous code *)

(** The body of an [async] method: it reads and writes the instance, and
    suspends at [await this.getInterface(..)], whose promise resolves to a
    handle ([Some]) or rejects ([None]). *)
Inductive task (R : Type) : Type :=
| Ret (r : R)
| Throw (e : exn)
| Get (k : Bluez → task R)
| Put (b : Bluez) (k : task R)
| Await (path iface : string) (k : option handle → task R).

Arguments Ret {R} r.
Arguments Throw {R} e.
Arguments Get {R} k.
Arguments Put {R} b k.
Arguments Await {R} path iface k.

Fixpoint task_bind {A B : Type} (f : A → task B) (t : task A) : task B :=
  match t with
  | Ret a => f a
  | Throw e => Throw e
  | Get k => Get (λ b, task_bind f (k b))
  | Put b k => Put b (task_bind f k)
  | Await p i k => Await p i (λ r, task_bind f (k r))
  end.

#[global] Instance task_mret : MRet task := λ _ a, Ret a.
#[global] Instance task_mbind : MBind task := λ _ _ f t, task_bind f t.

Definition modify (f : Bluez → Bluez) : task unit :=
  Get (λ b, Put (f b) (Ret tt)).

Definition emit (e : event) : task unit :=
  modify (set_events (λ l, l ++ [e])).

(** [this.emit("error", new Error(message))]: an [EventEmitter] with no
    listener for 'error' throws the error it is given; with one, the
    listener is called (it is taken to return) and [emit] returns. *)
Definition emit_error (message : string) : task unit :=
  Get (λ b, if listening b
            then emit (EvError message)
            else Throw (Error message)).

(** [new C(..)]: a fresh location holding [o]. *)
Definition alloc (o : obj) : task loc :=
  Get (λ b, let l := fresh (dom (heap b)) in
            Put (set_heap (insert l o) b) (Ret l)).

(** [await this.getInterface('org.bluez', path, iface)]; a rejection is
    thrown at the [await]. *)
Definition getInterface (path iface : string) : task handle :=
  Await path iface (λ r, match r with
                         | Some h => Ret h
                         | None => Throw (Rejected path iface)
                         end).

(** The transport: whether the remote object at a path can be bound with
    an interface. *)
Definition transport := string → string → bool.

Definition resolve (tr : transport) (path iface : string) : option handle :=
  if tr path iface then Some (Handle path iface) else None.

(** One handler run to completion, the way the reconciler applies one
    notification after the other.  A thrown exception leaves the writes
    made before it. *)
Fixpoint run {R : Type} (tr : transport) (t : task R) (b : Bluez) : Bluez * (exn + R) :=
  match t with
  | Ret r => (b, inr r)
  | Throw e => (b, inl e)
  | Get k => run tr (k b) b
  | Put b' k => run tr k b'
  | Await p i k =>
      run tr (k (resolve tr p i)) (set_calls (λ l, l ++ [(p, i)]) b)
  end.

(** ** Entity objects *)

Definition characteristics_of (o : obj) : option loc :=
  match o with
  | OService _ c | OHolderC c => Some c
  | _ => None
  end.

Definition descriptors_of (o : obj) : option loc :=
  match o with
  | OCharacteristic _ _ d | OHolderD d => Some d
  | _ => None
  end.

Definition services_of (o : obj) : option loc :=
  match o with
  | ODevice _ _ s => Some s
  | _ => None
  end.

(** Modelled from the spec: the constructors of [Device.js], [Service.js],
    [Characteristic.js] and [Descriptor.js], which are not among the
    sources.  The spec gives a Device an owned map of Service by UUID, a
    Service an owned map of Characteristic by UUID and a Characteristic an
    owned map of Descriptor by UUID; a new entity starts with an empty
    one. *)
Definition new_Device (interface_ changed_ : handle) : task loc :=
  m ← alloc (OPlain ∅); alloc (ODevice interface_ changed_ m).
Definition new_Service (iface : handle) : task loc :=
  m ← alloc (OPlain ∅); alloc (OService iface m).
Definition new_Characteristic (iface changed : handle) : task loc :=
  m ← alloc (OPlain ∅); alloc (OCharacteristic iface changed m).
Definition new_Descriptor (iface : handle) : task loc :=
  alloc (ODescriptor iface).

(** [field || {}]. *)
Definition or_empty (field : option loc) : task loc :=
  match field with
  | Some m => Ret m
  | None => alloc (OPlain ∅)
  end.

(** [field[k] = child], where [field] is a child map of some object, or
    [undefined] when the object has no such member. *)
Definition child_set (field : option loc) (k : string) (child : loc) : task unit :=
  match field with
  | None => Throw TypeError
  | Some ml =>
      Get (λ b, match heap b !! ml with
                | Some (OPlain m) =>
                    Put (set_heap (insert ml (OPlain (<[k := child]> m))) b) (Ret tt)
                | _ => Throw TypeError
                end)
  end.

(** ** The handle resolvers *)

Definition getAdapter (dev : string) : task value :=
  let dev := match Js.match_adapter dev with Some g => g | None => dev end in
  (* If the adapter was not discovered yet, try the default path. *)
  let path := "/org/bluez/" +:+ dev in
  let bind (path : string) : task value :=
    Await path "org.bluez.Adapter1" (λ interface_,
      match interface_ with
      | None => Throw (Error "Adapter not found")
      | Some i =>
          a ← alloc (OAdapter i);
          modify (set_adapter (insert dev (VObj a)));;
          Ret (VObj a)
      end) in
  Get (λ b,
    match js_get (adapter b) dev with
    | Some (VStr s) => if Js.nonempty s then bind s else bind path
    | Some a => Ret a              (* Adapter already created *)
    | None => bind path
    end).

Definition getDevice (address : string) : task value :=
  let original := Js.replace_all ":" "_" address in
  let address :=
    match Js.match_device address with Some (_, g2) => g2 | None => address end in
  let address := Js.replace_all "_" ":" address in
  Get (λ b,
    match js_get (devices b) address with
    | Some (VStr s) =>
        if Js.nonempty s then
          interface_ ← getInterface s "org.bluez.Device1";
          changed_ ← getInterface ("/org/bluez/hci0/dev_" +:+ original)
                                  "org.freedesktop.DBus.Properties";
          (* need to check here again, there might be a race because of await *)
          Get (λ b',
            match js_get (devices b') address with
            | Some (VStr _) | None =>
                d ← new_Device interface_ changed_;
                modify (set_devices (insert address (VObj d)));;
                Ret (VObj d)
            | Some d => Ret d      (* Device already created *)
            end)
        else Throw (Error "Device not found")
    | Some d => Ret d              (* Device already created *)
    | None => Throw (Error "Device not found")
    end).

(** ** The notification handlers *)

Definition skip : task unit := Ret tt.

(** [o.field] for a child-map member of the object [o] refers to;
    [undefined] when the object has no such member.  For [o] read from
    [this._path], [None] is also a member inherited from
    [Object.prototype]: a function (or the prototype itself), which has
    neither [characteristics] nor [descriptors]. *)
Definition member (b : Bluez) (field : obj → option loc) (o : option loc) : option loc :=
  match o with
  | Some l => match heap b !! l with Some x => field x | None => None end
  | None => None
  end.

(** [if (this._path[k])]: [this._path] is a plain object, so besides its
    own entries (objects, all truthy) the members of [Object.prototype]
    are found, truthy, under their names. *)
Definition path_truthy (b : Bluez) (k : string) : bool :=
  match _path b !! k with
  | Some _ => true
  | None => Js.inherited k
  end.

Definition ref_of (v : value) : option loc :=
  match v with
  | VObj l => Some l
  | _ => None
  end.

Definition onInterfacesAdded (path : string) (interfaces : Interfaces) : task unit :=
  match Adapter1 interfaces with
  | Some props => modify (set_adapter_props (Some props))
  | None => skip
  end;;
  match Device1 interfaces with
  | Some props =>
      modify (set_devices (λ d, js_set_str d (Address props) path));;
      emit (EvDevice (Address props) props)
  | None => skip
  end;;
  match GattService1 interfaces with
  | Some props =>
      iface ← getInterface path "org.bluez.GattService1";
      service ← new_Service iface;
      dev ← getDevice (service_Device props);
      Get (λ b,
        if path_truthy b path then
          (* Characteristic was registered before service, copy them over *)
          m ← or_empty (member b characteristics_of (_path b !! path));
          modify (set_heap (insert service (OService iface m)))
        else skip);;
      Get (λ b,
        child_set (member b services_of (ref_of dev)) (service_UUID props) service);;
      modify (set_path (insert path service))
  | None => skip
  end;;
  match GattCharacteristic1 interfaces with
  | Some props =>
      iface ← getInterface path "org.bluez.GattCharacteristic1";
      changed ← getInterface path "org.freedesktop.DBus.Properties";
      characteristic ← new_Characteristic iface changed;
      Get (λ b,
        if path_truthy b path then
          (* Descriptor was registered before characteristic, copy them over *)
          m ← or_empty (member b descriptors_of (_path b !! path));
          modify (set_heap (insert characteristic (OCharacteristic iface changed m)))
        else skip);;
      Get (λ b,
        if path_truthy b (characteristic_Service props) then skip
        else
          (* service not yet created *)
          m ← alloc (OPlain ∅);
          holder ← alloc (OHolderC m);
          modify (set_path (insert (characteristic_Service props) holder)));;
      Get (λ b,
        child_set (member b characteristics_of (_path b !! characteristic_Service props))
                  (characteristic_UUID props) characteristic);;
      modify (set_path (insert path characteristic))
  | None => skip
  end;;
  match GattDescriptor1 interfaces with
  | Some props =>
      iface ← getInterface path "org.bluez.GattDescriptor1";
      descriptor ← new_Descriptor iface;
      Get (λ b,
        if path_truthy b (descriptor_Characteristic props) then skip
        else
          (* Characteristic not yet created *)
          m ← alloc (OPlain ∅);
          holder ← alloc (OHolderD m);
          modify (set_path (insert (descriptor_Characteristic props) holder)));;
      Get (λ b,
        child_set (member b descriptors_of (_path b !! descriptor_Characteristic props))
                  (descriptor_UUID props) descriptor)
  | None => skip
  end.

Definition has_interface (name : string) (interfaces : list string) : bool :=
  bool_decide (name ∈ interfaces).      (* interfaces.indexOf(name) >= 0 *)

Definition onInterfaceRemoved (path : string) (interfaces : list string) : task unit :=
  let match_ := Js.match_removed path in
  (if has_interface "org.bluez.Device1" interfaces then
     match match_ with
     | None => Throw TypeError                     (* match[2] of null *)
     | Some (_, Some g2) =>
         let addr := Js.replace_all "_" ":" g2 in
         modify (set_devices (delete addr))
     | Some (_, None) =>
         (* something is wrong *)
         emit_error "Removed Device with unknown path"
     end
   else skip);;
  (if has_interface "org.bluez.Adapter1" interfaces then
     match match_ with
     | None => Throw TypeError                     (* match[1] of null *)
     | Some (g1, _) =>
         if Js.nonempty g1
         then modify (set_adapter (delete g1))
         else
           (* something is wrong *)
           emit_error "Removed Adapter with unknown path"
     end
   else skip).

(** ** Names for what the resolvers compute from their argument *)

(** The key of [this.devices] that [getDevice] looks up. *)
Definition device_address (address : string) : string :=
  Js.replace_all "_" ":"
    (match Js.match_device address with Some (_, g2) => g2 | None => address end).

(** The path at which [getDevice] binds the Properties interface. *)
Definition properties_path (address : string) : string :=
  "/org/bluez/hci0/dev_" +:+ Js.replace_all ":" "_" address.

(** The key of [this.adapter] that [getAdapter] looks up. *)
Definition adapter_id (dev : string) : string :=
  match Js.match_adapter dev with Some g => g | None => dev end.

(** ** Notifications naming one interface *)

Definition no_interfaces : Interfaces :=
  {| Adapter1 := None; Device1 := None; GattService1 := None;
     GattCharacteristic1 := None; GattDescriptor1 := None |}.

Definition adapter_added (props : AdapterProps) : Interfaces :=
  {| Adapter1 := Some props; Device1 := None; GattService1 := None;
     GattCharacteristic1 := None; GattDescriptor1 := None |}.

Definition device_added (props : DeviceProps) : Interfaces :=
  {| Adapter1 := None; Device1 := Some props; GattService1 := None;
     GattCharacteristic1 := None; GattDescriptor1 := None |}.

Definition service_added (props : ServiceProps) : Interfaces :=
  {| Adapter1 := None; Device1 := None; GattService1 := Some props;
     GattCharacteristic1 := None; GattDescriptor1 := None |}.

Definition characteristic_added (props : CharacteristicProps) : Interfaces :=
  {| Adapter1 := None; Device1 := None; GattService1 := None;
     GattCharacteristic1 := Some props; GattDescriptor1 := None |}.

Definition descriptor_added (props : DescriptorProps) : Interfaces :=
  {| Adapter1 := None; Device1 := None; GattService1 := None;
     GattCharacteristic1 := None; GattDescriptor1 := Some props |}.

(** The state after a handler has run to completion. *)
Definition after {R : Type} (tr : transport) (t : task R) (b : Bluez) : Bluez :=
  (run tr t b).1.

(** Its outcome: the value returned or the exception thrown. *)
Definition outcome {R : Type} (tr : transport) (t : task R) (b : Bluez) : exn + R :=
  (run tr t b).2.

(** Applying one notification after the other. *)
Definition added (tr : transport) (path : string) (interfaces : Interfaces) (b : Bluez) : Bluez :=
  after tr (onInterfacesAdded path interfaces) b.

Definition removed (tr : transport) (path : string) (interfaces : list string) (b : Bluez) : Bluez :=
  after tr (onInterfaceRemoved path interfaces) b.

(** The state [getDevice] leaves when it constructs a handle, and the
    location of the handle. *)
Definition device_installed (b : Bluez) (address registered : string) : Bluez * loc :=
  let b1 := set_calls (λ l, l ++ [(registered, "org.bluez.Device1")]) b in
  let b2 := set_calls
              (λ l, l ++ [(properties_path address, "org.freedesktop.DBus.Properties")]) b1 in
  let m := fresh (dom (heap b2)) in
  let b3 := set_heap (insert m (OPlain ∅)) b2 in
  let d := fresh (dom (heap b3)) in
  let o := ODevice (Handle registered "org.bluez.Device1")
                   (Handle (properties_path address) "org.freedesktop.DBus.Properties") m in
  (set_devices (insert (device_address address) (VObj d)) (set_heap (insert d o) b3), d).

(** ** The five blocks of [onInterfacesAdded]

    One block per [if ('org.bluez.X' in interfaces)], named here so that
    each can be reasoned about on its own. *)

Definition adapter_block (interfaces : Interfaces) : task unit :=
  match Adapter1 interfaces with
  | Some props => modify (set_adapter_props (Some props))
  | None => skip
  end.

Definition device_block (path : string) (interfaces : Interfaces) : task unit :=
  match Device1 interfaces with
  | Some props =>
      modify (set_devices (λ d, js_set_str d (Address props) path));;
      emit (EvDevice (Address props) props)
  | None => skip
  end.

Definition service_block (path : string) (interfaces : Interfaces) : task unit :=
  match GattService1 interfaces with
  | Some props =>
      iface ← getInterface path "org.bluez.GattService1";
      service ← new_Service iface;
      dev ← getDevice (service_Device props);
      Get (λ b,
        if path_truthy b path then
          m ← or_empty (member b characteristics_of (_path b !! path));
          modify (set_heap (insert service (OService iface m)))
        else skip);;
      Get (λ b,
        child_set (member b services_of (ref_of dev)) (service_UUID props) service);;
      modify (set_path (insert path service))
  | None => skip
  end.

Definition characteristic_block (path : string) (interfaces : Interfaces) : task unit :=
  match GattCharacteristic1 interfaces with
  | Some props =>
      iface ← getInterface path "org.bluez.GattCharacteristic1";
      changed ← getInterface path "org.freedesktop.DBus.Properties";
      characteristic ← new_Characteristic iface changed;
      Get (λ b,
        if path_truthy b path then
          m ← or_empty (member b descriptors_of (_path b !! path));
          modify (set_heap (insert characteristic (OCharacteristic iface changed m)))
        else skip);;
      Get (λ b,
        if path_truthy b (characteristic_Service props) then skip
        else
          m ← alloc (OPlain ∅);
          holder ← alloc (OHolderC m);
          modify (set_path (insert (characteristic_Service props) holder)));;
      Get (λ b,
        child_set (member b characteristics_of (_path b !! characteristic_Service props))
                  (characteristic_UUID props) characteristic);;
      modify (set_path (insert path characteristic))
  | None => skip
  end.

Definition descriptor_block (path : string) (interfaces : Interfaces) : task unit :=
  match GattDescriptor1 interfaces with
  | Some props =>
      iface ← getInterface path "org.bluez.GattDescriptor1";
      descriptor ← new_Descriptor iface;
      Get (λ b,
        if path_truthy b (descriptor_Characteristic props) then skip
        else
          m ← alloc (OPlain ∅);
          holder ← alloc (OHolderD m);
          modify (set_path (insert (descriptor_Characteristic props) holder)));;
      Get (λ b,
        child_set (member b descriptors_of (_path b !! descriptor_Characteristic props))
                  (descriptor_UUID props) descriptor)
  | None => skip
  end.

(** The statements the GATT blocks share. *)

(** [if (this._path[path]) self.field = this._path[path].field || {}]:
    the new entity takes over the child map of what was registered at its
    path, and gets a new empty one when what is found there has none. *)
Definition take_over (field : obj → option loc) (mk : loc → obj) (path : string)
    (self : loc) : task unit :=
  Get (λ b,
    if path_truthy b path then
      m ← or_empty (member b field (_path b !! path));
      modify (set_heap (insert self (mk m)))
    else skip).

(** [if (!this._path[owner]) this._path[owner] = { field: {} }]. *)
Definition make_holder (holder : loc → obj) (owner : string) : task unit :=
  Get (λ b,
    if path_truthy b owner then skip
    else
      m ← alloc (OPlain ∅);
      h ← alloc (holder m);
      modify (set_path (insert owner h))).

(** [this._path[owner].field[uuid] = child]: a [TypeError] when the member
    at [owner] has no such child map, as a member inherited from
    [Object.prototype] has none. *)
Definition attach_child (field : obj → option loc) (owner uuid : string) (child : loc) : task unit :=
  Get (λ b, child_set (member b field (_path b !! owner)) uuid child).

(** The child map of the object registered at a path. *)
Definition owner_map (b : Bluez) (field : obj → option loc) (path : string) : option loc :=
  member b field (_path b !! path).

(** [t] never changes what [f] reads of the state. *)
Definition stable {A R : Type} (f : Bluez → A) (t : task R) : Prop :=
  ∀ tr b, f (run tr t b).1 = f b.

(** ** Traversal from a handle *)

(** Modelled from the spec: the lookups of [Device.js], [Service.js] and
    [Characteristic.js] ([device.getService(uuid)],
    [service.getCharacteristic(uuid)]), which are not among the sources.
    The spec has each look the UUID up in the entity's child map and answer
    "not found" when it is absent. *)
Definition child (b : Bluez) (field : obj → option loc) (o : loc) (uuid : string) : option loc :=
  match member b field (Some o) with
  | Some ml => match heap b !! ml with
               | Some (OPlain m) => m !! uuid
               | _ => None
               end
  | None => None
  end.

Definition getService (b : Bluez) (device : loc) (uuid : string) : option loc :=
  child b services_of device uuid.
Definition getCharacteristic (b : Bluez) (service : loc) (uuid : string) : option loc :=
  child b characteristics_of service uuid.
Definition getDescriptor (b : Bluez) (characteristic : loc) (uuid : string) : option loc :=
  child b descriptors_of characteristic uuid.

(** ** Concurrent calls

    A call of an [async] method runs at once up to its first [await] (the
    [getInterface] call is issued there) and is suspended; when the promise
    settles it runs on to the next [await], or to its end.  Several
    suspended calls are resumed in any order. *)

(** The synchronous stretch of a task: up to the next [await], whose call
    it issues, or to the end. *)
Fixpoint advance {R : Type} (t : task R) (b : Bluez) : Bluez * task R :=
  match t with
  | Get k => advance (k b) b
  | Put b' k => advance k b'
  | Await p i k => (set_calls (λ l, l ++ [(p, i)]) b, Await p i k)
  | Ret _ | Throw _ => (b, t)
  end.

Definition settled {R : Type} (t : task R) : bool :=
  match t with
  | Ret _ | Throw _ => true
  | _ => false
  end.

(** The instance and the calls in flight, each settled or suspended at an
    [Await] whose call was issued. *)
Definition config (R : Type) : Type := Bluez * list (task R).

(** A caller invokes the method. *)
Definition call {R : Type} (t : task R) (c : config R) : config R :=
  let '(b', t') := advance t c.1 in (b', c.2 ++ [t']).

(** The promise one suspended call waits for settles, and the call runs
    its next stretch. *)
Inductive step {R : Type} (tr : transport) : config R → config R → Prop :=
| step_resume (b b' : Bluez) (ts : list (task R)) (n : nat)
    (p i : string) (k : option handle → task R) (t' : task R) :
    ts !! n = Some (Await p i k) →
    advance (k (resolve tr p i)) b = (b', t') →
    step tr (b, ts) (b', <[n := t']> ts).

Definition quiescent {R : Type} (c : config R) : Prop :=
  forallb settled c.2 = true.

(** What a settled task holds. *)
Definition settle {R : Type} (r : exn + R) : task R :=
  match r with
  | inr v => Ret v
  | inl e => Throw e
  end.

(** A call on its own goes through its awaits to the result of [run]. *)
Definition drain {R : Type} (tr : transport) (t : task R) (b : Bluez) : Bluez * (exn + R) :=
  match t with
  | Await p i k => run tr (k (resolve tr p i)) b
  | _ => run tr t b
  end.

(** ** Well-formed registries *)

(** The child map an entity object refers to. *)
Definition field_of (o : obj) : option loc :=
  match o with
  | ODevice _ _ m | OService _ m | OCharacteristic _ _ m | OHolderC m | OHolderD m => Some m
  | _ => None
  end.

Definition plain (h : gmap loc obj) (l : loc) : Prop :=
  ∃ m, h !! l = Some (OPlain m).

Record wf_heap (h : gmap loc obj) : Prop := {
  wf_field : ∀ l o f, h !! l = Some o → field_of o = Some f → plain h f;
  wf_child : ∀ l m k x, h !! l = Some (OPlain m) → m !! k = Some x → is_Some (h !! x);
}.

Record wf (b : Bluez) : Prop := {
  wf_objects : wf_heap (heap b);
  wf_path : ∀ k l, _path b !! k = Some l → is_Some (heap b !! l);
  wf_devices : ∀ k d, devices b !! k = Some (VObj d) →
               ∃ i c m, heap b !! d = Some (ODevice i c m);
  wf_adapter : ∀ k a, adapter b !! k = Some (VObj a) → is_Some (heap b !! a);
}.
(** The classes of objects: an object changes in place, never its class. *)
Definition kind (o : obj) : nat :=
  match o with
  | OAdapter _ => 0 | ODevice _ _ _ => 1 | OService _ _ => 2
  | OCharacteristic _ _ _ => 3 | ODescriptor _ => 4
  | OHolderC _ => 5 | OHolderD _ => 6 | OPlain _ => 7
  end.

(** What an object about to be stored needs of the heap. *)
Definition obj_ok (h : gmap loc obj) (o : obj) : Prop :=
  (∀ f, field_of o = Some f → plain h f)
  ∧ (∀ m k x, o = OPlain m → m !! k = Some x → is_Some (h !! x)).
(** A sort of entity with a child map: how the object is built around the
    map, and how the map is read off an object. *)
Record sort := {
  field : obj → option loc;
  mk : loc → obj;
  sort_field : ∀ m, field (mk m) = Some m;
  sort_field_of : ∀ o m, field o = Some m → field_of o = Some m;
  sort_kind : ∀ m m', kind (mk m) = kind (mk m');
  sort_not_plain : ∀ m, kind (mk m) ≠ 7;
}.

Definition service_sort (i : handle) : sort.
Proof.
  refine {| field := characteristics_of; mk := OService i |}; try done.
  intros o x; destruct o; simpl; congruence.
Defined.

Definition characteristic_sort (i c : handle) : sort.
Proof.
  refine {| field := descriptors_of; mk := OCharacteristic i c |}; try done.
  intros o x; destruct o; simpl; congruence.
Defined.

Definition holderC_sort : sort.
Proof.
  refine {| field := characteristics_of; mk := OHolderC |}; try done.
  intros o x; destruct o; simpl; congruence.
Defined.

Definition holderD_sort : sort.
Proof.
  refine {| field := descriptors_of; mk := OHolderD |}; try done.
  intros o x; destruct o; simpl; congruence.
Defined.

(** ** What one notification does to a well-formed registry *)

(** The objects of [b] are still there, unchanged. *)
Definition extends (b b' : Bluez) : Prop :=
  ∀ x o, heap b !! x = Some o → heap b' !! x = Some o.


(** The same, but for the child map [cm]. *)
Definition extends_but (cm : loc) (b b' : Bluez) : Prop :=
  ∀ x o, heap b !! x = Some o → x ≠ cm → heap b' !! x = Some o.

Definition same_roots (b b' : Bluez) : Prop :=
  adapter b' = adapter b ∧ adapter_props b' = adapter_props b
  ∧ devices b' = devices b ∧ _path b' = _path b.

Definition failed {R : Type} (r : exn + R) : Prop := ∃ e, r = inl e.


(** The characteristic block comes to its end: both interfaces bind, and
    the path of the service is free ([this._path] yields nothing for it:
    no entry, and no member of [Object.prototype] either) or holds
    something with a [characteristics] member. *)
Definition characteristic_ready (tr : transport) (b : Bluez) (path : string)
    (props : CharacteristicProps) : Prop :=
  tr path "org.bluez.GattCharacteristic1" = true
  ∧ tr path "org.freedesktop.DBus.Properties" = true
  ∧ (path_truthy b (characteristic_Service props) = false
     ∨ is_Some (owner_map b characteristics_of (characteristic_Service props))).

Definition characteristic_post (tr : transport) (b : Bluez) (P : string)
    (props : CharacteristicProps) (b' : Bluez) (r : exn + unit) : Prop :=
  let S := characteristic_Service props in
  let u := characteristic_UUID props in
  wf b' ∧ adapter b' = adapter b ∧ adapter_props b' = adapter_props b
  ∧ devices b' = devices b
  ∧ ((¬ characteristic_ready tr b P props ∧ failed r ∧ _path b' = _path b
      ∧ extends b b')
     ∨ (characteristic_ready tr b P props ∧ r = inr tt
        ∧ ∃ c cm m dm,
            heap b !! c = None
            ∧ heap b' !! c
              = Some (OCharacteristic (Handle P "org.bluez.GattCharacteristic1")
                        (Handle P "org.freedesktop.DBus.Properties") dm)
            ∧ (∀ dm0, owner_map b descriptors_of P = Some dm0 → dm = dm0)
            ∧ (P ≠ S → owner_map b' characteristics_of S = Some cm)
            ∧ heap b' !! cm = Some (OPlain (<[u := c]> m))
            ∧ (heap b !! cm = Some (OPlain m) ∨ heap b !! cm = None ∧ m = ∅)
            ∧ (_path b !! S = None → heap b !! cm = None)
            ∧ (∀ cm0, owner_map b characteristics_of S = Some cm0 → cm = cm0)
            ∧ _path b' !! P = Some c
            ∧ (∀ k, k ≠ P → k ≠ S → _path b' !! k = _path b !! k)
            ∧ (P ≠ S → ∀ l, _path b !! S = Some l → _path b' !! S = Some l)
            ∧ extends_but cm b b')).

(** The descriptor block comes to its end: the interface binds, and the
    path of the characteristic is free or holds something with a
    [descriptors] member. *)
Definition descriptor_ready (tr : transport) (b : Bluez) (path : string)
    (props : DescriptorProps) : Prop :=
  tr path "org.bluez.GattDescriptor1" = true
  ∧ (path_truthy b (descriptor_Characteristic props) = false
     ∨ is_Some (owner_map b descriptors_of (descriptor_Characteristic props))).

Definition descriptor_post (tr : transport) (b : Bluez) (P : string)
    (props : DescriptorProps) (b' : Bluez) (r : exn + unit) : Prop :=
  let X := descriptor_Characteristic props in
  let u := descriptor_UUID props in
  wf b' ∧ adapter b' = adapter b ∧ adapter_props b' = adapter_props b
  ∧ devices b' = devices b
  ∧ ((¬ descriptor_ready tr b P props ∧ failed r ∧ _path b' = _path b
      ∧ extends b b')
     ∨ (descriptor_ready tr b P props ∧ r = inr tt
        ∧ ∃ d dm m,
            heap b !! d = None
            ∧ heap b' !! d = Some (ODescriptor (Handle P "org.bluez.GattDescriptor1"))
            ∧ owner_map b' descriptors_of X = Some dm
            ∧ heap b' !! dm = Some (OPlain (<[u := d]> m))
            ∧ (heap b !! dm = Some (OPlain m) ∨ heap b !! dm = None ∧ m = ∅)
            ∧ (∀ dm0, owner_map b descriptors_of X = Some dm0 → dm = dm0)
            ∧ (∀ k, k ≠ X → _path b' !! k = _path b !! k)
            ∧ (∀ l, _path b !! X = Some l → _path b' !! X = Some l)
            ∧ extends_but dm b b')).

(** [getDevice] has a Device to return. *)
Definition device_ready (tr : transport) (b : Bluez) (address : string) : Prop :=
  match js_get (devices b) (device_address address) with
  | Some (VObj _) => True
  | Some (VStr registered) =>
      Js.nonempty registered = true
      ∧ tr registered "org.bluez.Device1" = true
      ∧ tr (properties_path address) "org.freedesktop.DBus.Properties" = true
  | _ => False
  end.

Definition service_ready (tr : transport) (b : Bluez) (path : string)
    (props : ServiceProps) : Prop :=
  tr path "org.bluez.GattService1" = true
  ∧ device_ready tr b (service_Device props).

Definition service_post (tr : transport) (b : Bluez) (P : string)
    (props : ServiceProps) (b' : Bluez) (r : exn + unit) : Prop :=
  let key := device_address (service_Device props) in
  let U := service_UUID props in
  wf b' ∧ adapter b' = adapter b ∧ adapter_props b' = adapter_props b
  ∧ ((¬ service_ready tr b P props ∧ failed r ∧ devices b' = devices b
      ∧ _path b' = _path b ∧ extends b b')
     ∨ (service_ready tr b P props ∧ r = inr tt
        ∧ ∃ s d sm ms cm i c,
            heap b !! s = None
            ∧ heap b' !! s = Some (OService (Handle P "org.bluez.GattService1") cm)
            ∧ (∀ cm0, owner_map b characteristics_of P = Some cm0 → cm = cm0)
            ∧ (_path b !! P = None → heap b !! cm = None ∧ cm ≠ sm)
            ∧ devices b' = <[key := VObj d]> (devices b)
            ∧ heap b' !! d = Some (ODevice i c sm)
            ∧ heap b' !! sm = Some (OPlain (<[U := s]> ms))
            ∧ ((devices b !! key = Some (VObj d)
                ∧ heap b !! d = Some (ODevice i c sm)
                ∧ heap b !! sm = Some (OPlain ms))
               ∨ (heap b !! d = None ∧ heap b !! sm = None ∧ ms = ∅
                  ∧ ∃ registered, devices b !! key = Some (VStr registered)))
            ∧ _path b' = <[P := s]> (_path b)
            ∧ extends_but sm b b')).

(** ** The registry up to the identity of objects *)

(** What a location leads to, down to depth [n]. *)
#[warnings="-register-all"]
Inductive tree :=
| TAdapter (iface : handle)
| TDevice (iface changed : handle) (services : tree)
| TService (iface : handle) (characteristics : tree)
| TCharacteristic (iface changed : handle) (descriptors : tree)
| TDescriptor (iface : handle)
| THolderC (characteristics : tree)
| THolderD (descriptors : tree)
| TPlain (m : gmap string tree)
| TCut.

Fixpoint view (n : nat) (h : gmap loc obj) (l : loc) : tree :=
  match n with
  | O => TCut
  | S n =>
      match h !! l with
      | None => TCut
      | Some (OAdapter i) => TAdapter i
      | Some (ODevice i c s) => TDevice i c (view n h s)
      | Some (OService i c) => TService i (view n h c)
      | Some (OCharacteristic i c d) => TCharacteristic i c (view n h d)
      | Some (ODescriptor i) => TDescriptor i
      | Some (OHolderC c) => THolderC (view n h c)
      | Some (OHolderD d) => THolderD (view n h d)
      | Some (OPlain m) => TPlain (view n h <$> m)
      end
  end.

(** Two objects with the same members, up to a relation on the locations
    they refer to. *)
Definition similar_obj (R : loc → loc → Prop) (o2 o1 : obj) : Prop :=
  match o2, o1 with
  | OAdapter i2, OAdapter i1 => i2 = i1
  | ODevice i2 c2 m2, ODevice i1 c1 m1 => i2 = i1 ∧ c2 = c1 ∧ R m2 m1
  | OService i2 m2, OService i1 m1 => i2 = i1 ∧ R m2 m1
  | OCharacteristic i2 c2 m2, OCharacteristic i1 c1 m1 => i2 = i1 ∧ c2 = c1 ∧ R m2 m1
  | ODescriptor i2, ODescriptor i1 => i2 = i1
  | OHolderC m2, OHolderC m1 => R m2 m1
  | OHolderD m2, OHolderD m1 => R m2 m1
  | OPlain m2, OPlain m1 => ∀ k, option_Forall2 R (m2 !! k) (m1 !! k)
  | _, _ => False
  end.

Inductive shown :=
| ShownStr (s : string)
| ShownObj (t : tree)
| ShownProto (name : string).

Definition show (n : nat) (h : gmap loc obj) (v : value) : shown :=
  match v with
  | VStr s => ShownStr s
  | VObj l => ShownObj (view n h l)
  | VProto name => ShownProto name
  end.

(** The registry as a caller can explore it: what the adapter map, the
    address index and the path index lead to, whatever the locations. *)
Record Registry := {
  r_adapter : gmap string shown;
  r_adapter_props : option AdapterProps;
  r_devices : gmap string shown;
  r_path : gmap string tree;
}.

Definition registry (n : nat) (b : Bluez) : Registry :=
  {| r_adapter := show n (heap b) <$> adapter b;
     r_adapter_props := adapter_props b;
     r_devices := show n (heap b) <$> devices b;
     r_path := view n (heap b) <$> _path b |}.

(** The hierarchy under a service path: the device holds the service under
    its UUID, the path index holds the service and the characteristic, and
    the service holds the characteristic under its UUID. *)
Definition attached (b : Bluez) (S C : string) (sp : ServiceProps) (cp : CharacteristicProps) : Prop :=
  ∃ d s c cm dm,
    devices b !! device_address (service_Device sp) = Some (VObj d)
    ∧ getService b d (service_UUID sp) = Some s
    ∧ _path b !! S = Some s
    ∧ heap b !! s = Some (OService (Handle S "org.bluez.GattService1") cm)
    ∧ getCharacteristic b s (characteristic_UUID cp) = Some c
    ∧ _path b !! C = Some c
    ∧ heap b !! c
      = Some (OCharacteristic (Handle C "org.bluez.GattCharacteristic1")
                (Handle C "org.freedesktop.DBus.Properties") dm).

(** A notification that names one of the five interfaces. *)
Inductive single : Interfaces → Prop :=
| single_adapter (props : AdapterProps) : single (adapter_added props)
| single_device (props : DeviceProps) : single (device_added props)
| single_service (props : ServiceProps) : single (service_added props)
| single_characteristic (props : CharacteristicProps) : single (characteristic_added props)
| single_descriptor (props : DescriptorProps) : single (descriptor_added props).

(** ** Sample objects of a BlueZ daemon *)

Definition all_bound : transport := λ _ _, true.

(** A transport on which no characteristic can be bound. *)
Definition no_characteristic : transport :=
  λ _ iface, negb (String.eqb iface "org.bluez.GattCharacteristic1").

Definition hci0_path : string := "/org/bluez/hci0".
Definition dev_path : string := "/org/bluez/hci0/dev_AA_BB_CC_DD_EE_FF".
Definition svc_path : string := "/org/bluez/hci0/dev_AA_BB_CC_DD_EE_FF/service0010".
Definition chr_path : string :=
  "/org/bluez/hci0/dev_AA_BB_CC_DD_EE_FF/service0010/char0011".
Definition dsc_path : string :=
  "/org/bluez/hci0/dev_AA_BB_CC_DD_EE_FF/service0010/char0011/desc0013".

Definition hci0_props : AdapterProps :=
  {| adapter_Address := "00:1A:7D:DA:71:13"; adapter_Name := "host" |}.
Definition dev_props : DeviceProps :=
  {| Address := "AA:BB:CC:DD:EE:FF"; Name := "Muse-303A"; Connected := false |}.
Definition svc_props : ServiceProps :=
  {| service_Device := dev_path;
     service_UUID := "0000ffe0-0000-1000-8000-00805f9b34fb" |}.
Definition chr_props : CharacteristicProps :=
  {| characteristic_Service := svc_path;
     characteristic_UUID := "0000ffe1-0000-1000-8000-00805f9b34fb" |}.
Definition dsc_props : DescriptorProps :=
  {| descriptor_Characteristic := chr_path;
     descriptor_UUID := "00002902-0000-1000-8000-00805f9b34fb" |}.

(** An object that is a service and a characteristic in one. *)
Definition svc_and_chr : Interfaces :=
  {| Adapter1 := None; Device1 := None; GattService1 := Some svc_props;
     GattCharacteristic1 :=
       Some {| characteristic_Service := "/org/bluez/hci0/dev_AA_BB_CC_DD_EE_FF/service0020";
               characteristic_UUID := "0000ffe2-0000-1000-8000-00805f9b34fb" |};
     GattDescriptor1 := None |}.

(** A device with one service and one characteristic, each announced after
    its owner. *)
Definition sample_registry : Bluez :=
  added all_bound chr_path (characteristic_added chr_props)
    (added all_bound svc_path (service_added svc_props)
       (added all_bound dev_path (device_added dev_props) constructor)).

(** The characteristics of the sample service, as the registry shows them
    from the device. *)
Definition shown_characteristics (r : Registry) : option (list string) :=
  match r_devices r !! "AA:BB:CC:DD:EE:FF" with
  | Some (ShownObj (TDevice _ _ (TPlain services))) =>
      match services !! service_UUID svc_props with
      | Some (TService _ (TPlain characteristics)) =>
          Some (map_to_list characteristics).*1
      | _ => None
      end
  | _ => None
  end.

(** ** Shapes of identifiers *)

(** Every character of a string is of a class. *)
Fixpoint all_chars (p : Ascii.ascii → bool) (s : string) : bool :=
  match s with
  | EmptyString => true
  | String c s' => p c && all_chars p s'
  end.

(** What [\w+] matches as a whole: an adapter name such as [hci0], or an
    address in its underscore form. *)
Definition word (s : string) : bool :=
  Js.nonempty s && all_chars Js.is_word s.

(** The characters of an address in either form: word characters and
    colons. *)
Definition address_char (c : Ascii.ascii) : bool :=
  Js.is_word c || Ascii.eqb c ":"%char.

(** ** Histories of an instance *)

(** What happens to an instance: the daemon announces or removes
    interfaces, a caller asks for a handle.  Each is run to its end before
    the next. *)
Inductive op :=
| Added (path : string) (interfaces : Interfaces)
| Removed (path : string) (interfaces : list string)
| GetAdapter (dev : string)
| GetDevice (address : string).

Definition perform (tr : transport) (b : Bluez) (o : op) : Bluez :=
  match o with
  | Added path interfaces => added tr path interfaces b
  | Removed path interfaces => removed tr path interfaces b
  | GetAdapter dev => after tr (getAdapter dev) b
  | GetDevice address => after tr (getDevice address) b
  end.

(** The operations that leave the entry of [this.adapter] for the name
    [k] in place: all but a removal that names the Adapter interface at a
    path of that adapter. *)
Definition keeps_adapter (k : string) (o : op) : bool :=
  match o with
  | Removed path interfaces =>
      negb (has_interface "org.bluez.Adapter1" interfaces)
      || match Js.match_removed path with
         | Some (g1, _) => negb (String.eqb g1 k)
         | None => true
         end
  | _ => true
  end.

(** The operations that leave the entry of [this.devices] for the address
    [k] in place: all but an announcement of a device with that address,
    and a removal that names the Device interface at a device path that
    spells the address. *)
Definition keeps_device (k : string) (o : op) : bool :=
  match o with
  | Added _ interfaces =>
      match Device1 interfaces with
      | Some props => negb (String.eqb (Address props) k)
      | None => true
      end
  | Removed path interfaces =>
      negb (has_interface "org.bluez.Device1" interfaces)
      || match Js.match_removed path with
         | Some (_, Some id) => negb (String.eqb (Js.replace_all "_" ":" id) k)
         | _ => true
         end
  | _ => true
  end.

(** [t] keeps [J], on whatever transport it runs. *)
Definition keeps (J : Bluez → Prop) {R : Type} (t : task R) : Prop :=
  ∀ tr b, J b → J (run tr t b).1.

(** The instance after a history, from [new Bluez()]. *)
Definition history (tr : transport) (ops : list op) : Bluez :=
  foldl (perform tr) constructor ops.

(** What the three maps of the instance hold: [this.adapter] Adapter
    objects; [this.devices] paths and Device objects; [this._path]
    services, characteristics and the placeholders of either. *)
Record typed (b : Bluez) : Prop := {
  typed_adapter : ∀ k v, adapter b !! k = Some v →
                  ∃ a i, v = VObj a ∧ heap b !! a = Some (OAdapter i);
  typed_devices : ∀ k v, devices b !! k = Some v →
                  (∃ s, v = VStr s)
                  ∨ (∃ d i c m, v = VObj d ∧ heap b !! d = Some (ODevice i c m));
  typed_path : ∀ k p, _path b !! k = Some p →
               ∃ o, heap b !! p = Some o
                    ∧ (is_Some (characteristics_of o) ∨ is_Some (descriptors_of o));
}.

(** ** What announcements leave in place *)

(** An entity object of [b] is in [b'] as it was. *)
Definition entities_kept (b b' : Bluez) : Prop :=
  ∀ l o, heap b !! l = Some o → kind o ≠ 7 → heap b' !! l = Some o.

(** From [b] to [b'] nothing was taken away: the adapter map is the same,
    the keys of the path index and of the address index are still there,
    the entity objects are as they were, and every child map has the keys
    it had. *)
Record grows (b b' : Bluez) : Prop := {
  grows_adapter : adapter b' = adapter b;
  grows_path : ∀ k, is_Some (_path b !! k) → is_Some (_path b' !! k);
  grows_devices : ∀ k, is_Some (devices b !! k) → is_Some (devices b' !! k);
  grows_entities : entities_kept b b';
  grows_children : ∀ l m, heap b !! l = Some (OPlain m) →
                   ∃ m', heap b' !! l = Some (OPlain m')
                         ∧ ∀ k, is_Some (m !! k) → is_Some (m' !! k);
}.

(** The hierarchy under a characteristic path: the path index holds the
    characteristic, and its descriptor map holds the descriptor under its
    UUID. *)
Definition descriptor_attached (b : Bluez) (X D : string) (dp : DescriptorProps) : Prop :=
  ∃ c dm m d,
    _path b !! X = Some c
    ∧ heap b !! c
      = Some (OCharacteristic (Handle X "org.bluez.GattCharacteristic1")
                (Handle X "org.freedesktop.DBus.Properties") dm)
    ∧ heap b !! dm = Some (OPlain m)
    ∧ m !! descriptor_UUID dp = Some d
    ∧ heap b !! d = Some (ODescriptor (Handle D "org.bluez.GattDescriptor1")).

(** ** The enumeration at start-up *)

(** The callback [init] gives to [GetManagedObjects]:
    [(err, objs) => { Object.keys(objs).forEach((k) =>
    this.onInterfacesAdded(k, objs[k])) }].  The handlers are started one
    after the other, in the order of the keys, and none is awaited.  [err]
    is not looked at: when the call failed and [objs] is [undefined],
    [Object.keys] throws. *)
Definition managed_objects (objs : option (list (string * Interfaces))) (c : config unit) :
    exn + config unit :=
  match objs with
  | None => inl TypeError
  | Some objs =>
      inr (foldl (λ c entry, call (onInterfacesAdded entry.1 entry.2) c) c objs)
  end.

(** The same notifications one after the other, each handler run to its
    end before the next is started. *)
Definition one_by_one (tr : transport) (objs : list (string * Interfaces)) (b : Bluez) : Bluez :=
  foldl (λ b entry, added tr entry.1 entry.2 b) b objs.

(** An object with none of the GATT interfaces: its handler awaits
    nothing. *)
Definition synchronous (i : Interfaces) : Prop :=
  GattService1 i = None ∧ GattCharacteristic1 i = None ∧ GattDescriptor1 i = None.

(** An object that is neither an adapter nor a device: its handler does
    nothing before its first [await]. *)
Definition gatt (i : Interfaces) : Prop :=
  Adapter1 i = None ∧ Device1 i = None.

(** ** A device with one service, characteristic and descriptor *)

(** The four objects of the daemon, each with the path it is announced at
    and its property bag. *)
Record Objects := {
  at_device : string;
  device_bag : DeviceProps;
  at_service : string;
  service_bag : ServiceProps;
  at_characteristic : string;
  characteristic_bag : CharacteristicProps;
  at_descriptor : string;
  descriptor_bag : DescriptorProps;
}.

Inductive notification := NDevice | NService | NCharacteristic | NDescriptor.

(** The handler of one of the four notifications, run to its end. *)
Definition deliver (tr : transport) (o : Objects) (b : Bluez) (n : notification) : Bluez :=
  match n with
  | NDevice => added tr (at_device o) (device_added (device_bag o)) b
  | NService => added tr (at_service o) (service_added (service_bag o)) b
  | NCharacteristic =>
      added tr (at_characteristic o) (characteristic_added (characteristic_bag o)) b
  | NDescriptor => added tr (at_descriptor o) (descriptor_added (descriptor_bag o)) b
  end.

(** The objects name each other as the daemon has them do: the service
    its device, the characteristic its service, the descriptor its
    characteristic.  The paths of the service and of the characteristic
    are no member names of [Object.prototype], as no object path is. *)
Record related (o : Objects) : Prop := {
  related_device : device_address (service_Device (service_bag o)) = Address (device_bag o);
  related_service : characteristic_Service (characteristic_bag o) = at_service o;
  related_characteristic :
    descriptor_Characteristic (descriptor_bag o) = at_characteristic o;
  related_paths : at_service o ≠ at_characteristic o;
  related_address : Address (device_bag o) ≠ "__proto__";
  related_path : Js.nonempty (at_device o) = true;
  related_service_path : Js.inherited (at_service o) = false;
  related_characteristic_path : Js.inherited (at_characteristic o) = false;
}.

(** The transport binds every interface the handlers ask for. *)
Record bound (tr : transport) (o : Objects) : Prop := {
  bound_device : tr (at_device o) "org.bluez.Device1" = true;
  bound_properties :
    tr (properties_path (service_Device (service_bag o))) "org.freedesktop.DBus.Properties"
    = true;
  bound_service : tr (at_service o) "org.bluez.GattService1" = true;
  bound_characteristic : tr (at_characteristic o) "org.bluez.GattCharacteristic1" = true;
  bound_changed : tr (at_characteristic o) "org.freedesktop.DBus.Properties" = true;
  bound_descriptor : tr (at_descriptor o) "org.bluez.GattDescriptor1" = true;
}.

(** The whole hierarchy: the address leads to a Device, whose service map
    leads to the Service, whose characteristic map leads to the
    Characteristic, whose descriptor map leads to the Descriptor; the
    service and the characteristic are at their paths in the path
    index. *)
Definition hierarchy (o : Objects) (b : Bluez) : Prop :=
  ∃ (d sm s cm c dm ds : loc) (i h : handle) (ms mc md : gmap string loc),
    devices b !! Address (device_bag o) = Some (VObj d)
    ∧ heap b !! d = Some (ODevice i h sm)
    ∧ heap b !! sm = Some (OPlain ms)
    ∧ ms !! service_UUID (service_bag o) = Some s
    ∧ _path b !! at_service o = Some s
    ∧ heap b !! s = Some (OService (Handle (at_service o) "org.bluez.GattService1") cm)
    ∧ heap b !! cm = Some (OPlain mc)
    ∧ mc !! characteristic_UUID (characteristic_bag o) = Some c
    ∧ _path b !! at_characteristic o = Some c
    ∧ heap b !! c
      = Some (OCharacteristic
                (Handle (at_characteristic o) "org.bluez.GattCharacteristic1")
                (Handle (at_characteristic o) "org.freedesktop.DBus.Properties") dm)
    ∧ heap b !! dm = Some (OPlain md)
    ∧ md !! descriptor_UUID (descriptor_bag o) = Some ds
    ∧ heap b !! ds
      = Some (ODescriptor (Handle (at_descriptor o) "org.bluez.GattDescriptor1")).

(** The device is announced before the service. *)
Fixpoint device_first (order : list notification) : bool :=
  match order with
  | [] => true
  | NDevice :: _ => true
  | NService :: _ => false
  | _ :: order => device_first order
  end.

(** What the registry holds when some of the four notifications were
    delivered ([vdev], [vs], [vc], [vd]: the device, the service, the
    characteristic, the descriptor): the part of the hierarchy that is
    there, the placeholders that wait for the rest, and the three child
    maps, which are different objects. *)
Definition delivered (o : Objects) (vdev vs vc vd : bool) (b : Bluez) : Prop :=
  let S := at_service o in
  let C := at_characteristic o in
  wf b ∧ ∃ d sm s cm c dm ds : loc,
    (if vs then
       devices b !! Address (device_bag o) = Some (VObj d)
       ∧ (∃ i h, heap b !! d = Some (ODevice i h sm))
       ∧ (∃ ms, heap b !! sm = Some (OPlain ms)
                ∧ ms !! service_UUID (service_bag o) = Some s)
       ∧ _path b !! S = Some s
       ∧ heap b !! s = Some (OService (Handle S "org.bluez.GattService1") cm)
     else
       (vdev = true → devices b !! Address (device_bag o) = Some (VStr (at_device o)))
       ∧ if vc then owner_map b characteristics_of S = Some cm else _path b !! S = None)
    ∧ (vs || vc = true →
       ∃ mc, heap b !! cm = Some (OPlain mc)
             ∧ (vc = true → mc !! characteristic_UUID (characteristic_bag o) = Some c))
    ∧ (if vc then
         _path b !! C = Some c
         ∧ heap b !! c
           = Some (OCharacteristic (Handle C "org.bluez.GattCharacteristic1")
                     (Handle C "org.freedesktop.DBus.Properties") dm)
       else if vd then owner_map b descriptors_of C = Some dm else _path b !! C = None)
    ∧ (vc || vd = true →
       ∃ md, heap b !! dm = Some (OPlain md)
             ∧ (vd = true →
                md !! descriptor_UUID (descriptor_bag o) = Some ds
                ∧ heap b !! ds
                  = Some (ODescriptor (Handle (at_descriptor o) "org.bluez.GattDescriptor1"))))
    ∧ (vs = true → sm ≠ cm)
    ∧ (vs = true → vc || vd = true → sm ≠ dm)
    ∧ (vs || vc = true → vc || vd = true → cm ≠ dm).

(** The sample objects as one device. *)
Definition sample_objects : Objects :=
  {| at_device := dev_path; device_bag := dev_props;
     at_service := svc_path; service_bag := svc_props;
     at_characteristic := chr_path; characteristic_bag := chr_props;
     at_descriptor := dsc_path; descriptor_bag := dsc_props |}.

(** ** Children of the right class *)

(** The class of the children an entity holds in its child map: a Device
    holds Services (class 2), a Service or its placeholder Characteristics
    (class 3), a Characteristic or its placeholder Descriptors (class
    4). *)
Definition child_kind (o : obj) : nat :=
  match o with
  | ODevice _ _ _ => 2
  | OService _ _ | OHolderC _ => 3
  | OCharacteristic _ _ _ | OHolderD _ => 4
  | _ => 0
  end.

(** Every entry of a child map is of the class its owner holds, and two
    owners that share a child map hold the same class. *)
Record well_typed (h : gmap loc obj) : Prop := {
  typed_children : ∀ l o f m k x,
    h !! l = Some o → field_of o = Some f → h !! f = Some (OPlain m) → m !! k = Some x →
    ∃ ox, h !! x = Some ox ∧ kind ox = child_kind o;
  typed_roles : ∀ l1 o1 l2 o2 f,
    h !! l1 = Some o1 → h !! l2 = Some o2 →
    field_of o1 = Some f → field_of o2 = Some f →
    child_kind o1 = child_kind o2;
}.

(** What an entity holds in its child map: a Device holds Services, a
    Service or its placeholder Characteristics, a Characteristic or its
    placeholder Descriptors. *)
Definition holds (o ox : obj) : bool :=
  match o, ox with
  | ODevice _ _ _, OService _ _ => true
  | (OService _ _ | OHolderC _), OCharacteristic _ _ _ => true
  | (OCharacteristic _ _ _ | OHolderD _), ODescriptor _ => true
  | _, _ => false
  end.

(** * Proofs *)

(** ** Running sequences *)

Lemma run_bind {A B : Type} (tr : transport) (t : task A) (f : A → task B) (b : Bluez) :
  run tr (t ≫= f) b =
  match run tr t b with
  | (b', inr a) => run tr (f a) b'
  | (b', inl e) => (b', inl e)
  end.
Proof.
  revert b. induction t as [a | e | k IH | b' k IH | p i k IH]; intros b; simpl.
  - reflexivity.
  - reflexivity.
  - apply IH.
  - apply IH.
  - apply IH.
Qed.

Lemma resolve_true (tr : transport) (p i : string) :
  tr p i = true → resolve tr p i = Some (Handle p i).
Proof. intros H. unfold resolve. by rewrite H. Qed.

Lemma resolve_false (tr : transport) (p i : string) :
  tr p i = false → resolve tr p i = None.
Proof. intros H. unfold resolve. by rewrite H. Qed.

(** A location from [fresh] is not in use. *)
Lemma fresh_unused (h : gmap loc obj) : h !! fresh (dom h) = None.
Proof. apply not_elem_of_dom, is_fresh. Qed.

Lemma fresh_unused_insert (h : gmap loc obj) (l : loc) (o : obj) :
  h !! fresh (dom (<[l := o]> h)) = None.
Proof.
  pose proof (fresh_unused (<[l := o]> h)) as H.
  apply lookup_insert_None in H. tauto.
Qed.

Lemma fresh_insert_ne (h : gmap loc obj) (l : loc) (o : obj) :
  fresh (dom (<[l := o]> h)) ≠ l.
Proof.
  pose proof (fresh_unused (<[l := o]> h)) as H.
  apply lookup_insert_None in H. intros E. destruct H as [_ H]. by apply H.
Qed.

(** ** [getDevice] binds the Properties interface under [hci0] *)

Section GetDevice.
Variable tr : transport.

(** [s.replace(/a/g, "b")], character by character. *)
Lemma replace_all_get (x y : Ascii.ascii) (s : string) (n : nat) :
  String.get n (Js.replace_all x y s)
  = (λ c, if Ascii.eqb c x then y else c) <$> String.get n s.
Proof.
  revert n. induction s as [|c s IH]; intros [|n]; simpl; done.
Qed.

(** C10. When [getDevice address] constructs a handle (the entry of the
    address is a path string and both binds succeed), its two transport
    calls are: [Device1] at the registered path, whatever adapter that
    path names, and [Properties] at ["/org/bluez/hci0/dev_"] followed by
    [u], the whole argument with colons turned into underscores: [u] has
    an underscore wherever the argument has a colon, and the character of
    the argument everywhere else.  The new Device object holds these two
    handles and becomes the entry of the address. *)
Theorem getDevice_properties_path (b : Bluez) (address registered : string) :
  devices b !! device_address address = Some (VStr registered) →
  Js.nonempty registered = true →
  tr registered "org.bluez.Device1" = true →
  tr (properties_path address) "org.freedesktop.DBus.Properties" = true →
  ∃ (d m : loc) (u : string),
    let b' := (run tr (getDevice address) b).1 in
    (run tr (getDevice address) b).2 = inr (VObj d)
    ∧ (∀ n, String.get n u
            = (λ c, if Ascii.eqb c ":" then "_"%char else c) <$> String.get n address)
    ∧ calls b' = calls b ++
        [ (registered, "org.bluez.Device1");
          ("/org/bluez/hci0/dev_" +:+ u, "org.freedesktop.DBus.Properties") ]
    ∧ heap b !! d = None
    ∧ heap b' !! d =
        Some (ODevice (Handle registered "org.bluez.Device1")
                      (Handle ("/org/bluez/hci0/dev_" +:+ u)
                              "org.freedesktop.DBus.Properties") m)
    ∧ devices b' !! device_address address = Some (VObj d).
Proof.
  intros Hreg Hne Hdev Hprop.
  unfold getDevice. fold (device_address address).
  fold (properties_path address) in *.
  cbn. unfold js_get. rewrite Hreg, Hne. cbn.
  rewrite (resolve_true _ _ _ Hdev). cbn.
  rewrite (resolve_true _ _ _ Hprop). cbn.
  rewrite Hreg. cbn.
  exists (fresh (dom (<[fresh (dom (heap b)) := OPlain ∅]> (heap b)))),
         (fresh (dom (heap b))), (Js.replace_all ":" "_" address).
  split; [done|]. split; [apply replace_all_get|]. repeat split.
  - by rewrite <- app_assoc.
  - apply fresh_unused_insert.
  - apply lookup_insert_eq.
  - apply lookup_insert_eq.
Qed.
End GetDevice.

(** ** Absent and removed devices *)

Section NotFound.
Variable tr : transport.

Lemma getDevice_absent (b : Bluez) (address : string) :
  js_get (devices b) (device_address address) = None →
  run tr (getDevice address) b = (b, inl (Error "Device not found")).
Proof.
  intros H. unfold getDevice. fold (device_address address).
  cbn. by rewrite H.
Qed.

Lemma adapter_added_run (b : Bluez) (path : string) (props : AdapterProps) :
  run tr (onInterfacesAdded path (adapter_added props)) b
  = (set_adapter_props (Some props) b, inr tt).
Proof. reflexivity. Qed.

Lemma device_added_run (b : Bluez) (path : string) (props : DeviceProps) :
  run tr (onInterfacesAdded path (device_added props)) b
  = (set_events (λ l, l ++ [EvDevice (Address props) props])
       (set_devices (λ d, js_set_str d (Address props) path) b), inr tt).
Proof. reflexivity. Qed.

(** The state [getDevice] leaves when it constructs a handle. *)
Lemma getDevice_created (b : Bluez) (address registered : string) :
  devices b !! device_address address = Some (VStr registered) →
  Js.nonempty registered = true →
  tr registered "org.bluez.Device1" = true →
  tr (properties_path address) "org.freedesktop.DBus.Properties" = true →
  run tr (getDevice address) b
  = ((device_installed b address registered).1,
     inr (VObj (device_installed b address registered).2)).
Proof.
  intros Hreg Hne Hdev Hprop.
  unfold getDevice. fold (device_address address).
  fold (properties_path address) in *.
  cbn. unfold js_get. rewrite Hreg, Hne. cbn.
  rewrite (resolve_true _ _ _ Hdev). cbn.
  rewrite (resolve_true _ _ _ Hprop). cbn.
  rewrite Hreg. reflexivity.
Qed.

Lemma device_removed_run (b : Bluez) (path adapter_ id : string) :
  Js.match_removed path = Some (adapter_, Some id) →
  run tr (onInterfaceRemoved path ["org.bluez.Device1"]) b
  = (set_devices (delete (Js.replace_all "_" ":" id)) b, inr tt).
Proof.
  intros H. unfold onInterfaceRemoved. rewrite H. reflexivity.
Qed.

(** C6. From the state the constructor leaves: after the adapter [hci0]
    and the device with address [AA:BB:CC:DD:EE:FF] were announced,
    [getDevice] of that address returns a Device handle (when the
    transport binds its two interfaces) and [getDevice] of an address
    never announced throws "Device not found"; after the removal of the
    Device interface at the device's path, [getDevice] of the address
    throws "Device not found". *)
Theorem scenario_getDevice_removed (aprops : AdapterProps) (name : string) :
  let path := "/org/bluez/hci0/dev_AA_BB_CC_DD_EE_FF" in
  let props := {| Address := "AA:BB:CC:DD:EE:FF"; Name := name; Connected := false |} in
  tr path "org.bluez.Device1" = true →
  tr path "org.freedesktop.DBus.Properties" = true →
  let b1 := after tr (onInterfacesAdded "/org/bluez/hci0" (adapter_added aprops)) constructor in
  let b2 := after tr (onInterfacesAdded path (device_added props)) b1 in
  let b3 := after tr (getDevice "AA:BB:CC:DD:EE:FF") b2 in
  let b4 := after tr (getDevice "11:22:33:44:55:66") b3 in
  let b5 := after tr (onInterfaceRemoved path ["org.bluez.Device1"]) b4 in
  (∃ d m, outcome tr (getDevice "AA:BB:CC:DD:EE:FF") b2 = inr (VObj d)
          ∧ heap b3 !! d
            = Some (ODevice (Handle path "org.bluez.Device1")
                            (Handle path "org.freedesktop.DBus.Properties") m))
  ∧ outcome tr (getDevice "11:22:33:44:55:66") b3 = inl (Error "Device not found")
  ∧ outcome tr (onInterfaceRemoved path ["org.bluez.Device1"]) b4 = inr tt
  ∧ outcome tr (getDevice "AA:BB:CC:DD:EE:FF") b5 = inl (Error "Device not found").
Proof.
  intros path props Hdev Hprop.
  unfold after, outcome.
  rewrite adapter_added_run, device_added_run. cbn [fst snd].
  set (b2 := set_events _ _).
  assert (Hb2 : devices b2 !! device_address "AA:BB:CC:DD:EE:FF" = Some (VStr path))
    by (vm_compute; reflexivity).
  rewrite (getDevice_created b2 "AA:BB:CC:DD:EE:FF" path Hb2 eq_refl Hdev Hprop).
  cbn [fst snd].
  set (b3 := (device_installed _ _ _).1).
  rewrite (getDevice_absent b3 "11:22:33:44:55:66") by (vm_compute; reflexivity).
  cbn [fst snd].
  rewrite (device_removed_run b3 path "hci0" "AA_BB_CC_DD_EE_FF") by (vm_compute; reflexivity).
  cbn [fst snd].
  rewrite getDevice_absent by (vm_compute; reflexivity).
  cbn [fst snd].
  split; [|done].
  eexists _, _. split; [reflexivity|].
  subst b3. unfold device_installed. cbn [fst snd heap set_devices set_heap].
  apply lookup_insert_eq.
Qed.
End NotFound.

Lemma onInterfacesAdded_blocks (path : string) (interfaces : Interfaces) :
  onInterfacesAdded path interfaces
  = (adapter_block interfaces;; device_block path interfaces;;
     service_block path interfaces;; characteristic_block path interfaces;;
     descriptor_block path interfaces).
Proof. reflexivity. Qed.

(** ** Parts of the state a task leaves alone *)

Section Stable.
Context {A : Type} (f : Bluez → A).

Lemma stable_ret {R : Type} (r : R) : stable f (Ret r).
Proof. by intros tr b. Qed.

Lemma stable_throw {R : Type} (e : exn) : stable f (@Throw R e).
Proof. by intros tr b. Qed.

Lemma stable_bind {R S : Type} (t : task R) (k : R → task S) :
  stable f t → (∀ r, stable f (k r)) → stable f (t ≫= k).
Proof.
  intros Ht Hk tr b. rewrite run_bind.
  specialize (Ht tr b). destruct (run tr t b) as [b' [e | r]]; simpl in *.
  - done.
  - by rewrite Hk.
Qed.

Lemma stable_get {R : Type} (k : Bluez → task R) :
  (∀ b, stable f (k b)) → stable f (Get k).
Proof. intros Hk tr b. simpl. apply Hk. Qed.

Lemma stable_modify (g : Bluez → Bluez) :
  (∀ b, f (g b) = f b) → stable f (modify g).
Proof. intros Hg tr b. simpl. apply Hg. Qed.

Hypothesis f_heap : ∀ g b, f (set_heap g b) = f b.
Hypothesis f_calls : ∀ g b, f (set_calls g b) = f b.

Lemma stable_alloc (o : obj) : stable f (alloc o).
Proof. intros tr b. simpl. apply f_heap. Qed.

Lemma stable_getInterface (p i : string) : stable f (getInterface p i).
Proof.
  intros tr b. simpl. destruct (resolve tr p i); simpl; apply f_calls.
Qed.

Lemma stable_or_empty (field : option loc) : stable f (or_empty field).
Proof. destruct field; [apply stable_ret | apply stable_alloc]. Qed.

Lemma stable_child_set (field : option loc) (k : string) (c : loc) :
  stable f (child_set field k c).
Proof.
  destruct field as [ml|]; [|apply stable_throw].
  intros tr b. simpl.
  destruct (heap b !! ml) as [[]|]; simpl; done.
Qed.
End Stable.

Ltac stable_step :=
  match goal with
  | |- stable _ (Ret _) => apply stable_ret
  | |- stable _ (Throw _) => apply stable_throw
  | |- stable _ skip => apply stable_ret
  | |- stable _ (modify _) => apply stable_modify; intros ?; reflexivity
  | |- stable _ (alloc _) => apply stable_alloc; intros; reflexivity
  | |- stable _ (getInterface _ _) => apply stable_getInterface; intros; reflexivity
  | |- stable _ (or_empty _) => apply stable_or_empty; intros; reflexivity
  | |- stable _ (child_set _ _ _) => apply stable_child_set; intros; reflexivity
  | |- stable _ (_ ≫= _) => apply stable_bind; [|intros ?]
  | |- stable _ (Get _) => apply stable_get; intros ?
  | |- stable _ (match ?x with _ => _ end) => destruct x
  end.

Ltac stable_tac := repeat stable_step.

(** ** The [device] event *)

Section DeviceEvent.
Variable tr : transport.

Lemma getDevice_events (address : string) : stable events (getDevice address).
Proof. unfold getDevice, new_Device. stable_tac. Qed.

Lemma service_block_events (path : string) (interfaces : Interfaces) :
  stable events (service_block path interfaces).
Proof.
  unfold service_block, new_Service. stable_tac. apply getDevice_events.
Qed.

Lemma characteristic_block_events (path : string) (interfaces : Interfaces) :
  stable events (characteristic_block path interfaces).
Proof. unfold characteristic_block, new_Characteristic. stable_tac. Qed.

Lemma descriptor_block_events (path : string) (interfaces : Interfaces) :
  stable events (descriptor_block path interfaces).
Proof. unfold descriptor_block, new_Descriptor. stable_tac. Qed.

Lemma adapter_block_run (interfaces : Interfaces) (b : Bluez) :
  run tr (adapter_block interfaces) b
  = (match Adapter1 interfaces with
     | Some props => set_adapter_props (Some props) b
     | None => b
     end, inr tt).
Proof. unfold adapter_block. by destruct (Adapter1 interfaces). Qed.

Lemma device_block_run (path : string) (interfaces : Interfaces) (b : Bluez) :
  run tr (device_block path interfaces) b
  = (match Device1 interfaces with
     | Some props =>
         set_events (λ l, l ++ [EvDevice (Address props) props])
           (set_devices (λ d, js_set_str d (Address props) path) b)
     | None => b
     end, inr tt).
Proof. unfold device_block. by destruct (Device1 interfaces). Qed.

(** C3, as the code has it.  Every "interfaces added" notification that
    names the Device interface emits the [device] event, with the
    address and the property bag: once per notification, whatever the
    registry already holds for the path or the address. *)
Theorem device_event_per_notification
    (b : Bluez) (path : string) (interfaces : Interfaces) (props : DeviceProps) :
  Device1 interfaces = Some props →
  events (after tr (onInterfacesAdded path interfaces) b)
  = events b ++ [EvDevice (Address props) props].
Proof.
  intros Hdev. unfold after. rewrite onInterfacesAdded_blocks.
  rewrite run_bind, adapter_block_run.
  rewrite run_bind, device_block_run, Hdev.
  assert (Hrest : stable events
            (service_block path interfaces;; characteristic_block path interfaces;;
             descriptor_block path interfaces)).
  { apply stable_bind; [apply service_block_events | intros _].
    apply stable_bind; [apply characteristic_block_events | intros _].
    apply descriptor_block_events. }
  rewrite Hrest. by destruct (Adapter1 interfaces).
Qed.
End DeviceEvent.

(** A string is its characters. *)
Lemma string_by_get (u v : string) :
  (∀ n, String.get n u = String.get n v) → u = v.
Proof. apply String.get_correct. Qed.

(** An address in colon form, registered at a path of the adapter [hci1]:
    the Properties interface is bound under [hci0], at the address with
    its colons turned into underscores. *)
Lemma getDevice_properties_path_witness :
  let b := set_devices (insert "AA:BB" (VStr "/org/bluez/hci1/dev_AA_BB")) constructor in
  devices b !! device_address "AA:BB" = Some (VStr "/org/bluez/hci1/dev_AA_BB")
  ∧ calls (after all_bound (getDevice "AA:BB") b)
    = [ ("/org/bluez/hci1/dev_AA_BB", "org.bluez.Device1");
        ("/org/bluez/hci0/dev_AA_BB", "org.freedesktop.DBus.Properties") ].
Proof.
  intros b.
  assert (H : devices b !! device_address "AA:BB"
              = Some (VStr "/org/bluez/hci1/dev_AA_BB")) by (vm_compute; reflexivity).
  split; [exact H|].
  destruct (getDevice_properties_path all_bound b "AA:BB"
              "/org/bluez/hci1/dev_AA_BB" H eq_refl eq_refl eq_refl)
    as (d & m & u & _ & Hu & Hcalls & _).
  assert (u = "AA_BB") as ->.
  { apply string_by_get. intros n. rewrite Hu.
    do 5 (destruct n as [|n]; [reflexivity|]). reflexivity. }
  exact Hcalls.
Defined.

(** The argument given as a device path: the whole of it follows
    ["/org/bluez/hci0/dev_"]. *)
Lemma getDevice_properties_path_whole :
  let b := set_devices (insert "AA:BB" (VStr "/org/bluez/hci1/dev_AA_BB")) constructor in
  calls (after all_bound (getDevice "/org/bluez/hci1/dev_AA_BB") b)
  = [ ("/org/bluez/hci1/dev_AA_BB", "org.bluez.Device1");
      ("/org/bluez/hci0/dev_/org/bluez/hci1/dev_AA_BB",
       "org.freedesktop.DBus.Properties") ].
Proof. vm_compute. reflexivity. Qed.

Lemma scenario_getDevice_removed_witness :
  all_bound dev_path "org.bluez.Device1" = true
  ∧ outcome all_bound (getDevice "AA:BB:CC:DD:EE:FF")
      (removed all_bound dev_path ["org.bluez.Device1"]
         (after all_bound (getDevice "11:22:33:44:55:66")
            (after all_bound (getDevice "AA:BB:CC:DD:EE:FF")
               (added all_bound dev_path (device_added dev_props)
                  (added all_bound hci0_path (adapter_added hci0_props) constructor)))))
    = inl (Error "Device not found").
Proof.
  split; [reflexivity|].
  apply (scenario_getDevice_removed all_bound hci0_props "Muse-303A" eq_refl eq_refl).
Defined.

(** C3, as stated, fails: the same device notification applied a second
    time, at a path by then registered, fires the event a second time. *)
Lemma device_event_fires_on_refresh :
  let b1 := added all_bound dev_path (device_added dev_props) constructor in
  let b2 := added all_bound dev_path (device_added dev_props) b1 in
  devices b1 !! "AA:BB:CC:DD:EE:FF" = Some (VStr dev_path)
  ∧ events b1 = [EvDevice "AA:BB:CC:DD:EE:FF" dev_props]
  ∧ events b2 = [EvDevice "AA:BB:CC:DD:EE:FF" dev_props;
                 EvDevice "AA:BB:CC:DD:EE:FF" dev_props].
Proof. vm_compute. done. Qed.

Lemma device_event_per_notification_witness :
  Device1 (device_added dev_props) = Some dev_props
  ∧ events (after all_bound (onInterfacesAdded dev_path (device_added dev_props)) constructor)
    = events constructor ++ [EvDevice (Address dev_props) dev_props].
Proof.
  split; [reflexivity|].
  apply (device_event_per_notification all_bound constructor dev_path
           (device_added dev_props) dev_props eq_refl).
Defined.

(** ** [getAdapter] tries the default path *)

Section GetAdapter.
Variable tr : transport.

(** C7, as the code has it.  When [this.adapter] holds nothing for the
    identifier, [getAdapter] binds the Adapter interface at the default
    path [/org/bluez/<identifier>], whether or not the adapter was
    announced: it throws "Adapter not found" when that bind fails, and
    otherwise installs and returns a new handle. *)
Theorem getAdapter_default_path (b : Bluez) (dev : string) :
  adapter b !! adapter_id dev = None →
  Js.inherited (adapter_id dev) = false →
  let path := "/org/bluez/" +:+ adapter_id dev in
  let b' := after tr (getAdapter dev) b in
  calls b' = calls b ++ [(path, "org.bluez.Adapter1")]
  ∧ (tr path "org.bluez.Adapter1" = false →
       outcome tr (getAdapter dev) b = inl (Error "Adapter not found"))
  ∧ (tr path "org.bluez.Adapter1" = true →
       ∃ a, outcome tr (getAdapter dev) b = inr (VObj a)
            ∧ heap b !! a = None
            ∧ heap b' !! a = Some (OAdapter (Handle path "org.bluez.Adapter1"))
            ∧ adapter b' !! adapter_id dev = Some (VObj a)).
Proof.
  intros Hnone Hown path b'. subst b'.
  unfold after, outcome, getAdapter. fold (adapter_id dev). fold path.
  cbn. unfold js_get. rewrite Hnone, Hown. cbn.
  unfold resolve. destruct (tr path "org.bluez.Adapter1"); cbn.
  - split; [done|]. split; [done|]. intros _.
    eexists. split; [reflexivity|]. split; [apply fresh_unused|].
    split; apply lookup_insert_eq.
  - split; [done|]. split; [done|]. done.
Qed.
End GetAdapter.

(** C7, as stated, fails: nothing is registered and no adapter was
    announced, and [getAdapter "hci0"] returns a handle all the same. *)
Lemma getAdapter_never_announced :
  adapter constructor !! "hci0" = None
  ∧ adapter_props constructor = None
  ∧ outcome all_bound (getAdapter "hci0") constructor = inr (VObj 1%positive).
Proof. vm_compute. done. Qed.

Lemma getAdapter_default_path_witness :
  adapter constructor !! adapter_id "hci0" = None
  ∧ Js.inherited (adapter_id "hci0") = false
  ∧ calls (after all_bound (getAdapter "hci0") constructor)
    = [("/org/bluez/hci0", "org.bluez.Adapter1")].
Proof.
  split; [reflexivity|]. split; [reflexivity|].
  apply (getAdapter_default_path all_bound constructor "hci0" eq_refl eq_refl).
Defined.

(** ** Removal *)

Lemma match_removed_group1 (path g1 : string) (g2 : option string) :
  Js.match_removed path = Some (g1, g2) → Js.nonempty g1 = true.
Proof.
  unfold Js.match_removed.
  destruct (Js.strip_prefix "/org/bluez/" path) as [r|]; [|done].
  destruct (Js.span_word r) as [w rest].
  destruct (Js.nonempty w) eqn:Hw; [|done].
  destruct (Js.nonempty rest); [destruct (Js.match_dev_suffix rest)|];
    intros H; by simplify_eq.
Qed.

Section Removed.
Variable tr : transport.

(** C4, as the code has it.  An "interfaces removed" notification never
    touches the path index nor any entity object: no entity is marked, and
    a notification that names neither the Device nor the Adapter interface
    (a removed Service, Characteristic or Descriptor) changes nothing at
    all.  Naming the Device interface at a path [/org/bluez/<a>/dev_<id>]
    deletes the entry of [this.devices] for [<id>] with its underscores
    turned into colons; naming the Adapter interface at a path
    [/org/bluez/<a>] deletes the entry of [this.adapter] for [<a>], when
    the notification does not name the Device interface as well or an
    'error' listener is attached.  Naming the Device interface at such a
    path with no 'error' listener attached ends the handler with the
    error "Removed Device with unknown path" and changes nothing, whatever
    else the notification names. *)
Theorem removal_effect (b : Bluez) (path : string) (interfaces : list string) :
  let b' := removed tr path interfaces b in
  _path b' = _path b
  ∧ heap b' = heap b
  ∧ (has_interface "org.bluez.Device1" interfaces = false →
     has_interface "org.bluez.Adapter1" interfaces = false →
     b' = b ∧ outcome tr (onInterfaceRemoved path interfaces) b = inr tt)
  ∧ (∀ a id, Js.match_removed path = Some (a, Some id) →
     has_interface "org.bluez.Device1" interfaces = true →
     devices b' = delete (Js.replace_all "_" ":" id) (devices b))
  ∧ (∀ a, Js.match_removed path = Some (a, None) →
     has_interface "org.bluez.Adapter1" interfaces = true →
     has_interface "org.bluez.Device1" interfaces = false ∨ listening b = true →
     adapter b' = delete a (adapter b))
  ∧ (∀ a, Js.match_removed path = Some (a, None) →
     has_interface "org.bluez.Device1" interfaces = true →
     listening b = false →
     b' = b
     ∧ outcome tr (onInterfaceRemoved path interfaces) b
       = inl (Error "Removed Device with unknown path")).
Proof.
  unfold removed, after, outcome, onInterfaceRemoved, emit_error.
  pose proof (match_removed_group1 path) as Hg1.
  destruct (has_interface "org.bluez.Device1" interfaces),
           (has_interface "org.bluez.Adapter1" interfaces),
           (Js.match_removed path) as [[g1 [g2|]]|];
    try rewrite (Hg1 _ _ eq_refl); cbn;
    destruct (listening b) eqn:Hl; cbn;
    repeat split; intros; simplify_eq; try done;
    match goal with H : _ ∨ _ |- _ => by destruct H end.
Qed.

(** C5: the Device interface removed at a path that is no device path
    (here the path of a service).  The pattern does not match, [match] is
    [null], and reading [match[2]] throws: no event is emitted, and the
    handler ends with an exception. *)
Theorem removed_device_at_other_path_throws (b : Bluez) :
  run tr (onInterfaceRemoved svc_path ["org.bluez.Device1"]) b = (b, inl TypeError).
Proof.
  unfold onInterfaceRemoved.
  replace (Js.match_removed svc_path) with (@None (string * option string))
    by (vm_compute; reflexivity).
  reflexivity.
Qed.

(** The same for the Adapter interface at a path the pattern rejects. *)
Lemma removed_adapter_at_other_path_throws (b : Bluez) :
  run tr (onInterfaceRemoved "/org/bluez" ["org.bluez.Adapter1"]) b = (b, inl TypeError).
Proof.
  unfold onInterfaceRemoved.
  replace (Js.match_removed "/org/bluez") with (@None (string * option string))
    by (vm_compute; reflexivity).
  reflexivity.
Qed.

(** The only error event a removal can emit is the one of the Device
    branch: the [else] of the Adapter branch needs a matching path with an
    empty first group, which [\w+] rules out. *)
Lemma removed_events (b : Bluez) (path : string) (interfaces : list string) :
  events (removed tr path interfaces b) = events b
  ∨ events (removed tr path interfaces b)
    = events b ++ [EvError "Removed Device with unknown path"].
Proof.
  unfold removed, after, onInterfaceRemoved, emit_error.
  pose proof (match_removed_group1 path) as Hg1.
  destruct (has_interface "org.bluez.Device1" interfaces),
           (has_interface "org.bluez.Adapter1" interfaces),
           (Js.match_removed path) as [[g1 [g2|]]|];
    try rewrite (Hg1 _ _ eq_refl); cbn;
    destruct (listening b); cbn; auto.
Qed.
End Removed.

(** C4, as stated, fails: a registered service whose GattService1
    interface is removed stays in the path index and in the service map of
    its device; the notification changes nothing. *)
Lemma service_survives_removal :
  let b := added all_bound svc_path (service_added svc_props)
             (added all_bound dev_path (device_added dev_props) constructor) in
  let b' := removed all_bound svc_path ["org.bluez.GattService1"] b in
  _path b !! svc_path = Some 2%positive
  ∧ devices b !! "AA:BB:CC:DD:EE:FF" = Some (VObj 4%positive)
  ∧ b' = b
  ∧ _path b' !! svc_path = Some 2%positive
  ∧ heap b' !! 2%positive
    = Some (OService (Handle svc_path "org.bluez.GattService1") 1%positive)
  ∧ getService b' 4%positive (service_UUID svc_props) = Some 2%positive.
Proof. vm_compute. done. Qed.

Lemma removal_effect_witness :
  Js.match_removed dev_path = Some ("hci0", Some "AA_BB_CC_DD_EE_FF")
  ∧ has_interface "org.bluez.Device1" ["org.bluez.Device1"] = true
  ∧ devices (removed all_bound dev_path ["org.bluez.Device1"]
               (added all_bound dev_path (device_added dev_props) constructor))
    = delete "AA:BB:CC:DD:EE:FF"
        (devices (added all_bound dev_path (device_added dev_props) constructor)).
Proof.
  split; [reflexivity|]. split; [reflexivity|].
  pose proof (removal_effect all_bound
                (added all_bound dev_path (device_added dev_props) constructor)
                dev_path ["org.bluez.Device1"]) as (_ & _ & _ & H & _).
  apply (H "hci0" "AA_BB_CC_DD_EE_FF"); reflexivity.
Defined.

(** ** A service announced before its device *)

(** C1: the scenario, evaluated.  The service notification arrives first
    and names a device that is not registered: its handler stops at
    [await this.getDevice(props.Device)], which throws "Device not found",
    before the service is recorded anywhere.  After the device and the
    characteristic notifications the path of the service holds the
    placeholder made for the characteristic, and the handle [getDevice]
    then builds for the device has no service under the UUID.  With the
    device announced first, the same three notifications give the full
    hierarchy. *)
Theorem service_before_device_is_lost :
  let uuid_s := service_UUID svc_props in
  let uuid_c := characteristic_UUID chr_props in
  let b1 := added all_bound svc_path (service_added svc_props) constructor in
  let b2 := added all_bound dev_path (device_added dev_props) b1 in
  let b3 := added all_bound chr_path (characteristic_added chr_props) b2 in
  let b4 := after all_bound (getDevice "AA:BB:CC:DD:EE:FF") b3 in
  let c1 := added all_bound dev_path (device_added dev_props) constructor in
  let c2 := added all_bound svc_path (service_added svc_props) c1 in
  let c3 := added all_bound chr_path (characteristic_added chr_props) c2 in
  (outcome all_bound (onInterfacesAdded svc_path (service_added svc_props)) constructor
     = inl (Error "Device not found")
   ∧ _path b1 = ∅ ∧ devices b1 = ∅
   ∧ devices b3 !! "AA:BB:CC:DD:EE:FF" = Some (VStr dev_path)
   ∧ _path b3 !! svc_path = Some 6%positive
   ∧ heap b3 !! 6%positive = Some (OHolderC 5%positive)
   ∧ getCharacteristic b3 6%positive uuid_c = Some 4%positive
   ∧ outcome all_bound (getDevice "AA:BB:CC:DD:EE:FF") b3 = inr (VObj 8%positive)
   ∧ getService b4 8%positive uuid_s = None)
  ∧ (devices c3 !! "AA:BB:CC:DD:EE:FF" = Some (VObj 4%positive)
     ∧ getService c3 4%positive uuid_s = Some 2%positive
     ∧ _path c3 !! svc_path = Some 2%positive
     ∧ getCharacteristic c3 2%positive uuid_c = Some 6%positive).
Proof. vm_compute. done. Qed.

(** ** Concurrent calls *)

Lemma single_call_run {R : Type} (tr : transport) (t : task R) (b : Bluez) :
  rtc (step tr) (call t (b, [])) ((run tr t b).1, [settle (run tr t b).2]).
Proof.
  revert b. induction t as [r | e | k IH | b' k IH | p i k IH]; intros b.
  - apply rtc_refl.
  - apply rtc_refl.
  - apply (IH b b).
  - apply (IH b').
  - unfold call. simpl.
    destruct (advance (k (resolve tr p i)) (set_calls (λ l, l ++ [(p, i)]) b))
      as [b1 t1] eqn:Hadv.
    eapply rtc_l.
    + apply (step_resume tr _ b1 [Await p i k] 0 p i k t1); [done | exact Hadv].
    + specialize (IH (resolve tr p i) (set_calls (λ l, l ++ [(p, i)]) b)).
      unfold call in IH. simpl in IH. rewrite Hadv in IH. exact IH.
Qed.

(** What a suspended call comes to when it is resumed until it ends. *)
Lemma advance_run {R : Type} (tr : transport) (t : task R) (b : Bluez)
    (pre post : list (task R)) :
  rtc (step tr) ((advance t b).1, pre ++ (advance t b).2 :: post)
                ((run tr t b).1, pre ++ settle (run tr t b).2 :: post).
Proof.
  revert b. induction t as [r | e | k IH | b' k IH | p i k IH]; intros b.
  - apply rtc_refl.
  - apply rtc_refl.
  - apply (IH b b).
  - apply (IH b').
  - simpl. eapply rtc_l; [|apply IH].
    destruct (advance (k (resolve tr p i)) (set_calls (λ l, l ++ [(p, i)]) b))
      as [b1 t1] eqn:Hadv.
    simpl.
    replace (pre ++ t1 :: post)
      with (<[length pre := t1]> (pre ++ Await p i k :: post))
      by (rewrite insert_app_r_alt by lia; by rewrite Nat.sub_diag).
    eapply step_resume; [apply list_lookup_middle; done | exact Hadv].
Qed.

Lemma drain_steps {R : Type} (tr : transport) (t : task R) (b : Bluez)
    (pre post : list (task R)) :
  settled t = true ∨ (∃ p i k, t = Await p i k) →
  rtc (step tr) (b, pre ++ t :: post)
                ((drain tr t b).1, pre ++ settle (drain tr t b).2 :: post).
Proof.
  intros [Hs | (p & i & k & ->)].
  - destruct t; try done; apply rtc_refl.
  - simpl. eapply rtc_l; [|apply advance_run].
    destruct (advance (k (resolve tr p i)) b) as [b1 t1] eqn:Hadv.
    simpl.
    replace (pre ++ t1 :: post)
      with (<[length pre := t1]> (pre ++ Await p i k :: post))
      by (rewrite insert_app_r_alt by lia; by rewrite Nat.sub_diag).
    eapply step_resume; [apply list_lookup_middle; done | exact Hadv].
Qed.

Lemma advance_shape {R : Type} (t : task R) (b : Bluez) :
  settled (advance t b).2 = true ∨ (∃ p i k, (advance t b).2 = Await p i k).
Proof.
  revert b. induction t as [r | e | k IH | b' k IH | p i k IH]; intros b; simpl; eauto.
Qed.

Lemma settled_settle {R : Type} (r : exn + R) : settled (settle r) = true.
Proof. by destruct r. Qed.

(** Two calls in flight always come to an end. *)
Lemma two_calls_terminate {R : Type} (tr : transport) (t u : task R) (b : Bluez) :
  ∃ c', rtc (step tr) (call u (call t (b, []))) c' ∧ quiescent c'.
Proof.
  unfold call. simpl.
  destruct (advance t b) as [b1 t1] eqn:Ht. simpl.
  destruct (advance u b1) as [b2 u1] eqn:Hu. simpl.
  pose proof (advance_shape t b) as St. rewrite Ht in St.
  pose proof (advance_shape u b1) as Su. rewrite Hu in Su. simpl in St, Su.
  pose proof (drain_steps tr t1 b2 [] [u1] St) as H1. simpl in H1.
  pose proof (drain_steps tr u1 (drain tr t1 b2).1 [settle (drain tr t1 b2).2] [] Su) as H2.
  simpl in H2.
  eexists. split; [etrans; [exact H1 | exact H2]|].
  unfold quiescent. simpl. by rewrite !settled_settle.
Qed.

Lemma step_pair {R : Type} (tr : transport) (b : Bluez) (t0 t1 : task R) (c' : config R) :
  step tr (b, [t0; t1]) c' →
  (∃ p i k, t0 = Await p i k
            ∧ c' = ((advance (k (resolve tr p i)) b).1,
                    [(advance (k (resolve tr p i)) b).2; t1]))
  ∨ (∃ p i k, t1 = Await p i k
              ∧ c' = ((advance (k (resolve tr p i)) b).1,
                      [t0; (advance (k (resolve tr p i)) b).2])).
Proof.
  inversion 1 as [b0 b' ts n p i k t' Hn Hadv]; subst.
  destruct n as [|[|n]]; simpl in Hn; simplify_eq.
  - left. exists p, i, k. by rewrite Hadv.
  - right. exists p, i, k. by rewrite Hadv.
Qed.

Section Race.
Variable tr : transport.
Variables (b : Bluez) (address registered : string).
Hypothesis Hreg : devices b !! device_address address = Some (VStr registered).
Hypothesis Hne : Js.nonempty registered = true.
Hypothesis Hdev : tr registered "org.bluez.Device1" = true.
Hypothesis Hprop : tr (properties_path address) "org.freedesktop.DBus.Properties" = true.

Ltac race_end Hq :=
  first
    [ by (unfold quiescent in Hq; cbn in Hq)
    | eexists; cbn; rewrite ?lookup_insert_eq, <- ?app_assoc;
      split_and!; [ reflexivity | reflexivity | apply fresh_unused_insert
                  | eexists; reflexivity | reflexivity ] ].

Ltac race H Hq :=
  let c := fresh "c" in
  let Hs := fresh "Hs" in
  apply rtc_inv in H as [<- | (c & Hs & H)];
  [ race_end Hq
  | apply step_pair in Hs as [(? & ? & ? & ? & ->) | (? & ? & ? & ? & ->)];
    simplify_eq;
    rewrite ?(resolve_true _ _ _ Hdev), ?(resolve_true _ _ _ Hprop) in H;
    cbn in H; unfold js_get in H; cbn in H;
    rewrite ?Hreg, ?lookup_insert_eq in H; cbn in H;
    race H Hq ].

(** However the awaits of the two calls interleave. *)
Lemma getDevice_race (c' : config value) :
  rtc (step tr) (call (getDevice address) (call (getDevice address) (b, []))) c' →
  quiescent c' →
  ∃ d : loc,
    c'.2 = [Ret (VObj d); Ret (VObj d)]
    ∧ calls c'.1 = calls b ++
        [ (registered, "org.bluez.Device1"); (registered, "org.bluez.Device1");
          (properties_path address, "org.freedesktop.DBus.Properties");
          (properties_path address, "org.freedesktop.DBus.Properties") ]
    ∧ heap b !! d = None
    ∧ (∃ m, heap c'.1 !! d
            = Some (ODevice (Handle registered "org.bluez.Device1")
                      (Handle (properties_path address)
                              "org.freedesktop.DBus.Properties") m))
    ∧ devices c'.1 !! device_address address = Some (VObj d).
Proof.
  unfold call, getDevice. fold (device_address address). fold (properties_path address).
  cbn. unfold js_get. rewrite Hreg, Hne. cbn.
  rewrite Hreg, Hne. cbn.
  intros Hrtc Hq.
  race Hrtc Hq.
Qed.

(** C8, as the code has it.  Two [getDevice] calls for one address, made
    while the address is registered as a path and no handle exists: the
    calls come to an end, and however their awaits interleave, each call
    issues its own two binds (four transport calls, two of them of
    [Device1] at the registered path) and both return the same handle
    instance, the one installed for the address. *)
Theorem concurrent_getDevice :
  let c0 := call (getDevice address) (call (getDevice address) (b, [])) in
  (∃ c', rtc (step tr) c0 c' ∧ quiescent c')
  ∧ ∀ c', rtc (step tr) c0 c' → quiescent c' →
      ∃ d : loc,
        c'.2 = [Ret (VObj d); Ret (VObj d)]
        ∧ calls c'.1 = calls b ++
            [ (registered, "org.bluez.Device1"); (registered, "org.bluez.Device1");
              (properties_path address, "org.freedesktop.DBus.Properties");
              (properties_path address, "org.freedesktop.DBus.Properties") ]
        ∧ heap b !! d = None
        ∧ (∃ m, heap c'.1 !! d
                = Some (ODevice (Handle registered "org.bluez.Device1")
                          (Handle (properties_path address)
                                  "org.freedesktop.DBus.Properties") m))
        ∧ devices c'.1 !! device_address address = Some (VObj d).
Proof.
  intros c0. split; [apply two_calls_terminate | apply getDevice_race].
Qed.
End Race.

(** C8, as stated, fails: the device is registered, no handle exists, and
    two [getDevice] calls for its address are in flight.  Both have issued
    their [Device1] bind before either is resumed, and the run to the end
    has made four transport calls. *)
Lemma concurrent_getDevice_binds_twice :
  let b := added all_bound dev_path (device_added dev_props) constructor in
  let c0 := call (getDevice "AA:BB:CC:DD:EE:FF")
              (call (getDevice "AA:BB:CC:DD:EE:FF") (b, [])) in
  calls c0.1 = [(dev_path, "org.bluez.Device1"); (dev_path, "org.bluez.Device1")]
  ∧ ∃ c', rtc (step all_bound) c0 c' ∧ quiescent c'
          ∧ calls c'.1
            = [ (dev_path, "org.bluez.Device1"); (dev_path, "org.bluez.Device1");
                (dev_path, "org.freedesktop.DBus.Properties");
                (dev_path, "org.freedesktop.DBus.Properties") ].
Proof.
  intros b c0. split; [vm_compute; reflexivity|].
  destruct (two_calls_terminate all_bound (getDevice "AA:BB:CC:DD:EE:FF")
              (getDevice "AA:BB:CC:DD:EE:FF") b) as (c' & Hrun & Hq).
  exists c'. split; [exact Hrun|]. split; [exact Hq|].
  assert (Hreg : devices b !! device_address "AA:BB:CC:DD:EE:FF" = Some (VStr dev_path))
    by (vm_compute; reflexivity).
  destruct (getDevice_race all_bound b "AA:BB:CC:DD:EE:FF" dev_path
              Hreg eq_refl eq_refl eq_refl c' Hrun Hq) as (d & _ & Hcalls & _).
  exact Hcalls.
Qed.

Lemma concurrent_getDevice_witness :
  let b := added all_bound dev_path (device_added dev_props) constructor in
  devices b !! device_address "AA:BB:CC:DD:EE:FF" = Some (VStr dev_path)
  ∧ ∃ c', rtc (step all_bound)
            (call (getDevice "AA:BB:CC:DD:EE:FF")
               (call (getDevice "AA:BB:CC:DD:EE:FF") (b, []))) c'
          ∧ quiescent c'.
Proof.
  intros b.
  assert (Hreg : devices b !! device_address "AA:BB:CC:DD:EE:FF" = Some (VStr dev_path))
    by (vm_compute; reflexivity).
  split; [exact Hreg|].
  apply (concurrent_getDevice all_bound b "AA:BB:CC:DD:EE:FF" dev_path
           Hreg eq_refl eq_refl eq_refl).
Defined.


(** ** The registry up to the identity of objects *)

Section Similar.
Variables (h2 h1 : gmap loc obj) (R : loc → loc → Prop).
Hypothesis HR : ∀ l2 l1, R l2 l1 → option_Forall2 (similar_obj R) (h2 !! l2) (h1 !! l1).

Lemma view_similar (n : nat) (l2 l1 : loc) : R l2 l1 → view n h2 l2 = view n h1 l1.
Proof.
  revert l2 l1. induction n as [|n IH]; intros l2 l1 Hl; [done|].
  simpl. destruct (HR _ _ Hl) as [o2 o1 Ho|]; [|done].
  destruct o2, o1; simpl in Ho; try done; destruct_and?; simplify_eq; f_equal; auto.
  apply map_eq. intros k. rewrite !lookup_fmap.
  destruct (Ho k); simpl; f_equal; auto.
Qed.
End Similar.

(** ** Stepping through a handler *)

Section Stepping.
Variable tr : transport.

Lemma run_alloc (o : obj) (b : Bluez) :
  run tr (alloc o) b
  = (set_heap (insert (fresh (dom (heap b))) o) b, inr (fresh (dom (heap b)))).
Proof. reflexivity. Qed.

Lemma run_modify (f : Bluez → Bluez) (b : Bluez) :
  run tr (modify f) b = (f b, inr tt).
Proof. reflexivity. Qed.

Lemma run_getInterface (p i : string) (b : Bluez) :
  run tr (getInterface p i) b
  = (set_calls (λ l, l ++ [(p, i)]) b,
     if tr p i then inr (Handle p i) else inl (Rejected p i)).
Proof. simpl. unfold resolve. by destruct (tr p i). Qed.

Lemma run_child_set (ml : loc) (m : gmap string loc) (k : string) (c : loc) (b : Bluez) :
  heap b !! ml = Some (OPlain m) →
  run tr (child_set (Some ml) k c) b
  = (set_heap (insert ml (OPlain (<[k := c]> m))) b, inr tt).
Proof. intros H. simpl. by rewrite H. Qed.
End Stepping.

(** ** Well-formedness is kept by the updates of the handlers *)

Lemma wf_heap_insert (h : gmap loc obj) (l : loc) (o : obj) :
  wf_heap h →
  (∀ o0, h !! l = Some o0 → kind o0 = kind o) →
  obj_ok (<[l := o]> h) o →
  wf_heap (<[l := o]> h).
Proof.
  intros [Hf Hc] Hk [Of Oc].
  assert (Hplain : ∀ f, plain h f → plain (<[l := o]> h) f).
  { intros f [m Hm]. destruct (decide (l = f)) as [->|Hne].
    - specialize (Hk _ Hm). destruct o; try done. eexists. apply lookup_insert_eq.
    - exists m. by rewrite lookup_insert_ne. }
  assert (Hsome : ∀ x, is_Some (h !! x) → is_Some (<[l := o]> h !! x)).
  { intros x Hx. rewrite lookup_insert_is_Some'. by right. }
  split.
  - intros l' o' f Hl' Hfo. destruct (decide (l = l')) as [->|Hne].
    + rewrite lookup_insert_eq in Hl'. simplify_eq. by apply Of.
    + rewrite lookup_insert_ne in Hl' by done. eapply Hplain, Hf; eauto.
  - intros l' m k x Hl' Hx. destruct (decide (l = l')) as [->|Hne].
    + rewrite lookup_insert_eq in Hl'. simplify_eq. by eapply Oc.
    + rewrite lookup_insert_ne in Hl' by done. eapply Hsome, Hc; eauto.
Qed.

Lemma wf_set_heap (b : Bluez) (l : loc) (o : obj) :
  wf b →
  (∀ o0, heap b !! l = Some o0 → kind o0 = kind o) →
  obj_ok (<[l := o]> (heap b)) o →
  wf (set_heap (insert l o) b).
Proof.
  intros [Hh Hp Hd Ha] Hk Ho. split; simpl.
  - by apply wf_heap_insert.
  - intros k x Hx. rewrite lookup_insert_is_Some'. right. eauto.
  - intros k d Hkd. destruct (Hd _ _ Hkd) as (i & c & m & Hdm).
    destruct (decide (l = d)) as [->|Hne].
    + specialize (Hk _ Hdm). destruct o; try done. rewrite lookup_insert_eq. eauto.
    + rewrite lookup_insert_ne by done. eauto.
  - intros k a Hka. rewrite lookup_insert_is_Some'. right. eauto.
Qed.

Lemma wf_set_calls (b : Bluez) f : wf b → wf (set_calls f b).
Proof. by intros []. Qed.

Lemma wf_set_events (b : Bluez) f : wf b → wf (set_events f b).
Proof. by intros []. Qed.

Lemma wf_set_adapter_props (b : Bluez) p : wf b → wf (set_adapter_props p b).
Proof. by intros []. Qed.

Lemma wf_set_path (b : Bluez) (k : string) (l : loc) :
  wf b → is_Some (heap b !! l) → wf (set_path (insert k l) b).
Proof.
  intros [Hh Hp Hd Ha] Hl. split; simpl; try done.
  intros k' l' H. destruct (decide (k = k')) as [->|Hne].
  - rewrite lookup_insert_eq in H. by simplify_eq.
  - rewrite lookup_insert_ne in H by done. eauto.
Qed.

Lemma wf_set_devices_obj (b : Bluez) (k : string) (d : loc) i c m :
  wf b → heap b !! d = Some (ODevice i c m) → wf (set_devices (insert k (VObj d)) b).
Proof.
  intros [Hh Hp Hd Ha] Hl. split; simpl; try done.
  intros k' l' H. destruct (decide (k = k')) as [->|Hne].
  - rewrite lookup_insert_eq in H. simplify_eq. eauto.
  - rewrite lookup_insert_ne in H by done. eauto.
Qed.

Lemma wf_set_devices_str (b : Bluez) (k s : string) :
  wf b → wf (set_devices (λ d, js_set_str d k s) b).
Proof.
  intros [Hh Hp Hd Ha]. split; simpl; try done.
  intros k' l' H. unfold js_set_str in H. destruct (String.eqb k "__proto__"); [eauto|].
  destruct (decide (k = k')) as [->|Hne].
  - by rewrite lookup_insert_eq in H.
  - rewrite lookup_insert_ne in H by done. eauto.
Qed.

Lemma wf_constructor : wf constructor.
Proof.
  split; [split|..]; simpl; intros *; rewrite lookup_empty; done.
Qed.

(** ** Symbolic execution of a handler *)

Ltac name_fresh :=
  match goal with
  | |- context [fresh (dom ?h)] =>
      let l := fresh "l" in
      let H := fresh "Hl" in
      pose proof (fresh_unused h) as H;
      set (l := fresh (dom h)) in *; clearbody l;
      repeat (apply lookup_insert_None in H as [H ?])
  end.

Ltac norm :=
  cbn [adapter adapter_props devices _path heap events calls
       set_adapter set_adapter_props set_devices set_path set_heap set_events set_calls
       fst snd].

Ltac step :=
  first
    [ rewrite run_bind
    | rewrite run_alloc; norm; name_fresh
    | rewrite run_modify; norm
    | rewrite run_getInterface; norm
    | progress cbn [run skip]; norm ].

Ltac lk :=
  norm;
  repeat first [ rewrite lookup_insert_eq
               | rewrite lookup_insert_ne by (done || congruence) ].

Ltac some_lk :=
  norm; rewrite ?lookup_insert_is_Some'; eauto 10.

Lemma descriptors_field (o : obj) (m : loc) : descriptors_of o = Some m → field_of o = Some m.
Proof. destruct o; simpl; congruence. Qed.
Lemma characteristics_field (o : obj) (m : loc) : characteristics_of o = Some m → field_of o = Some m.
Proof. destruct o; simpl; congruence. Qed.
Lemma services_field (o : obj) (m : loc) : services_of o = Some m → field_of o = Some m.
Proof. destruct o; simpl; congruence. Qed.

Lemma obj_ok_empty (h : gmap loc obj) : obj_ok h (OPlain ∅).
Proof. split; [done|]. intros m k x [= <-]. by rewrite lookup_empty. Qed.

Lemma obj_ok_leaf (h : gmap loc obj) (o : obj) :
  field_of o = None → kind o ≠ 7 → obj_ok h o.
Proof. intros Hf Hk. split; [congruence|]. intros m k x ->. done. Qed.

Lemma obj_ok_field (h : gmap loc obj) (o : obj) (f : loc) :
  field_of o = Some f → kind o ≠ 7 → plain h f → obj_ok h o.
Proof.
  intros Hf Hk Hp. split; [congruence|]. intros m k x ->. done.
Qed.

Lemma obj_ok_child (h : gmap loc obj) (m : gmap string loc) (k : string) (x : loc) :
  (∀ k' x', m !! k' = Some x' → is_Some (h !! x')) →
  is_Some (h !! x) →
  obj_ok h (OPlain (<[k := x]> m)).
Proof.
  intros Hm Hx. split; [done|]. intros m' k' x' [= <-] H.
  destruct (decide (k = k')) as [->|Hne].
  - rewrite lookup_insert_eq in H. by simplify_eq.
  - rewrite lookup_insert_ne in H by done. eauto.
Qed.

Ltac ok_tac :=
  lazymatch goal with
  | |- obj_ok _ (OPlain ∅) => apply obj_ok_empty
  | |- obj_ok _ (OPlain (<[_ := _]> _)) =>
      apply obj_ok_child;
      [ let Hk := fresh in
        intros ?? Hk; first [by rewrite lookup_empty in Hk | some_lk]
      | some_lk ]
  | |- obj_ok _ (ODescriptor _) => apply obj_ok_leaf; [reflexivity | done]
  | |- obj_ok _ (OAdapter _) => apply obj_ok_leaf; [reflexivity | done]
  | |- obj_ok _ _ =>
      eapply obj_ok_field;
      [ solve [reflexivity | eauto]
      | solve [done | eauto]
      | eexists; lk; first [reflexivity | eassumption] ]
  end.

Ltac wf_tac :=
  lazymatch goal with
  | |- wf (set_calls _ _) => apply wf_set_calls; wf_tac
  | |- wf (set_events _ _) => apply wf_set_events; wf_tac
  | |- wf (set_adapter_props _ _) => apply wf_set_adapter_props; wf_tac
  | |- wf (set_path (insert _ _) _) => apply wf_set_path; [wf_tac | some_lk]
  | |- wf (set_heap (insert _ _) _) =>
      apply wf_set_heap;
      [ wf_tac
      | let o0 := fresh in let H := fresh in
        intros o0; lk; intros H; first [congruence | by simplify_eq | eauto]
      | norm; ok_tac ]
  | |- wf (set_devices (insert _ (VObj _)) _) =>
      eapply wf_set_devices_obj; [wf_tac | lk; reflexivity]
  | |- wf (set_devices _ _) => apply wf_set_devices_str; wf_tac
  | |- wf _ => assumption
  end.

Section Parts.
Variable tr : transport.

Lemma take_over_spec (s : sort) (st : Bluez) (path : string) (self m0 : loc) :
  wf st →
  heap st !! self = Some (mk s m0) →
  ∃ st' m,
    run tr (take_over (field s) (mk s) path self) st = (st', inr tt)
    ∧ wf st'
    ∧ adapter st' = adapter st ∧ adapter_props st' = adapter_props st
    ∧ devices st' = devices st ∧ _path st' = _path st
    ∧ heap st' !! self = Some (mk s m)
    ∧ (∀ m1, owner_map st (field s) path = Some m1 → m = m1)
    ∧ (_path st !! path = None → m = m0 ∨ heap st !! m = None)
    ∧ (∀ x o, heap st !! x = Some o → x ≠ self → heap st' !! x = Some o).
Proof.
  intros Hwf Hself. unfold take_over, owner_map, member, path_truthy. cbn [run].
  pose proof (sort_field_of s) as Hfo. pose proof (sort_kind s) as Hk.
  pose proof (sort_not_plain s) as Hnp.
  assert (Hfm : ∀ m, field_of (mk s m) = Some m) by (intros; apply Hfo, sort_field).
  destruct (_path st !! path) as [p|] eqn:HP; [|destruct (Js.inherited path)].
  - destruct (wf_path _ Hwf _ _ HP) as [o Ho]. rewrite Ho.
    destruct (field s o) as [m|] eqn:Hm.
    + destruct (wf_field _ (wf_objects _ Hwf) _ _ _ Ho (Hfo _ _ Hm)) as [mm Hmm].
      unfold or_empty. repeat step.
      eexists _, m. split; [reflexivity|]. norm. split.
      { apply wf_set_heap; [done| |].
        - intros o0 Ho0. rewrite Hself in Ho0. simplify_eq. apply Hk.
        - eapply obj_ok_field; [apply Hfm | apply Hnp |].
          exists mm. rewrite lookup_insert_ne; [done|].
          intros E. rewrite E, Hmm in Hself. injection Hself as Hs.
          specialize (Hnp m0). by rewrite <- Hs in Hnp. }
      split_and!; try done; [by lk | congruence |].
      intros x o' Hx ?. by lk.
    + cbn [or_empty]. repeat step.
      eexists _, l. split; [reflexivity|]. norm. split.
      { apply wf_set_heap.
        - wf_tac.
        - intros o0. lk. intros Ho0. rewrite Hself in Ho0. simplify_eq. apply Hk.
        - norm. eapply obj_ok_field; [apply Hfm | apply Hnp |].
          eexists. rewrite lookup_insert_ne by congruence. apply lookup_insert_eq. }
      split_and!; try done; [by lk |].
      intros x o' Hx ?. by lk.
  - cbn [or_empty]. repeat step.
    eexists _, l. split; [reflexivity|]. norm. split.
    { apply wf_set_heap.
      - wf_tac.
      - intros o0. lk. intros Ho0. rewrite Hself in Ho0. simplify_eq. apply Hk.
      - norm. eapply obj_ok_field; [apply Hfm | apply Hnp |].
        eexists. rewrite lookup_insert_ne by congruence. apply lookup_insert_eq. }
    split_and!; try done; [by lk | by right |].
    intros x o' Hx ?. by lk.
  - repeat step. eexists _, m0. split; [reflexivity|].
    split_and!; try done. by left.
Qed.

Lemma run_assoc {A B C : Type} (a : task A) (f : A → task B) (k : B → task C) (st : Bluez) :
  run tr (a ≫= λ x, f x ≫= k) st = run tr ((a ≫= f) ≫= k) st.
Proof.
  rewrite !run_bind. destruct (run tr a st) as [st' [e|x]]; [done|].
  by rewrite run_bind.
Qed.

Lemma attach_spec (s : sort) (st : Bluez) (owner uuid : string) (child : loc) :
  wf st →
  is_Some (heap st !! child) →
  ∃ st' r,
    run tr (make_holder (mk s) owner ≫= λ _, attach_child (field s) owner uuid child) st
    = (st', r)
    ∧ wf st'
    ∧ adapter st' = adapter st ∧ adapter_props st' = adapter_props st
    ∧ devices st' = devices st
    ∧ ((path_truthy st owner = true ∧ owner_map st (field s) owner = None
        ∧ r = inl TypeError ∧ st' = st)
       ∨ (r = inr tt
          ∧ ∃ cm m,
              owner_map st' (field s) owner = Some cm
              ∧ heap st' !! cm = Some (OPlain (<[uuid := child]> m))
              ∧ ((owner_map st (field s) owner = Some cm
                  ∧ heap st !! cm = Some (OPlain m) ∧ _path st' = _path st)
                 ∨ (_path st !! owner = None ∧ heap st !! cm = None ∧ m = ∅
                    ∧ ∃ h, heap st !! h = None ∧ h ≠ cm
                           ∧ heap st' !! h = Some (mk s cm)
                           ∧ _path st' = <[owner := h]> (_path st)))
              ∧ (∀ x o, heap st !! x = Some o → x ≠ cm → heap st' !! x = Some o)
              ∧ (_path st !! owner = None → Js.inherited owner = false))).
Proof.
  intros Hwf [oc Hchild]. unfold make_holder, attach_child, owner_map, path_truthy.
  pose proof (sort_field_of s) as Hfo. pose proof (sort_kind s) as Hk.
  pose proof (sort_not_plain s) as Hnp. pose proof (sort_field s) as Hfs.
  assert (Hfm : ∀ m, field_of (mk s m) = Some m) by (intros; apply Hfo, sort_field).
  repeat step.
  destruct (_path st !! owner) as [p|] eqn:HP; [|destruct (Js.inherited owner) eqn:Hin].
  - repeat step. rewrite HP. unfold member.
    destruct (wf_path _ Hwf _ _ HP) as [o Ho]. rewrite Ho.
    destruct (field s o) as [cm|] eqn:Hcm.
    + destruct (wf_field _ (wf_objects _ Hwf) _ _ _ Ho (Hfo _ _ Hcm)) as [m Hm].
      assert (p ≠ cm).
      { intros E. rewrite E, Hm in Ho. injection Ho as <-. by apply Hfo in Hcm. }
      erewrite run_child_set by exact Hm.
      eexists _, _. split; [reflexivity|]. norm. split.
      { pose proof (λ k x, wf_child _ (wf_objects _ Hwf) _ _ k x Hm). wf_tac. }
      split_and!; try done. right. split; [done|].
      exists cm, m. rewrite HP. lk. rewrite Ho.
      split_and!; try done; [by left|].
      intros x o' Hx ?. by lk.
    + cbn [child_set run].
      eexists _, _. split; [reflexivity|]. split; [done|].
      split_and!; try done. left. eauto.
  - repeat step. rewrite HP. cbn [member child_set run].
    eexists _, _. split; [reflexivity|]. split; [done|].
    split_and!; try done. by left.
  - repeat step. lk. unfold member. lk. rewrite Hfs.
    erewrite run_child_set by (lk; reflexivity).
    eexists _, _. split; [reflexivity|]. norm. split.
    { apply wf_set_heap.
      - apply wf_set_path; [|some_lk].
        apply wf_set_heap; [wf_tac | intros o0; lk; congruence |].
        norm. eapply obj_ok_field; [apply Hfm | apply Hnp | eexists; lk; reflexivity].
      - intros o0. lk. intros; by simplify_eq.
      - norm. apply obj_ok_child; [intros ?? Hx; by rewrite lookup_empty in Hx|].
        rewrite !lookup_insert_is_Some'. eauto 10. }
    split_and!; try done. right. split; [done|].
    exists l, ∅. lk. rewrite Hfs.
    split_and!; try done.
    + right. split_and!; try done. exists l0. lk. done.
    + intros x o' Hx ?. by lk.
Qed.
End Parts.

Lemma path_truthy_false (b : Bluez) (k : string) :
  path_truthy b k = false ↔ _path b !! k = None ∧ Js.inherited k = false.
Proof.
  unfold path_truthy. destruct (_path b !! k); [|tauto].
  split; [done | by intros []].
Qed.

Lemma path_truthy_same (b b' : Bluez) (k : string) :
  _path b' = _path b → path_truthy b' k = path_truthy b k.
Proof. unfold path_truthy. by intros ->. Qed.

Lemma owner_map_extends (b b' : Bluez) (f : obj → option loc) (k : string) :
  wf b → _path b' = _path b → extends b b' → owner_map b' f k = owner_map b f k.
Proof.
  intros Hwf Hp He. unfold owner_map, member. rewrite Hp.
  destruct (_path b !! k) as [p|] eqn:Hk; [|done].
  destruct (wf_path _ Hwf _ _ Hk) as [o Ho]. by rewrite Ho, (He _ _ Ho).
Qed.

Lemma extends_fresh (b b' : Bluez) (x : loc) :
  extends b b' → heap b' !! x = None → heap b !! x = None.
Proof.
  intros He Hx. destruct (heap b !! x) as [o|] eqn:Ho; [|done].
  by rewrite (He _ _ Ho) in Hx.
Qed.

Lemma owner_map_plain (b : Bluez) (f : obj → option loc) (k : string) (cm : loc) :
  wf b → (∀ o m, f o = Some m → field_of o = Some m) →
  owner_map b f k = Some cm → plain (heap b) cm.
Proof.
  intros Hwf Hf. unfold owner_map, member.
  destruct (_path b !! k) as [p|]; [|done].
  destruct (heap b !! p) as [o|] eqn:Ho; [|done].
  intros Hcm. eapply wf_field; [apply Hwf | exact Ho | by apply Hf].
Qed.

Lemma owner_map_insert_ne (b : Bluez) (f : obj → option loc) (k k' : string) (l : loc) :
  k' ≠ k → owner_map (set_path (insert k' l) b) f k = owner_map b f k.
Proof. intros Hne. unfold owner_map, member. norm. by rewrite lookup_insert_ne. Qed.

Section Specs.
Variable tr : transport.

Lemma run_skip_r (t : task unit) (b : Bluez) : run tr (t;; skip) b = run tr t b.
Proof. rewrite run_bind. by destruct (run tr t b) as [b' [e|[]]]. Qed.

Lemma characteristic_added_run (P : string) (props : CharacteristicProps) (b : Bluez) :
  run tr (onInterfacesAdded P (characteristic_added props)) b
  = run tr
      (iface ← getInterface P "org.bluez.GattCharacteristic1";
       changed ← getInterface P "org.freedesktop.DBus.Properties";
       characteristic ← new_Characteristic iface changed;
       take_over descriptors_of (OCharacteristic iface changed) P characteristic;;
       make_holder OHolderC (characteristic_Service props);;
       attach_child characteristics_of (characteristic_Service props)
         (characteristic_UUID props) characteristic;;
       modify (set_path (insert P characteristic))) b.
Proof.
  transitivity (run tr (characteristic_block P (characteristic_added props);; skip) b);
    [reflexivity|].
  by rewrite run_skip_r.
Qed.

Lemma descriptor_added_run (P : string) (props : DescriptorProps) (b : Bluez) :
  run tr (onInterfacesAdded P (descriptor_added props)) b
  = run tr
      (iface ← getInterface P "org.bluez.GattDescriptor1";
       descriptor ← new_Descriptor iface;
       make_holder OHolderD (descriptor_Characteristic props);;
       attach_child descriptors_of (descriptor_Characteristic props)
         (descriptor_UUID props) descriptor) b.
Proof. reflexivity. Qed.

Lemma service_added_run (P : string) (props : ServiceProps) (b : Bluez) :
  run tr (onInterfacesAdded P (service_added props)) b
  = run tr
      (iface ← getInterface P "org.bluez.GattService1";
       service ← new_Service iface;
       dev ← getDevice (service_Device props);
       take_over characteristics_of (OService iface) P service;;
       Get (λ b,
         child_set (member b services_of (ref_of dev)) (service_UUID props) service);;
       modify (set_path (insert P service))) b.
Proof.
  transitivity (run tr (service_block P (service_added props);; (skip;; skip)) b);
    [reflexivity|].
  rewrite run_bind.
  transitivity (run tr (service_block P (service_added props)) b); [|reflexivity].
  by destruct (run tr _ b) as [b' [e|[]]].
Qed.

Lemma characteristic_spec (b : Bluez) (P : string) (props : CharacteristicProps) :
  wf b →
  characteristic_post tr b P props
    (added tr P (characteristic_added props) b)
    (outcome tr (onInterfacesAdded P (characteristic_added props)) b).
Proof.
  intros Hwf. unfold added, after, outcome.
  rewrite characteristic_added_run.
  set (S := characteristic_Service props). set (u := characteristic_UUID props).
  unfold new_Characteristic.
  repeat step.
  destruct (tr P "org.bluez.GattCharacteristic1") eqn:Ht; cycle 1.
  { unfold characteristic_post, characteristic_ready. cbv zeta. norm.
    split; [wf_tac|]. split_and!; try done.
    left. split; [intros [? _]; congruence|]. split; [unfold failed; eauto|]. split; [done|]. by intros ???. }
  repeat step.
  destruct (tr P "org.freedesktop.DBus.Properties") eqn:Ht'; cycle 1.
  { unfold characteristic_post, characteristic_ready. cbv zeta. norm.
    split; [wf_tac|]. split_and!; try done.
    left. split; [intros (? & ? & _); congruence|]. split; [unfold failed; eauto|]. split; [done|]. by intros ???. }
  repeat step.
  set (hC := Handle P "org.bluez.GattCharacteristic1").
  set (hP := Handle P "org.freedesktop.DBus.Properties").
  set (st0 := set_heap <[l0 := _]> _).
  assert (Hwf0 : wf st0) by (subst st0; wf_tac).
  assert (Hc0 : heap st0 !! l0 = Some (OCharacteristic hC hP l)) by (subst st0; by lk).
  assert (He0 : extends b st0) by (subst st0; intros x o Hx; by lk).
  assert (Hr0 : same_roots b st0) by done.
  clearbody st0.
  destruct (take_over_spec tr (characteristic_sort hC hP) st0 P l0 l Hwf0 Hc0)
    as (st1 & dm & Hrun & Hwf1 & Had1 & Hap1 & Hdev1 & Hp1 & Hc1 & Hdm1 & _ & He1).
  cbn [field mk characteristic_sort] in Hrun, Hc1, Hdm1.
  rewrite Hrun. cbn [fst snd]. clear Hrun.
  destruct Hr0 as (Had0 & Hap0 & Hdev0 & Hp0).
  assert (Hext1 : extends b st1).
  { intros x o Hx. apply He1; [by apply He0 | congruence]. }
  assert (Hown1 : ∀ f k, owner_map st1 f k = owner_map b f k).
  { intros f k. apply owner_map_extends; [done | congruence | done]. }
  assert (Hown0 : ∀ f k, owner_map st0 f k = owner_map b f k).
  { intros f k. by apply owner_map_extends. }
  rewrite run_assoc, run_bind.
  destruct (attach_spec tr holderC_sort st1 S u l0 Hwf1 (mk_is_Some _ _ Hc1))
    as (st2 & r & Hrun & Hwf2 & Had2 & Hap2 & Hdev2 & Hcase).
  cbn [field mk holderC_sort] in Hrun, Hcase.
  rewrite Hrun. clear Hrun.
  unfold characteristic_post, characteristic_ready. cbv zeta. fold S u.
  destruct Hcase as [(HpS & Hnone & -> & ->)
                    | (-> & cm & m & Hown & Hcm & Hcases & Hframe & Hinh)].
  - norm. split; [done|]. split_and!; try congruence. left.
    split_and!; [|unfold failed; eauto|congruence|done].
    intros (_ & _ & [HS|HS]).
    + rewrite (path_truthy_same b st1) in HpS by congruence. congruence.
    + rewrite <- Hown1, Hnone in HS. by destruct HS.
  - repeat step.
    assert (Hne : l0 ≠ cm).
    { intros ->. destruct Hcases as [(_ & Hx & _)|(_ & Hx & _)]; congruence. }
    split.
    { apply wf_set_path; [done|]. rewrite (Hframe _ _ Hc1) by done. eauto. }
    norm. split_and!; try congruence. right.
    assert (Hready : path_truthy b S = false
                     ∨ is_Some (owner_map b characteristics_of S)).
    { destruct Hcases as [(Ho & _)|(Hx & _)].
      - right. rewrite <- Hown1, Ho. eauto.
      - left. apply path_truthy_false. split; [congruence | by apply Hinh]. }
    split_and!; try done.
    exists l0, cm, m, dm. split_and!; try done.
    + by apply Hframe.
    + intros dm0 Hdm0. apply Hdm1. by rewrite Hown0.
    + intros HPS. by rewrite owner_map_insert_ne.
    + destruct Hcases as [(Ho & Hx & _)|(_ & Hx & -> & _)].
      * left. rewrite Hown1 in Ho.
        destruct (owner_map_plain _ _ _ _ Hwf characteristics_field Ho) as [m' Hm'].
        rewrite (Hext1 _ _ Hm') in Hx. by simplify_eq.
      * right. split; [|done]. by eapply extends_fresh.
    + intros HS. destruct Hcases as [(Ho & _)|(_ & Hx & _)].
      * rewrite Hown1 in Ho. unfold owner_map in Ho. by rewrite HS in Ho.
      * by eapply extends_fresh.
    + intros cm0 Hcm0. destruct Hcases as [(Ho & _)|(Hx & _)].
      * rewrite Hown1 in Ho. congruence.
      * rewrite Hp1, Hp0 in Hx. unfold owner_map in Hcm0. by rewrite Hx in Hcm0.
    + by lk.
    + intros k HkP HkS. lk.
      destruct Hcases as [(_ & _ & ->)|(_ & _ & _ & h & _ & _ & _ & ->)]; lk; congruence.
    + intros HPS x Hx. lk.
      destruct Hcases as [(_ & _ & ->)|(Hn & _)]; [congruence|].
      rewrite Hp1, Hp0 in Hn. congruence.
    + intros x o Hx Hxc. norm. apply Hframe; [by apply Hext1 | done].
Qed.

Lemma descriptor_spec (b : Bluez) (P : string) (props : DescriptorProps) :
  wf b →
  descriptor_post tr b P props
    (added tr P (descriptor_added props) b)
    (outcome tr (onInterfacesAdded P (descriptor_added props)) b).
Proof.
  intros Hwf. unfold added, after, outcome.
  rewrite descriptor_added_run.
  set (X := descriptor_Characteristic props). set (u := descriptor_UUID props).
  unfold new_Descriptor.
  repeat step.
  destruct (tr P "org.bluez.GattDescriptor1") eqn:Ht; cycle 1.
  { unfold descriptor_post, descriptor_ready. cbv zeta. norm.
    split; [wf_tac|]. split_and!; try done.
    left. split; [intros [? _]; congruence|]. split; [unfold failed; eauto|].
    split; [done|]. by intros ???. }
  repeat step.
  set (hD := Handle P "org.bluez.GattDescriptor1").
  set (st0 := set_heap <[l := _]> _).
  assert (Hwf0 : wf st0) by (subst st0; wf_tac).
  assert (Hd0 : heap st0 !! l = Some (ODescriptor hD)) by (subst st0; by lk).
  assert (He0 : extends b st0) by (subst st0; intros x o Hx; by lk).
  assert (Hr0 : same_roots b st0) by done.
  clearbody st0. destruct Hr0 as (Had0 & Hap0 & Hdev0 & Hp0).
  assert (Hown0 : ∀ f k, owner_map st0 f k = owner_map b f k).
  { intros f k. by apply owner_map_extends. }
  rewrite <- run_bind.
  destruct (attach_spec tr holderD_sort st0 X u l Hwf0 (mk_is_Some _ _ Hd0))
    as (st2 & r & Hrun & Hwf2 & Had2 & Hap2 & Hdev2 & Hcase).
  cbn [field mk holderD_sort] in Hrun, Hcase.
  rewrite Hrun. clear Hrun.
  unfold descriptor_post, descriptor_ready. cbv zeta. fold X u.
  destruct Hcase as [(HpS & Hnone & -> & ->)
                    | (-> & dm & m & Hown & Hdm & Hcases & Hframe & Hinh)].
  - norm. split; [done|]. split_and!; try congruence. left.
    split_and!; [|unfold failed; eauto|congruence|done].
    intros (_ & [HS|HS]).
    + rewrite (path_truthy_same b st0) in HpS by congruence. congruence.
    + rewrite <- Hown0, Hnone in HS. by destruct HS.
  - assert (Hne : l ≠ dm).
    { intros ->. destruct Hcases as [(_ & Hx & _)|(_ & Hx & _)]; congruence. }
    norm. split; [done|]. split_and!; try congruence. right.
    assert (Hready : path_truthy b X = false
                     ∨ is_Some (owner_map b descriptors_of X)).
    { destruct Hcases as [(Ho & _)|(Hx & _)].
      - right. rewrite <- Hown0, Ho. eauto.
      - left. apply path_truthy_false. split; [congruence | by apply Hinh]. }
    split_and!; try done.
    exists l, dm, m. split_and!; try done.
    + by apply Hframe.
    + destruct Hcases as [(Ho & Hx & _)|(_ & Hx & -> & _)].
      * left. rewrite Hown0 in Ho.
        destruct (owner_map_plain _ _ _ _ Hwf descriptors_field Ho) as [m' Hm'].
        rewrite (He0 _ _ Hm') in Hx. by simplify_eq.
      * right. split; [|done]. by eapply extends_fresh.
    + intros dm0 Hdm0. destruct Hcases as [(Ho & _)|(Hx & _)].
      * rewrite Hown0 in Ho. congruence.
      * rewrite Hp0 in Hx. unfold owner_map in Hdm0. by rewrite Hx in Hdm0.
    + intros k HkX.
      destruct Hcases as [(_ & _ & ->)|(_ & _ & _ & h & _ & _ & _ & ->)]; lk; congruence.
    + intros x Hx.
      destruct Hcases as [(_ & _ & ->)|(Hn & _)]; congruence.
    + intros x o Hx Hxc. apply Hframe; [by apply He0 | done].
Qed.

Lemma getDevice_spec (st : Bluez) (a : string) :
  wf st →
  let key := device_address a in
  ∃ st' r,
    run tr (getDevice a) st = (st', r)
    ∧ wf st'
    ∧ adapter st' = adapter st ∧ adapter_props st' = adapter_props st
    ∧ _path st' = _path st
    ∧ ((¬ device_ready tr st a ∧ (failed r ∨ ∃ n, r = inr (VProto n))
        ∧ devices st' = devices st ∧ heap st' = heap st)
       ∨ (device_ready tr st a
          ∧ ∃ d i c sm ms,
              r = inr (VObj d)
              ∧ devices st' = <[key := VObj d]> (devices st)
              ∧ heap st' !! d = Some (ODevice i c sm)
              ∧ heap st' !! sm = Some (OPlain ms)
              ∧ ((devices st !! key = Some (VObj d) ∧ heap st' = heap st)
                 ∨ (heap st !! d = None ∧ heap st !! sm = None ∧ ms = ∅
                    ∧ (∃ registered, devices st !! key = Some (VStr registered))
                    ∧ extends st st')))).
Proof.
  intros Hwf key. unfold device_ready. fold key.
  destruct (js_get (devices st) key) as [[reg|d|n]|] eqn:Hget.
  - assert (Hreg : devices st !! key = Some (VStr reg)).
    { unfold js_get in Hget. destruct (devices st !! key); [congruence|].
      by destruct (Js.inherited key). }
    destruct (Js.nonempty reg) eqn:Hne; cycle 1.
    { unfold getDevice. fold (device_address a). fold key. cbn [run]. rewrite Hget, Hne.
      eexists _, _. split; [reflexivity|]. split; [done|]. split_and!; try done.
      left. split_and!; try done; [by intros (? & _) | left; unfold failed; eauto]. }
    destruct (tr reg "org.bluez.Device1") eqn:Hd; cycle 1.
    { unfold getDevice. fold (device_address a). fold key. cbn [run]. rewrite Hget, Hne.
      rewrite run_bind, run_getInterface, Hd.
      eexists _, _. split; [reflexivity|]. split; [wf_tac|]. split_and!; try done.
      left. split_and!; try done; [intros (? & ? & _); congruence | left; unfold failed; eauto]. }
    destruct (tr (properties_path a) "org.freedesktop.DBus.Properties") eqn:Hp; cycle 1.
    { unfold getDevice. fold (device_address a). fold key. fold (properties_path a). cbn [run]. rewrite Hget, Hne.
      rewrite run_bind, run_getInterface, Hd. norm.
      rewrite run_bind, run_getInterface, Hp.
      eexists _, _. split; [reflexivity|]. split; [wf_tac|]. split_and!; try done.
      left. split_and!; try done; [intros (? & ? & ?); congruence | left; unfold failed; eauto]. }
    rewrite (getDevice_created tr st a reg Hreg Hne Hd Hp).
    unfold device_installed. norm. repeat name_fresh.
    eexists _, _. split; [reflexivity|]. norm. split; [wf_tac|]. split_and!; try done.
    right. split; [done|].
    eexists l, _, _, l0, ∅. fold key. lk. split_and!; try done.
    right. split_and!; try done; [eauto|]. intros x o Hx. by lk.
  - assert (Hd : devices st !! key = Some (VObj d)).
    { unfold js_get in Hget. destruct (devices st !! key); [congruence|].
      by destruct (Js.inherited key). }
    destruct (wf_devices _ Hwf _ _ Hd) as (i & c & sm & Hdo).
    destruct (wf_field _ (wf_objects _ Hwf) _ _ _ Hdo eq_refl) as [ms Hms].
    unfold getDevice. fold (device_address a). fold key. cbn [run]. rewrite Hget.
    eexists _, _. split; [reflexivity|]. split; [done|]. split_and!; try done.
    right. split; [done|]. exists d, i, c, sm, ms. split_and!; try done.
    + by rewrite insert_id.
    + by left.
  - unfold getDevice. fold (device_address a). fold key. cbn [run]. rewrite Hget.
    eexists _, _. split; [reflexivity|]. split; [done|]. split_and!; try done.
    left. split; [by intros []|]. split; [right; eauto | done].
  - unfold getDevice. fold (device_address a). fold key. cbn [run]. rewrite Hget.
    eexists _, _. split; [reflexivity|]. split; [done|]. split_and!; try done.
    left. split; [by intros []|]. split; [left; unfold failed; eauto | done].
Qed.

Lemma device_ready_same (b st : Bluez) (a : string) :
  devices st = devices b → device_ready tr st a ↔ device_ready tr b a.
Proof. intros H. unfold device_ready. by rewrite H. Qed.

Lemma service_spec (b : Bluez) (P : string) (props : ServiceProps) :
  wf b →
  service_post tr b P props
    (added tr P (service_added props) b)
    (outcome tr (onInterfacesAdded P (service_added props)) b).
Proof.
  intros Hwf. unfold added, after, outcome.
  rewrite service_added_run.
  set (D := service_Device props). set (U := service_UUID props).
  unfold new_Service.
  repeat step.
  destruct (tr P "org.bluez.GattService1") eqn:Ht; cycle 1.
  { unfold service_post, service_ready. cbv zeta. norm.
    split; [wf_tac|]. split_and!; try done.
    left. split; [intros [? _]; congruence|]. split; [unfold failed; eauto|].
    split_and!; try done. by intros ???. }
  repeat step.
  set (hS := Handle P "org.bluez.GattService1").
  set (st0 := set_heap <[l0 := _]> _).
  assert (Hwf0 : wf st0) by (subst st0; wf_tac).
  assert (Hs0 : heap st0 !! l0 = Some (OService hS l)) by (subst st0; by lk).
  assert (Hm0 : heap st0 !! l = Some (OPlain ∅)) by (subst st0; by lk).
  assert (He0 : extends b st0) by (subst st0; intros x o Hx; by lk).
  assert (Hr0 : same_roots b st0) by done.
  clearbody st0. destruct Hr0 as (Had0 & Hap0 & Hdev0 & Hp0).
  destruct (getDevice_spec st0 D Hwf0)
    as (st1 & r & Hrun & Hwf1 & Had1 & Hap1 & Hp1 & Hcase).
  rewrite Hrun. clear Hrun.
  unfold service_post, service_ready. cbv zeta. fold D U.
  assert (Hready : device_ready tr st0 D ↔ device_ready tr b D)
    by by apply device_ready_same.
  destruct Hcase as [(Hnr & Hr & Hdev1 & Hh1)
                    | (Hrd & d & i & c & sm & ms & -> & Hdev1 & Hd1 & Hsm1 & Hcases)].
  - assert (He1 : extends b st1) by (intros x o Hx; rewrite Hh1; by apply He0).
    assert (Hs1 : heap st1 !! l0 = Some (OService hS l)) by by rewrite Hh1.
    destruct Hr as [[e ->] | [n ->]].
    + norm. split; [done|]. split_and!; try congruence. left.
      split_and!; try congruence; [tauto | unfold failed; eauto | done].
    + destruct (take_over_spec tr (service_sort hS) st1 P l0 l Hwf1 Hs1)
        as (st2 & cm & Hrun & Hwf2 & Had2 & Hap2 & Hdev2 & Hp2 & Hs2 & Hcm2 & _ & He2).
      cbn [field mk service_sort] in Hrun, Hs2, Hcm2.
      rewrite run_bind, Hrun. clear Hrun. repeat step. cbn [ref_of member child_set run].
      norm. split; [done|]. split_and!; try congruence. left.
      split_and!; try congruence; [tauto | unfold failed; eauto |].
      intros x o Hx. apply He2; [by apply He1 | congruence].
  - assert (He1 : extends b st1).
    { intros x o Hx. destruct Hcases as [(_ & ->) | (_ & _ & _ & _ & He)];
        [|apply He]; by apply He0. }
    assert (Hs1 : heap st1 !! l0 = Some (OService hS l)).
    { destruct Hcases as [(_ & ->) | (_ & _ & _ & _ & He)]; [done | by apply He]. }
    destruct (take_over_spec tr (service_sort hS) st1 P l0 l Hwf1 Hs1)
      as (st2 & cm & Hrun & Hwf2 & Had2 & Hap2 & Hdev2 & Hp2 & Hs2 & Hcm2 & Hnew2 & He2).
    cbn [field mk service_sort] in Hrun, Hs2, Hcm2.
    rewrite run_bind, Hrun. clear Hrun. repeat step. cbn [ref_of]. unfold member.
    assert (d ≠ l0) by congruence. assert (sm ≠ l0) by congruence.
    assert (d ≠ sm) by congruence.
    rewrite (He2 _ _ Hd1) by done. cbn [services_of].
    erewrite run_child_set by (by apply He2). repeat step.
    split.
    { apply wf_set_path; [|some_lk].
      apply wf_set_heap; [done | intros o0; rewrite (He2 _ _ Hsm1) by done; intros; by simplify_eq |].
      apply obj_ok_child; [|some_lk].
      intros k x Hk. rewrite lookup_insert_is_Some'. right.
      eapply wf_child; [apply Hwf2 | by apply He2 | exact Hk]. }
    norm. split_and!; try congruence. right.
    split_and!; try done; [tauto|].
    exists l0, d, sm, ms, cm, i, c. split_and!; try done.
    + by lk.
    + intros cm0 Hcm0. apply Hcm2.
      rewrite (owner_map_extends b st1); [done | done | congruence | done].
    + intros HP. rewrite <- Hp0, <- Hp1 in HP.
      destruct (Hnew2 HP) as [-> | Hfresh];
        [|split; [by apply (extends_fresh b st1) | congruence]].
      split; [done|]. intros E.
      destruct Hcases as [(Hk & Hh) | (_ & Hsmn & _)].
      * rewrite Hdev0 in Hk. destruct (wf_devices _ Hwf _ _ Hk) as (i' & c' & sm' & Hd').
        pose proof (He1 _ _ Hd') as Hd''. rewrite Hd1 in Hd''. simplify_eq.
        destruct (wf_field _ (wf_objects _ Hwf) _ _ _ Hd' eq_refl) as [ms' Hms']. congruence.
      * congruence.
    + congruence.
    + lk. by apply He2.
    + by lk.
    + destruct Hcases as [(Hk & Hh) | (Hdn & Hsmn & -> & [reg Hreg] & He)].
      * left. rewrite Hdev0 in Hk. split; [done|].
        destruct (wf_devices _ Hwf _ _ Hk) as (i' & c' & sm' & Hd').
        pose proof (He1 _ _ Hd') as Hd''. rewrite Hd1 in Hd''. simplify_eq.
        split; [done|].
        destruct (wf_field _ (wf_objects _ Hwf) _ _ _ Hd' eq_refl) as [ms' Hms'].
        pose proof (He1 _ _ Hms') as Hms''. rewrite Hsm1 in Hms''. by simplify_eq.
      * right. split_and!; try done;
          [by apply (extends_fresh b st0) | by apply (extends_fresh b st0)|].
        exists reg. congruence.
    + congruence.
    + intros x o Hx Hxs. lk. apply He2; [by apply He1 | congruence].
Qed.
End Specs.


Section Views.
Variables (h1 h2 : gmap loc obj).
Hypothesis Hwf : wf_heap h1.

Lemma similar_refl (R : loc → loc → Prop) (o : obj) (l : loc) :
  h1 !! l = Some o →
  (∀ x, is_Some (h1 !! x) → R x x) →
  similar_obj R o o.
Proof.
  intros Hl HR.
  assert (Hf : ∀ f, field_of o = Some f → R f f).
  { intros f Hfo. apply HR. destruct (wf_field _ Hwf _ _ _ Hl Hfo) as [m Hm]. eauto. }
  destruct o; simpl; try done; try (split_and?; try done; by apply Hf).
  intros k. destruct (m !! k) as [x|] eqn:Hx; constructor.
  apply HR. eapply wf_child; eauto.
Qed.

Lemma view_extends (n : nat) :
  (∀ x o, h1 !! x = Some o → h2 !! x = Some o) →
  ∀ l, is_Some (h1 !! l) → view n h2 l = view n h1 l.
Proof.
  intros He l Hl.
  apply (view_similar h2 h1 (λ l2 l1, l2 = l1 ∧ is_Some (h1 !! l1))); [|done].
  intros l2 l1 [-> [o Ho]]. rewrite Ho, (He _ _ Ho). constructor.
  eapply similar_refl; [exact Ho | by intros]. 
Qed.

Lemma view_copy (ml x1 x2 : loc) (k : string) (m1 : gmap string loc) (o : obj) :
  (∀ x o, h1 !! x = Some o → x ≠ ml → h2 !! x = Some o) →
  h1 !! ml = Some (OPlain m1) →
  m1 !! k = Some x1 →
  h2 !! ml = Some (OPlain (<[k := x2]> m1)) →
  h1 !! x1 = Some o →
  h2 !! x2 = Some o →
  ∀ n, (∀ l, is_Some (h1 !! l) → view n h2 l = view n h1 l)
       ∧ view n h2 x2 = view n h1 x1.
Proof.
  intros He Hml Hk Hml2 Hx1 Hx2 n.
  set (R := λ l2 l1 : loc, (l2 = l1 ∧ is_Some (h1 !! l1)) ∨ (l2 = x2 ∧ l1 = x1)).
  assert (HR : ∀ l2 l1, R l2 l1 → option_Forall2 (similar_obj R) (h2 !! l2) (h1 !! l1)).
  { intros l2 l1 [[-> [o' Ho']] | [-> ->]].
    - destruct (decide (l1 = ml)) as [->|Hne].
      + rewrite Hml, Hml2. constructor. simpl. intros k'.
        destruct (decide (k = k')) as [<-|Hk'].
        * rewrite lookup_insert_eq, Hk. constructor. by right.
        * rewrite lookup_insert_ne by done.
          destruct (m1 !! k') as [x|] eqn:Hx; constructor.
          left. split; [done|]. eapply wf_child; eauto.
      + rewrite Ho', (He _ _ Ho' Hne). constructor.
        eapply similar_refl; [exact Ho'|]. intros x Hx. by left.
    - rewrite Hx1, Hx2. constructor.
      eapply similar_refl; [exact Hx1|]. intros x Hx. by left. }
  split.
  - intros l Hl. apply (view_similar h2 h1 R HR). by left.
  - apply (view_similar h2 h1 R HR). by right.
Qed.
End Views.

Lemma registry_related (n : nat) (b1 b2 : Bluez) :
  wf b1 →
  (∀ l, is_Some (heap b1 !! l) → view n (heap b2) l = view n (heap b1) l) →
  adapter b2 = adapter b1 → adapter_props b2 = adapter_props b1 →
  devices b2 = devices b1 →
  (∀ k, option_Forall2 (λ l2 l1, view n (heap b2) l2 = view n (heap b1) l1)
          (_path b2 !! k) (_path b1 !! k)) →
  registry n b2 = registry n b1.
Proof.
  intros Hwf Hv Ha Hap Hd Hp. unfold registry. rewrite Ha, Hap, Hd. f_equal.
  - apply map_eq. intros k. rewrite !lookup_fmap.
    destruct (adapter b1 !! k) as [[s|a|p]|] eqn:Hk; simpl; try done.
    do 2 f_equal. apply Hv. eapply wf_adapter; eauto.
  - apply map_eq. intros k. rewrite !lookup_fmap.
    destruct (devices b1 !! k) as [[s|d|p]|] eqn:Hk; simpl; try done.
    do 2 f_equal. apply Hv. destruct (wf_devices _ Hwf _ _ Hk) as (? & ? & ? & ->). eauto.
  - apply map_eq. intros k. rewrite !lookup_fmap.
    destruct (Hp k); simpl; congruence.
Qed.

Lemma registry_extends (n : nat) (b1 b2 : Bluez) :
  wf b1 →
  adapter b2 = adapter b1 → adapter_props b2 = adapter_props b1 →
  devices b2 = devices b1 → _path b2 = _path b1 →
  extends b1 b2 →
  registry n b2 = registry n b1.
Proof.
  intros Hwf Ha Hap Hd Hp He.
  assert (Hv : ∀ l, is_Some (heap b1 !! l) → view n (heap b2) l = view n (heap b1) l).
  { apply view_extends; [apply Hwf | exact He]. }
  apply registry_related; try done.
  intros k. rewrite Hp. destruct (_path b1 !! k) as [l|] eqn:Hk; constructor.
  apply Hv. eapply wf_path; eauto.
Qed.

(** ** A notification delivered twice *)

Section Twice.
Variable tr : transport.
Variable n : nat.

Lemma descriptor_twice (b : Bluez) (P : string) (props : DescriptorProps) :
  wf b →
  registry n (added tr P (descriptor_added props) (added tr P (descriptor_added props) b))
  = registry n (added tr P (descriptor_added props) b).
Proof.
  intros Hwf.
  pose proof (descriptor_spec tr b P props Hwf) as H1.
  set (b1 := added tr P (descriptor_added props) b) in *.
  set (r1 := outcome tr _ b) in *. clearbody b1 r1.
  destruct H1 as (Hwf1 & Ha1 & Hap1 & Hd1 & H1).
  pose proof (descriptor_spec tr b1 P props Hwf1) as H2.
  set (b2 := added tr P (descriptor_added props) b1) in *.
  set (r2 := outcome tr _ b1) in *. clearbody b2 r2.
  destruct H2 as (Hwf2 & Ha2 & Hap2 & Hd2 & H2).
  set (X := descriptor_Characteristic props) in *.
  set (u := descriptor_UUID props) in *.
  destruct H2 as [(_ & _ & Hp2 & He2)
                 | (Hr2 & _ & d2 & dm2 & m2 & Hd2n & Hd2o & Ho2 & Hdm2 & Hm2 & Hu2 & Hk2 & HX2 & He2)].
  { by apply registry_extends. }
  destruct H1 as [(Hnr1 & _ & Hp1 & He1)
                 | (Hr1 & _ & d1 & dm1 & m1 & Hd1n & Hd1o & Ho1 & Hdm1 & Hm1 & Hu1 & Hk1 & HX1 & He1)].
  { exfalso. apply Hnr1. destruct Hr2 as [Ht Hr2]. split; [done|].
    fold X in Hr2 |- *. rewrite (path_truthy_same b b1 X Hp1) in Hr2.
    by rewrite (owner_map_extends b b1) in Hr2. }
  pose proof (Hu2 _ Ho1) as ->.
  assert (m2 = <[u := d1]> m1) as ->.
  { destruct Hm2 as [Hm2 | [Hm2 _]]; congruence. }
  destruct (view_copy (heap b1) (heap b2) (wf_objects _ Hwf1) dm1 d1 d2 u _ _
              He2 Hdm1 (lookup_insert_eq _ _ _) Hdm2 Hd1o Hd2o n) as [Hv Hvd].
  apply registry_related; try done.
  intros k. destruct (decide (k = X)) as [->|Hne].
  - unfold owner_map, member in Ho1.
    destruct (_path b1 !! X) as [l|] eqn:HX; [|done].
    rewrite (HX2 _ eq_refl). constructor. apply Hv. eapply wf_path; eauto.
  - rewrite (Hk2 _ Hne). destruct (_path b1 !! k) as [l|] eqn:Hk; constructor.
    apply Hv. eapply wf_path; eauto.
Qed.

Lemma characteristic_twice (b : Bluez) (P : string) (props : CharacteristicProps) :
  wf b →
  registry n (added tr P (characteristic_added props)
                (added tr P (characteristic_added props) b))
  = registry n (added tr P (characteristic_added props) b).
Proof.
  intros Hwf.
  pose proof (characteristic_spec tr b P props Hwf) as H1.
  set (b1 := added tr P (characteristic_added props) b) in *.
  set (r1 := outcome tr _ b) in *. clearbody b1 r1.
  destruct H1 as (Hwf1 & Ha1 & Hap1 & Hd1 & H1).
  pose proof (characteristic_spec tr b1 P props Hwf1) as H2.
  set (b2 := added tr P (characteristic_added props) b1) in *.
  set (r2 := outcome tr _ b1) in *. clearbody b2 r2.
  destruct H2 as (Hwf2 & Ha2 & Hap2 & Hd2 & H2).
  set (S := characteristic_Service props) in *.
  set (u := characteristic_UUID props) in *.
  destruct H2 as [(_ & _ & Hp2 & He2)
                 | (Hr2 & _ & c2 & cm2 & m2 & dm2 & Hc2n & Hc2o & Hdm2 & Ho2 & Hcm2 & Hm2
                    & _ & Hu2 & HP2 & Hk2 & HS2 & He2)].
  { by apply registry_extends. }
  destruct H1 as [(Hnr1 & _ & Hp1 & He1)
                 | (Hr1 & _ & c1 & cm1 & m1 & dm1 & Hc1n & Hc1o & Hdm1 & Ho1 & Hcm1 & Hm1
                    & _ & Hu1 & HP1 & Hk1 & HS1 & He1)].
  { exfalso. apply Hnr1. destruct Hr2 as (Ht & Ht' & Hr2). split_and!; try done.
    fold S in Hr2 |- *. rewrite (path_truthy_same b b1 S Hp1) in Hr2.
    by rewrite (owner_map_extends b b1) in Hr2. }
  assert (HPS : P ≠ S).
  { intros E. destruct Hr2 as (_ & _ & [Hr2 | Hr2]); fold S in Hr2.
    - apply path_truthy_false in Hr2 as [Hr2 _]. rewrite <- E in Hr2. congruence.
    - unfold owner_map, member in Hr2. rewrite <- E, HP1, Hc1o in Hr2. by destruct Hr2. }
  pose proof (Hu2 _ (Ho1 HPS)) as ->.
  assert (m2 = <[u := c1]> m1) as ->.
  { destruct Hm2 as [Hm2 | [Hm2 _]]; congruence. }
  assert (dm2 = dm1) as ->.
  { apply Hdm2. unfold owner_map, member. by rewrite HP1, Hc1o. }
  destruct (view_copy (heap b1) (heap b2) (wf_objects _ Hwf1) cm1 c1 c2 u _ _
              He2 Hcm1 (lookup_insert_eq _ _ _) Hcm2 Hc1o Hc2o n) as [Hv Hvc].
  apply registry_related; try done.
  intros k. destruct (decide (k = P)) as [->|HkP].
  - rewrite HP1, HP2. by constructor.
  - destruct (decide (k = S)) as [->|HkS].
    + specialize (Ho1 HPS). unfold owner_map, member in Ho1.
      destruct (_path b1 !! S) as [l|] eqn:HS; [|done].
      rewrite (HS2 HPS _ eq_refl). constructor. apply Hv. eapply wf_path; eauto.
    + rewrite (Hk2 _ HkP HkS). destruct (_path b1 !! k) as [l|] eqn:Hk; constructor.
      apply Hv. eapply wf_path; eauto.
Qed.

Lemma service_twice (b : Bluez) (P : string) (props : ServiceProps) :
  wf b →
  registry n (added tr P (service_added props) (added tr P (service_added props) b))
  = registry n (added tr P (service_added props) b).
Proof.
  intros Hwf.
  pose proof (service_spec tr b P props Hwf) as H1.
  set (b1 := added tr P (service_added props) b) in *.
  set (r1 := outcome tr _ b) in *. clearbody b1 r1.
  destruct H1 as (Hwf1 & Ha1 & Hap1 & H1).
  pose proof (service_spec tr b1 P props Hwf1) as H2.
  set (b2 := added tr P (service_added props) b1) in *.
  set (r2 := outcome tr _ b1) in *. clearbody b2 r2.
  destruct H2 as (Hwf2 & Ha2 & Hap2 & H2).
  set (key := device_address (service_Device props)) in *.
  set (U := service_UUID props) in *.
  destruct H2 as [(_ & _ & Hd2 & Hp2 & He2)
                 | (Hr2 & _ & s2 & d2 & sm2 & ms2 & cm2 & i2 & c2 & Hs2n & Hs2o & Hcm2
                    & _ & Hd2 & Hd2o & Hsm2 & Hcase2 & Hp2 & He2)].
  { by apply registry_extends. }
  destruct H1 as [(Hnr1 & _ & Hd1 & Hp1 & He1)
                 | (Hr1 & _ & s1 & d1 & sm1 & ms1 & cm1 & i1 & c1 & Hs1n & Hs1o & Hcm1
                    & _ & Hd1 & Hd1o & Hsm1 & Hcase1 & Hp1 & He1)].
  { exfalso. apply Hnr1. destruct Hr2 as [Ht Hr2]. split; [done|].
    by apply (device_ready_same tr b b1). }
  assert (Hk1 : devices b1 !! key = Some (VObj d1)) by (rewrite Hd1; apply lookup_insert_eq).
  destruct Hcase2 as [(Hk2 & Hdo & Hsmo) | (_ & _ & _ & reg & Hreg)]; [|congruence].
  assert (d2 = d1) as -> by congruence.
  assert (sm2 = sm1) as -> by congruence.
  assert (ms2 = <[U := s1]> ms1) as -> by congruence.
  assert (cm2 = cm1) as ->.
  { apply Hcm2. unfold owner_map, member. rewrite Hp1, lookup_insert_eq. by rewrite Hs1o. }
  destruct (view_copy (heap b1) (heap b2) (wf_objects _ Hwf1) sm1 s1 s2 U _ _
              He2 Hsm1 (lookup_insert_eq _ _ _) Hsm2 Hs1o Hs2o n) as [Hv Hvs].
  apply registry_related; try done.
  - rewrite Hd2. by apply insert_id.
  - intros k. rewrite Hp2. destruct (decide (k = P)) as [->|HkP].
    + rewrite lookup_insert_eq, Hp1, lookup_insert_eq. by constructor.
    + rewrite lookup_insert_ne by done.
      destruct (_path b1 !! k) as [l|] eqn:Hk; constructor.
      apply Hv. eapply wf_path; eauto.
Qed.

Lemma device_twice (b : Bluez) (P : string) (props : DeviceProps) :
  registry n (added tr P (device_added props) (added tr P (device_added props) b))
  = registry n (added tr P (device_added props) b).
Proof.
  unfold added, after. rewrite !device_added_run. unfold registry. simpl.
  f_equal. f_equal. unfold js_set_str.
  destruct (String.eqb (Address props) "__proto__"); [done|].
  by rewrite insert_insert_eq.
Qed.

Lemma adapter_twice (b : Bluez) (P : string) (props : AdapterProps) :
  registry n (added tr P (adapter_added props) (added tr P (adapter_added props) b))
  = registry n (added tr P (adapter_added props) b).
Proof. unfold added, after. by rewrite !adapter_added_run. Qed.
End Twice.

(** ** A characteristic announced before its service *)

Section Orphan.
Variable tr : transport.

End Orphan.

(** ** Well-formedness along a trace of notifications *)

Lemma wf_added (tr : transport) (P : string) (i : Interfaces) (b : Bluez) :
  wf b → single i → wf (added tr P i b).
Proof.
  intros Hwf [p|p|p|p|p].
  - unfold added, after. rewrite adapter_added_run. simpl.
    by apply wf_set_adapter_props.
  - unfold added, after. rewrite device_added_run. simpl.
    by apply wf_set_events, wf_set_devices_str.
  - by destruct (service_spec tr b P p Hwf) as [H _].
  - by destruct (characteristic_spec tr b P p Hwf) as [H _].
  - by destruct (descriptor_spec tr b P p Hwf) as [H _].
Qed.

Lemma wf_device_known : wf (added all_bound dev_path (device_added dev_props) constructor).
Proof. apply wf_added; [apply wf_constructor | constructor]. Qed.

Lemma wf_sample_registry : wf sample_registry.
Proof.
  unfold sample_registry.
  repeat (apply wf_added; [|constructor]). apply wf_constructor.
Qed.



(** ** Replaying a notification *)

(** C9 (amended). On a well-formed registry, a notification that names one
    of the five interfaces, delivered twice in succession at the same path,
    leaves the registry as one delivery does, up to the identity of the
    entity objects: the adapter properties, the address index, the path
    index and every child map below them show the same keys and the same
    entities, to any depth.  Each delivery builds a new entity object; the
    new object takes the place of the one of the delivery before, under the
    same key. *)
Theorem added_twice (tr : transport) (n : nat) (b : Bluez) (P : string) (i : Interfaces) :
  wf b → single i →
  registry n (added tr P i (added tr P i b)) = registry n (added tr P i b).
Proof.
  intros Hwf [p|p|p|p|p].
  - apply adapter_twice.
  - apply device_twice.
  - by apply service_twice.
  - by apply characteristic_twice.
  - by apply descriptor_twice.
Qed.

(** An object announced as a service and, in the same notification, as a
    characteristic of another service: the first delivery keeps the
    characteristic the service has, the second one loses it. *)
Lemma added_twice_two_interfaces :
  wf sample_registry
  ∧ shown_characteristics (registry 4 (added all_bound svc_path svc_and_chr sample_registry))
    = Some ["0000ffe1-0000-1000-8000-00805f9b34fb"]
  ∧ shown_characteristics
      (registry 4 (added all_bound svc_path svc_and_chr
                     (added all_bound svc_path svc_and_chr sample_registry)))
    = Some []
  ∧ registry 4 (added all_bound svc_path svc_and_chr
                  (added all_bound svc_path svc_and_chr sample_registry))
    ≠ registry 4 (added all_bound svc_path svc_and_chr sample_registry).
Proof.
  assert (H1 : shown_characteristics
                 (registry 4 (added all_bound svc_path svc_and_chr sample_registry))
               = Some ["0000ffe1-0000-1000-8000-00805f9b34fb"])
    by (vm_compute; reflexivity).
  assert (H2 : shown_characteristics
                 (registry 4 (added all_bound svc_path svc_and_chr
                                (added all_bound svc_path svc_and_chr sample_registry)))
               = Some [])
    by (vm_compute; reflexivity).
  split_and!; [apply wf_sample_registry | exact H1 | exact H2 |].
  intros Heq.
  pose proof (eq_trans (eq_sym H2) (eq_trans (f_equal shown_characteristics Heq) H1)).
  discriminate.
Qed.

(** A replayed service notification puts a new object at the path of the
    service: the entity is rebuilt, not refreshed in place. *)
Lemma service_rebuilt_on_replay :
  _path sample_registry !! svc_path = Some 2%positive
  ∧ _path (added all_bound svc_path (service_added svc_props) sample_registry) !! svc_path
    = Some 8%positive.
Proof. split; vm_compute; reflexivity. Qed.

Lemma added_twice_witness :
  wf sample_registry
  ∧ single (characteristic_added chr_props)
  ∧ registry 4 (added all_bound chr_path (characteristic_added chr_props)
                  (added all_bound chr_path (characteristic_added chr_props)
                     sample_registry))
    = registry 4 (added all_bound chr_path (characteristic_added chr_props) sample_registry).
Proof.
  split; [exact wf_sample_registry|].
  split; [exact (single_characteristic chr_props)|].
  exact (added_twice all_bound 4 sample_registry chr_path (characteristic_added chr_props)
           wf_sample_registry (single_characteristic chr_props)).
Defined.

(** * More of the code *)

(** ** The patterns on well-shaped paths *)

Lemma strip_prefix_app (p s : string) : Js.strip_prefix p (p +:+ s) = Some s.
Proof.
  induction p as [|c p IH]; simpl; [by destruct s|].
  by rewrite Ascii.eqb_refl.
Qed.

Lemma span_word_all (w : string) :
  all_chars Js.is_word w = true → Js.span_word w = (w, EmptyString).
Proof.
  induction w as [|c w IH]; simpl; [done|].
  intros [Hc Hw]%andb_true_iff. by rewrite Hc, IH.
Qed.

Lemma span_word_stop (w : string) (c : Ascii.ascii) (rest : string) :
  all_chars Js.is_word w = true → Js.is_word c = false →
  Js.span_word (w +:+ String c rest) = (w, String c rest).
Proof.
  intros Hw Hc. induction w as [|c' w IH]; simpl.
  - by rewrite Hc.
  - simpl in Hw. apply andb_true_iff in Hw as [Hc' Hw]. by rewrite Hc', IH.
Qed.

Lemma span_word_split (s w r : string) :
  Js.span_word s = (w, r) → s = w +:+ r ∧ all_chars Js.is_word w = true.
Proof.
  revert w r. induction s as [|c s IH]; simpl; intros w r H.
  - by simplify_eq.
  - destruct (Js.is_word c) eqn:Hc.
    + destruct (Js.span_word s) as [w' r'] eqn:Hs. simplify_eq.
      destruct (IH _ _ eq_refl) as [-> Hw]. simpl. by rewrite Hc, Hw.
    + by simplify_eq.
Qed.

Lemma strip_prefix_split (p s r : string) : Js.strip_prefix p s = Some r → s = p +:+ r.
Proof.
  revert s. induction p as [|c p IH]; intros s; simpl.
  - destruct s; intros; by simplify_eq.
  - destruct s as [|c' s]; [done|].
    destruct (Ascii.eqb c c') eqn:Hc; [|done].
    apply Ascii.eqb_eq in Hc as ->. intros H. by rewrite (IH _ H).
Qed.

Lemma match_device_path (w id : string) :
  word w = true → word id = true →
  Js.match_device ("/org/bluez/" +:+ w +:+ "/dev_" +:+ id) = Some (w, id).
Proof.
  intros [Hw1 Hw2]%andb_true_iff [Hi1 Hi2]%andb_true_iff.
  unfold Js.match_device.
  rewrite (strip_prefix_app "/org/bluez/").
  change ("/dev_" +:+ id) with (String "/" ("dev_" +:+ id)).
  rewrite span_word_stop by done. rewrite Hw1.
  unfold Js.match_dev_suffix.
  change (String "/" ("dev_" +:+ id)) with ("/dev_" +:+ id).
  rewrite strip_prefix_app, span_word_all by done. by rewrite Hi1.
Qed.

Lemma match_adapter_path (w : string) :
  word w = true → Js.match_adapter ("/org/bluez/" +:+ w) = Some w.
Proof.
  intros [Hw1 Hw2]%andb_true_iff. unfold Js.match_adapter.
  rewrite strip_prefix_app, span_word_all by done. by rewrite Hw1.
Qed.

(** A string that does not begin with a slash is no path. *)
Lemma strip_prefix_no_slash (c : Ascii.ascii) (s : string) :
  Ascii.eqb "/"%char c = false → Js.strip_prefix "/org/bluez/" (String c s) = None.
Proof. intros H. cbn [Js.strip_prefix]. by rewrite H. Qed.

Lemma address_char_no_slash (c : Ascii.ascii) :
  address_char c = true → Ascii.eqb "/"%char c = false.
Proof.
  intros H. destruct (Ascii.eqb "/"%char c) eqn:Hc; [|done].
  apply Ascii.eqb_eq in Hc as <-. done.
Qed.

Lemma match_device_address (a : string) :
  all_chars address_char a = true → Js.match_device a = None.
Proof.
  destruct a as [|c a]; [done|]. simpl. intros [Hc _]%andb_true_iff.
  unfold Js.match_device.
  by rewrite (strip_prefix_no_slash _ _ (address_char_no_slash _ Hc)).
Qed.

Lemma match_adapter_word (w : string) :
  all_chars Js.is_word w = true → Js.match_adapter w = None.
Proof.
  destruct w as [|c w]; [done|]. simpl. intros [Hc _]%andb_true_iff.
  unfold Js.match_adapter.
  rewrite strip_prefix_no_slash; [done|].
  apply address_char_no_slash. unfold address_char. by rewrite Hc.
Qed.

Lemma replace_underscores (a : string) :
  Js.replace_all "_" ":" (Js.replace_all ":" "_" a) = Js.replace_all "_" ":" a.
Proof.
  induction a as [|c a IH]; simpl; [done|]. rewrite IH. f_equal.
  destruct (Ascii.eqb c ":") eqn:Hc; [|done].
  apply Ascii.eqb_eq in Hc as ->. done.
Qed.

Lemma underscore_form_word (a : string) :
  all_chars address_char a = true →
  all_chars Js.is_word (Js.replace_all ":" "_" a) = true.
Proof.
  induction a as [|c a IH]; simpl; [done|].
  intros [Hc Ha]%andb_true_iff. rewrite (IH Ha), andb_true_r.
  destruct (Ascii.eqb c ":") eqn:Hcc; [done|].
  unfold address_char in Hc. by rewrite Hcc, orb_false_r in Hc.
Qed.

Lemma underscore_form_nonempty (a : string) :
  Js.nonempty (Js.replace_all ":" "_" a) = Js.nonempty a.
Proof. by destruct a. Qed.

Lemma word_address_char (s : string) :
  all_chars Js.is_word s = true → all_chars address_char s = true.
Proof.
  induction s as [|c s IH]; simpl; [done|].
  intros [Hc Hs]%andb_true_iff. rewrite (IH Hs). unfold address_char. by rewrite Hc.
Qed.

(** X1. The three ways of naming a device to [getDevice] lead to the same
    key of [this.devices]: the address with colons, the address with
    underscores, and the object path [/org/bluez/<adapter>/dev_<address
    with underscores>].  The key is the address with every underscore
    turned into a colon. *)
Theorem device_address_forms (w a : string) :
  word w = true →
  Js.nonempty a = true →
  all_chars address_char a = true →
  device_address a = Js.replace_all "_" ":" a
  ∧ device_address (Js.replace_all ":" "_" a) = Js.replace_all "_" ":" a
  ∧ device_address ("/org/bluez/" +:+ w +:+ "/dev_" +:+ Js.replace_all ":" "_" a)
    = Js.replace_all "_" ":" a.
Proof.
  intros Hw Hne Ha. unfold device_address. split_and!.
  - by rewrite match_device_address.
  - rewrite match_device_address by (by apply word_address_char, underscore_form_word).
    apply replace_underscores.
  - rewrite match_device_path; [apply replace_underscores | done |].
    unfold word. by rewrite underscore_form_nonempty, Hne, underscore_form_word.
Qed.

Lemma device_address_forms_witness :
  device_address "AA:BB:CC:DD:EE:FF" = "AA:BB:CC:DD:EE:FF"
  ∧ device_address "AA_BB_CC_DD_EE_FF" = "AA:BB:CC:DD:EE:FF"
  ∧ device_address "/org/bluez/hci0/dev_AA_BB_CC_DD_EE_FF" = "AA:BB:CC:DD:EE:FF".
Proof.
  exact (device_address_forms "hci0" "AA:BB:CC:DD:EE:FF" eq_refl eq_refl eq_refl).
Defined.

(** ** Handles are kept *)

Lemma getAdapter_id (x y : string) : adapter_id y = adapter_id x → getAdapter y = getAdapter x.
Proof. unfold getAdapter, adapter_id. intros H. by rewrite H. Qed.

Lemma getDevice_key_cached (tr : transport) (b : Bluez) (y : string) (v : value) :
  devices b !! device_address y = Some v →
  (∀ s, v ≠ VStr s) →
  run tr (getDevice y) b = (b, inr v).
Proof.
  intros H Hv. unfold getDevice. fold (device_address y). cbn [run].
  unfold js_get. rewrite H. destruct v; [by destruct (Hv s) | done | done].
Qed.

Lemma js_get_own {m : gmap string value} {k : string} {l : loc} :
  js_get m k = Some (VObj l) → m !! k = Some (VObj l).
Proof.
  unfold js_get. destruct (m !! k); [done|]. by destruct (Js.inherited k).
Qed.

(** ** [getDevice] when a bind is rejected *)

Section Rejected.
Variable tr : transport.

(** X4. When the entry of the address is a path and the transport rejects
    one of the two binds, [getDevice] rejects with the rejection of that
    bind (not with "Device not found"): the [Device1] bind at the
    registered path first, and the [Properties] bind at
    [/org/bluez/hci0/dev_..], which is not attempted when the first one
    failed.  Nothing but the calls made is changed: the entry stays a
    path, and no object is created. *)
Theorem getDevice_bind_rejected (b : Bluez) (address registered : string) :
  devices b !! device_address address = Some (VStr registered) →
  Js.nonempty registered = true →
  tr registered "org.bluez.Device1"
    && tr (properties_path address) "org.freedesktop.DBus.Properties" = false →
  let b' := after tr (getDevice address) b in
  b' = set_calls (λ _, calls b') b
  ∧ if tr registered "org.bluez.Device1"
    then outcome tr (getDevice address) b
         = inl (Rejected (properties_path address) "org.freedesktop.DBus.Properties")
         ∧ calls b' = calls b ++ [(registered, "org.bluez.Device1");
                                  (properties_path address, "org.freedesktop.DBus.Properties")]
    else outcome tr (getDevice address) b = inl (Rejected registered "org.bluez.Device1")
         ∧ calls b' = calls b ++ [(registered, "org.bluez.Device1")].
Proof.
  intros Hreg Hne Htr. unfold after, outcome, getDevice.
  fold (device_address address). fold (properties_path address) in *.
  cbn [run]. unfold js_get. rewrite Hreg, Hne.
  repeat step. destruct (tr registered "org.bluez.Device1"); simpl in Htr.
  - repeat step. rewrite Htr. cbn. split_and!; [done | done | by rewrite <- app_assoc].
  - cbn. done.
Qed.
End Rejected.

Lemma getDevice_bind_rejected_witness :
  let tr : transport := λ path _, String.eqb path "/org/bluez/hci1/dev_AA_BB" in
  let b := added tr "/org/bluez/hci1/dev_AA_BB"
             (device_added {| Address := "AA:BB"; Name := "x"; Connected := false |})
             constructor in
  outcome tr (getDevice "AA:BB") b
  = inl (Rejected "/org/bluez/hci0/dev_AA_BB" "org.freedesktop.DBus.Properties")
  ∧ devices (after tr (getDevice "AA:BB") b) !! "AA:BB"
    = Some (VStr "/org/bluez/hci1/dev_AA_BB").
Proof.
  intros tr b.
  destruct (getDevice_bind_rejected tr b "AA:BB" "/org/bluez/hci1/dev_AA_BB"
              eq_refl eq_refl eq_refl) as [Hb [Hout _]].
  split; [exact Hout|]. rewrite Hb. reflexivity.
Defined.

(** ** Names every object inherits *)

Section Inherited.
Variable tr : transport.

(** X5. [this.adapter] is a plain object, so [this.adapter[dev]] is truthy
    for the names of [Object.prototype] ([constructor], [toString], ..)
    although no adapter of that name was ever stored: [getAdapter] of such
    a name, or of [/org/bluez/<such a name>], returns the inherited member
    as if it were a handle made before.  It binds nothing and does not
    throw "Adapter not found". *)
Theorem getAdapter_inherited_name (b : Bluez) (x : string) :
  Js.inherited (adapter_id x) = true →
  adapter b !! adapter_id x = None →
  run tr (getAdapter x) b = (b, inr (VProto (adapter_id x))).
Proof.
  intros Hin Hno. unfold getAdapter. fold (adapter_id x). cbn [run].
  unfold js_get. by rewrite Hno, Hin.
Qed.

(** X6. The same for [this.devices]: [getDevice] of an address whose key
    is a name of [Object.prototype] returns the inherited member; it does
    not throw "Device not found". *)
Theorem getDevice_inherited_name (b : Bluez) (x : string) :
  Js.inherited (device_address x) = true →
  devices b !! device_address x = None →
  run tr (getDevice x) b = (b, inr (VProto (device_address x))).
Proof.
  intros Hin Hno. unfold getDevice. fold (device_address x). cbn [run].
  unfold js_get. by rewrite Hno, Hin.
Qed.
End Inherited.

Lemma getAdapter_inherited_name_witness :
  run (λ _ _, false) (getAdapter "/org/bluez/constructor") constructor
  = (constructor, inr (VProto "constructor")).
Proof.
  exact (getAdapter_inherited_name (λ _ _, false) constructor "/org/bluez/constructor"
           eq_refl eq_refl).
Defined.

Lemma getDevice_inherited_name_witness :
  run (λ _ _, false) (getDevice "/org/bluez/hci0/dev_toString") constructor
  = (constructor, inr (VProto "toString")).
Proof.
  exact (getDevice_inherited_name (λ _ _, false) constructor "/org/bluez/hci0/dev_toString"
           eq_refl eq_refl).
Defined.

(** ** A device announced again *)

Lemma device_address_fixed (a : string) : device_address a = a → a ≠ "__proto__".
Proof. intros H ->. vm_compute in H. discriminate. Qed.

Section Reannounced.
Variable tr : transport.

(** X7. A Device notification for an address for which [getDevice] has
    made a handle puts the path back in the place of the handle.  The next
    [getDevice] then binds again and makes a new Device, with an empty
    map of services: what was attached to the earlier handle stays with
    that object and is not reachable from the new one. *)
Theorem device_reannounced_drops_handle (b : Bluez) (P : string) (props : DeviceProps) (d : loc) :
  wf b →
  devices b !! Address props = Some (VObj d) →
  device_address (Address props) = Address props →
  Js.nonempty P = true →
  tr P "org.bluez.Device1" = true →
  tr (properties_path (Address props)) "org.freedesktop.DBus.Properties" = true →
  let b1 := added tr P (device_added props) b in
  let b2 := after tr (getDevice (Address props)) b1 in
  devices b1 !! Address props = Some (VStr P)
  ∧ ∃ d' m,
      outcome tr (getDevice (Address props)) b1 = inr (VObj d')
      ∧ d' ≠ d
      ∧ heap b2 !! d'
        = Some (ODevice (Handle P "org.bluez.Device1")
                  (Handle (properties_path (Address props)) "org.freedesktop.DBus.Properties")
                  m)
      ∧ heap b2 !! m = Some (OPlain ∅)
      ∧ heap b2 !! d = heap b !! d.
Proof.
  intros Hwf Hd Hkey HP Ht1 Ht2 b1 b2.
  destruct (wf_devices _ Hwf _ _ Hd) as (i & c & sm & Hheap).
  assert (H1 : devices b1 !! device_address (Address props) = Some (VStr P)).
  { rewrite Hkey. subst b1. unfold added, after. rewrite device_added_run.
    norm. unfold js_set_str.
    rewrite (proj2 (String.eqb_neq _ _) (device_address_fixed _ Hkey)).
    apply lookup_insert_eq. }
  split; [by rewrite <- Hkey at 1|].
  subst b2. unfold after, outcome.
  rewrite (getDevice_created tr b1 _ P H1 HP Ht1 Ht2).
  unfold device_installed. norm.
  assert (Hb1 : heap b1 = heap b) by done. rewrite Hb1.
  repeat name_fresh.
  exists l, l0. split; [reflexivity|].
  assert (l ≠ d) by (intros ->; congruence).
  assert (l0 ≠ d) by (intros ->; congruence).
  split_and!; try done; by lk.
Qed.
End Reannounced.

(** ** A notification block by block *)

Section Blocks.
Variable tr : transport.

Lemma service_block_run (P : string) (i : Interfaces) (b : Bluez) :
  run tr (service_block P i) b
  = match GattService1 i with
    | Some props => run tr (onInterfacesAdded P (service_added props)) b
    | None => (b, inr tt)
    end.
Proof.
  unfold service_block. destruct (GattService1 i) as [props|]; [|done].
  symmetry.
  transitivity (run tr (service_block P (service_added props);; (skip;; skip)) b);
    [reflexivity|].
  rewrite run_bind.
  transitivity (run tr (service_block P (service_added props)) b); [|reflexivity].
  by destruct (run tr _ b) as [b' [e|[]]].
Qed.

Lemma characteristic_block_run (P : string) (i : Interfaces) (b : Bluez) :
  run tr (characteristic_block P i) b
  = match GattCharacteristic1 i with
    | Some props => run tr (onInterfacesAdded P (characteristic_added props)) b
    | None => (b, inr tt)
    end.
Proof.
  unfold characteristic_block. destruct (GattCharacteristic1 i) as [props|]; [|done].
  symmetry.
  transitivity (run tr (characteristic_block P (characteristic_added props);; skip) b);
    [reflexivity|].
  by rewrite run_skip_r.
Qed.

Lemma descriptor_block_run (P : string) (i : Interfaces) (b : Bluez) :
  run tr (descriptor_block P i) b
  = match GattDescriptor1 i with
    | Some props => run tr (onInterfacesAdded P (descriptor_added props)) b
    | None => (b, inr tt)
    end.
Proof. unfold descriptor_block. by destruct (GattDescriptor1 i). Qed.

Lemma after_seq (J : Bluez → Prop) (t k : task unit) (b : Bluez) :
  J (after tr t b) → (∀ b', J b' → J (after tr k b')) → J (after tr (t;; k) b).
Proof.
  unfold after. intros H1 H2. rewrite run_bind.
  destruct (run tr t b) as [b1 [e|[]]]; simpl in *; auto.
Qed.

(** What every notification naming one interface keeps on well-formed
    registries, every notification keeps. *)
Lemma added_by_blocks (J : Bluez → Prop) :
  (∀ b P i, wf b → single i → J b → J (added tr P i b)) →
  ∀ b P i, wf b → J b → wf (added tr P i b) ∧ J (added tr P i b).
Proof.
  intros HJ b P i Hwf Hb.
  set (K := λ b', wf b' ∧ J b').
  assert (Hstep : ∀ b' j, single j → K b' → K (added tr P j b')).
  { intros b' j Hj [H1 H2]. split; [by apply wf_added | by apply HJ]. }
  change (K (added tr P i b)). unfold added.
  rewrite onInterfacesAdded_blocks.
  apply after_seq.
  { unfold after. rewrite adapter_block_run. simpl.
    destruct (Adapter1 i) as [p|]; [|done].
    apply (Hstep b (adapter_added p)); [constructor | done]. }
  intros b1 K1. apply after_seq.
  { unfold after. rewrite device_block_run. simpl.
    destruct (Device1 i) as [p|]; [|done].
    apply (Hstep b1 (device_added p)); [constructor | done]. }
  intros b2 K2. apply after_seq.
  { unfold after. rewrite service_block_run.
    destruct (GattService1 i) as [p|]; [|done].
    apply (Hstep b2 (service_added p)); [constructor | done]. }
  intros b3 K3. apply after_seq.
  { unfold after. rewrite characteristic_block_run.
    destruct (GattCharacteristic1 i) as [p|]; [|done].
    apply (Hstep b3 (characteristic_added p)); [constructor | done]. }
  intros b4 K4.
  unfold after. rewrite descriptor_block_run.
  destruct (GattDescriptor1 i) as [p|]; [|done].
  apply (Hstep b4 (descriptor_added p)); [constructor | done].
Qed.

Lemma wf_added_any (b : Bluez) (P : string) (i : Interfaces) :
  wf b → wf (added tr P i b).
Proof. intros Hwf. by apply (added_by_blocks (λ _, True)). Qed.
End Blocks.

(** ** Well-formedness under the other operations *)

Lemma wf_set_adapter_obj (b : Bluez) (k : string) (a : loc) :
  wf b → is_Some (heap b !! a) → wf (set_adapter (insert k (VObj a)) b).
Proof.
  intros [Hh Hp Hd Ha] Hs. split; simpl; try done.
  intros k' a' H. destruct (decide (k = k')) as [->|Hne].
  - rewrite lookup_insert_eq in H. by simplify_eq.
  - rewrite lookup_insert_ne in H by done. eauto.
Qed.

Lemma wf_delete_adapter (b : Bluez) (k : string) : wf b → wf (set_adapter (delete k) b).
Proof.
  intros [Hh Hp Hd Ha]. split; simpl; try done.
  intros k' a' H. apply lookup_delete_Some in H as [_ H]. eauto.
Qed.

Lemma wf_delete_devices (b : Bluez) (k : string) : wf b → wf (set_devices (delete k) b).
Proof.
  intros [Hh Hp Hd Ha]. split; simpl; try done.
  intros k' a' H. apply lookup_delete_Some in H as [_ H]. eauto.
Qed.

Section Operations.
Variable tr : transport.

Lemma wf_getDevice (b : Bluez) (x : string) : wf b → wf (after tr (getDevice x) b).
Proof.
  intros Hwf. destruct (getDevice_spec tr b x Hwf) as (b' & r & Hrun & Hwf' & _).
  unfold after. by rewrite Hrun.
Qed.

Lemma getAdapter_run (b : Bluez) (x : string) :
  let b1 := set_calls (λ l, l ++ [(match adapter b !! adapter_id x with
                                   | Some (VStr s) =>
                                       if Js.nonempty s then s else "/org/bluez/" +:+ adapter_id x
                                   | _ => "/org/bluez/" +:+ adapter_id x
                                   end, "org.bluez.Adapter1")]) b in
  after tr (getAdapter x) b = b
  ∨ after tr (getAdapter x) b = b1
  ∨ ∃ i, after tr (getAdapter x) b
         = set_adapter (insert (adapter_id x) (VObj (fresh (dom (heap b)))))
             (set_heap (insert (fresh (dom (heap b))) (OAdapter i)) b1).
Proof.
  unfold after, getAdapter. fold (adapter_id x). cbn [run]. unfold js_get.
  destruct (adapter b !! adapter_id x) as [[s|a|n]|] eqn:Hk; cbn [run fst];
    try (by left);
    try destruct (Js.nonempty s); try destruct (Js.inherited (adapter_id x));
    cbn [run fst]; try (by left);
    unfold resolve;
    match goal with |- context [tr ?p ?i] => destruct (tr p i) end;
    cbn; eauto.
Qed.

Lemma wf_getAdapter (b : Bluez) (x : string) : wf b → wf (after tr (getAdapter x) b).
Proof.
  intros Hwf. destruct (getAdapter_run b x) as [-> | [-> | [i ->]]]; [done | wf_tac |].
  apply wf_set_adapter_obj; [|some_lk].
  name_fresh. wf_tac.
Qed.

Lemma removed_run (b : Bluez) (P : string) (l : list string) :
  let b' := removed tr P l b in
  heap b' = heap b ∧ _path b' = _path b
  ∧ (devices b' = devices b ∨ ∃ k, devices b' = delete k (devices b))
  ∧ (adapter b' = adapter b ∨ ∃ k, adapter b' = delete k (adapter b)).
Proof.
  unfold removed, after, onInterfaceRemoved, emit_error.
  pose proof (match_removed_group1 P) as Hg1.
  destruct (has_interface "org.bluez.Device1" l),
           (has_interface "org.bluez.Adapter1" l),
           (Js.match_removed P) as [[g1 [g2|]]|];
    try rewrite (Hg1 _ _ eq_refl); cbn;
    destruct (listening b); cbn; eauto 10.
Qed.

Lemma wf_removed (b : Bluez) (P : string) (l : list string) :
  wf b → wf (removed tr P l b).
Proof.
  intros [Hh Hp Hd Ha]. destruct (removed_run b P l) as (H1 & H2 & H3 & H4).
  split.
  - by rewrite H1.
  - rewrite H1, H2. done.
  - rewrite H1. destruct H3 as [-> | [k ->]]; [done|].
    intros k' d H. apply lookup_delete_Some in H as [_ H]. eauto.
  - rewrite H1. destruct H4 as [-> | [k ->]]; [done|].
    intros k' d H. apply lookup_delete_Some in H as [_ H]. eauto.
Qed.

Lemma wf_perform (b : Bluez) (o : op) : wf b → wf (perform tr b o).
Proof.
  intros Hwf. destruct o; simpl.
  - by apply wf_added_any.
  - by apply wf_removed.
  - by apply wf_getAdapter.
  - by apply wf_getDevice.
Qed.

Lemma wf_history (ops : list op) : wf (history tr ops).
Proof.
  unfold history. induction ops as [|o ops IH] using rev_ind; [apply wf_constructor|].
  rewrite foldl_app. simpl. by apply wf_perform.
Qed.
End Operations.

(** ** What the maps hold *)

Lemma kept_but (cm : loc) (b b' : Bluez) :
  extends_but cm b b' →
  (heap b !! cm = None ∨ ∃ m, heap b !! cm = Some (OPlain m)) →
  entities_kept b b'.
Proof.
  intros He Hcm l o Hl Hk. apply He; [done|]. intros ->.
  destruct Hcm as [H|[m H]]; rewrite H in Hl; by simplify_eq.
Qed.

Lemma kept_extends (b b' : Bluez) : extends b b' → entities_kept b b'.
Proof. intros He l o Hl _. by apply He. Qed.

Lemma owner_map_inv (b : Bluez) (f : obj → option loc) (k : string) (m : loc) :
  owner_map b f k = Some m →
  ∃ p o, _path b !! k = Some p ∧ heap b !! p = Some o ∧ f o = Some m.
Proof.
  unfold owner_map, member. destruct (_path b !! k) as [p|]; [|done].
  destruct (heap b !! p) as [o|] eqn:Ho; [|done]. intros Hf. by exists p, o.
Qed.

Lemma typed_step (b b' : Bluez) :
  entities_kept b b' →
  adapter b' = adapter b →
  (∀ k v, devices b' !! k = Some v →
     devices b !! k = Some v ∨ (∃ s, v = VStr s)
     ∨ (∃ d i c m, v = VObj d ∧ heap b' !! d = Some (ODevice i c m))) →
  (∀ k p, _path b' !! k = Some p →
     _path b !! k = Some p
     ∨ ∃ o, heap b' !! p = Some o
            ∧ (is_Some (characteristics_of o) ∨ is_Some (descriptors_of o))) →
  typed b → typed b'.
Proof.
  intros Hk Ha Hd Hp [Ta Td Tp]. split.
  - rewrite Ha. intros k v H. destruct (Ta k v H) as (a & i & -> & Hh).
    exists a, i. split; [done|]. by apply Hk.
  - intros k v H. destruct (Hd k v H) as [H0 | [? | ?]]; [|by left | by right].
    destruct (Td k v H0) as [? | (d & i & c & m & -> & Hh)]; [by left|].
    right. exists d, i, c, m. split; [done|]. by apply Hk.
  - intros k p H. destruct (Hp k p H) as [H0 | ?]; [|done].
    destruct (Tp k p H0) as (o & Ho & Hf). exists o. split; [|done].
    apply Hk; [done|]. destruct o; simpl in *; try done;
      destruct Hf as [[? ?] | [? ?]]; done.
Qed.

Section Typed.
Variable tr : transport.

Lemma typed_added_single (b : Bluez) (P : string) (i : Interfaces) :
  wf b → single i → typed b → typed (added tr P i b).
Proof.
  intros Hwf [p|p|p|p|p].
  - unfold added, after. rewrite adapter_added_run. simpl.
    apply typed_step; try done. + by intros ???. + by left. + by left.
  - unfold added, after. rewrite device_added_run. simpl.
    apply typed_step; try done; [by intros ??? | | by left].
    norm. intros k v. unfold js_set_str.
    destruct (String.eqb (Address p) "__proto__"); [by left|].
    destruct (decide (Address p = k)) as [->|Hne].
    + rewrite lookup_insert_eq. intros [= <-]. right. left. eauto.
    + rewrite lookup_insert_ne by done. by left.
  - destruct (service_spec tr b P p Hwf) as (_ & Ha & _ & H).
    cbv zeta in H.
    destruct H as [(_ & _ & Hd & Hp & He)
                  | (_ & _ & s & d & sm & ms & cm & i0 & c0 & Hs & Hs' & _ & _ & Hd & Hd'
                     & Hsm & Hold & Hp & He)].
    + apply typed_step; try done; [by apply kept_extends | | ].
      * rewrite Hd. by left.
      * rewrite Hp. by left.
    + apply typed_step; try done.
      * apply (kept_but sm); [done|].
        destruct Hold as [(_ & _ & ?) | (_ & ? & _)]; eauto.
      * rewrite Hd. intros k v.
        destruct (decide (device_address (service_Device p) = k)) as [<-|Hne].
        -- rewrite lookup_insert_eq. intros [= <-]. right. right. eauto 10.
        -- rewrite lookup_insert_ne by done. by left.
      * rewrite Hp. intros k q.
        destruct (decide (P = k)) as [<-|Hne].
        -- rewrite lookup_insert_eq. intros [= <-]. right.
           eexists. split; [exact Hs'|]. left. simpl. eauto.
        -- rewrite lookup_insert_ne by done. by left.
  - destruct (characteristic_spec tr b P p Hwf) as (_ & Ha & _ & Hd & H).
    cbv zeta in H.
    destruct H as [(_ & _ & Hp & He)
                  | (_ & _ & c & cm & m & dm & Hc & Hc' & _ & Hown & Hcm' & Hcm & _ & _
                     & HP & Hother & _ & He)].
    + apply typed_step; try done; [by apply kept_extends | | ].
      * rewrite Hd. by left.
      * rewrite Hp. by left.
    + apply typed_step; try done.
      * apply (kept_but cm); [done|]. destruct Hcm as [? | [? _]]; eauto.
      * rewrite Hd. by left.
      * intros k q Hk.
        destruct (decide (k = P)) as [->|HkP].
        { right. rewrite HP in Hk. simplify_eq.
          eexists. split; [exact Hc'|]. right. simpl. eauto. }
        destruct (decide (k = characteristic_Service p)) as [->|HkS].
        { right. destruct (owner_map_inv _ _ _ _ (Hown (not_eq_sym HkP)))
            as (q' & o & Hq' & Ho & Hf).
          rewrite Hk in Hq'. simplify_eq. exists o. split; [done|]. left. eauto. }
        left. by rewrite <- Hother.
  - destruct (descriptor_spec tr b P p Hwf) as (_ & Ha & _ & Hd & H).
    cbv zeta in H.
    destruct H as [(_ & _ & Hp & He)
                  | (_ & _ & d & dm & m & Hn & Hd' & Hown & Hdm' & Hdm & _ & Hother & _ & He)].
    + apply typed_step; try done; [by apply kept_extends | | ].
      * rewrite Hd. by left.
      * rewrite Hp. by left.
    + apply typed_step; try done.
      * apply (kept_but dm); [done|]. destruct Hdm as [? | [? _]]; eauto.
      * rewrite Hd. by left.
      * intros k q Hk.
        destruct (decide (k = descriptor_Characteristic p)) as [->|HkX].
        { right. destruct (owner_map_inv _ _ _ _ Hown) as (q' & o & Hq' & Ho & Hf).
          rewrite Hk in Hq'. simplify_eq. exists o. split; [done|]. right. eauto. }
        left. by rewrite <- Hother.
Qed.

Lemma typed_added (b : Bluez) (P : string) (i : Interfaces) :
  wf b → typed b → typed (added tr P i b).
Proof.
  intros Hwf Ht.
  by apply (added_by_blocks tr typed (λ b P i, typed_added_single b P i)).
Qed.

Lemma typed_removed (b : Bluez) (P : string) (l : list string) :
  typed b → typed (removed tr P l b).
Proof.
  intros [Ta Td Tp]. destruct (removed_run tr b P l) as (H1 & H2 & H3 & H4).
  split; rewrite H1.
  - destruct H4 as [-> | [k ->]]; [done|].
    intros k' v H. apply lookup_delete_Some in H as [_ H]. eauto.
  - destruct H3 as [-> | [k ->]]; [done|].
    intros k' v H. apply lookup_delete_Some in H as [_ H]. eauto.
  - by rewrite H2.
Qed.

Lemma typed_getAdapter (b : Bluez) (x : string) :
  typed b → typed (after tr (getAdapter x) b).
Proof.
  intros Ht. destruct (getAdapter_run tr b x) as [-> | [-> | [i ->]]]; [done | by destruct Ht |].
  destruct Ht as [Ta Td Tp]. norm. name_fresh. split; norm.
  - intros k v. destruct (decide (adapter_id x = k)) as [<-|Hne].
    + rewrite lookup_insert_eq. intros [= <-]. exists l, i. by lk.
    + rewrite lookup_insert_ne by done. intros H.
      destruct (Ta k v H) as (a & i' & -> & Hh). exists a, i'. split; [done|].
      rewrite lookup_insert_ne by congruence. done.
  - intros k v H. destruct (Td k v H) as [? | (d & i' & c & m & -> & Hh)]; [by left|].
    right. exists d, i', c, m. split; [done|].
    rewrite lookup_insert_ne by congruence. done.
  - intros k p H. destruct (Tp k p H) as (o & Ho & Hf). exists o. split; [|done].
    rewrite lookup_insert_ne by congruence. done.
Qed.

Lemma typed_getDevice (b : Bluez) (x : string) :
  wf b → typed b → typed (after tr (getDevice x) b).
Proof.
  intros Hwf Ht. destruct (getDevice_spec tr b x Hwf)
    as (b' & r & Hrun & _ & Ha & _ & Hp & H).
  unfold after. rewrite Hrun. simpl.
  destruct H as [(_ & _ & Hd & Hh)
                | (_ & d & i & c & sm & ms & _ & Hd & Hd' & _ & Hold)].
  - apply (typed_step b); try done.
    + intros ???. by rewrite Hh.
    + rewrite Hd. by left.
    + rewrite Hp. by left.
  - apply (typed_step b); try done.
    + destruct Hold as [[_ Hh] | (_ & _ & _ & _ & He)];
        [intros ???; by rewrite Hh | by apply kept_extends].
    + rewrite Hd. intros k v.
      destruct (decide (device_address x = k)) as [<-|Hne].
      * rewrite lookup_insert_eq. intros [= <-]. right. right. eauto 10.
      * rewrite lookup_insert_ne by done. by left.
    + rewrite Hp. by left.
Qed.

(** X8. Whatever the daemon announces and removes and whatever handles are
    asked for, in any order and with any transport, the instance stays
    well formed and its maps hold what they are meant to hold.  Every
    entry of [this._path], of a child map and of the two top-level maps
    leads to an object that exists.  [this.adapter] holds Adapter objects
    only, never a path: the branch of [getAdapter] that reads a path from
    it is never taken.  [this.devices] holds paths and Device objects.
    [this._path] holds services, characteristics and their placeholders:
    descriptors are never entered in it. *)
Theorem history_sound (ops : list op) :
  wf (history tr ops) ∧ typed (history tr ops).
Proof.
  split; [apply wf_history|].
  unfold history. induction ops as [|o ops IH] using rev_ind.
  - split; simpl; intros ??; by rewrite lookup_empty.
  - rewrite foldl_app. simpl.
    pose proof (wf_history tr ops) as Hwf. unfold history in Hwf.
    destruct o; simpl.
    + by apply typed_added.
    + by apply typed_removed.
    + by apply typed_getAdapter.
    + by apply typed_getDevice.
Qed.
End Typed.

(** ** Announcements only add *)

Lemma grows_refl (b : Bluez) : grows b b.
Proof. split; try done; [by intros ??? | intros l m H; eauto]. Qed.

Lemma grows_trans (b1 b2 b3 : Bluez) : grows b1 b2 → grows b2 b3 → grows b1 b3.
Proof.
  intros [A1 P1 D1 E1 C1] [A2 P2 D2 E2 C2]. split.
  - congruence.
  - auto.
  - auto.
  - intros l o H Hk. apply E2; [|done]. by apply E1.
  - intros l m H. destruct (C1 _ _ H) as (m' & H' & Hm').
    destruct (C2 _ _ H') as (m'' & H'' & Hm''). exists m''. split; [done|]. auto.
Qed.

Lemma grows_extends (b b' : Bluez) :
  adapter b' = adapter b → _path b' = _path b → devices b' = devices b →
  extends b b' → grows b b'.
Proof.
  intros Ha Hp Hd He. split.
  - done.
  - by rewrite Hp.
  - by rewrite Hd.
  - by apply kept_extends.
  - intros l m H. exists m. split; [by apply He | done].
Qed.

(** One child map got one entry, everything else is as it was. *)
Lemma grows_children_but (cm : loc) (b b' : Bluez) (m : gmap string loc) (u : string) (c : loc) :
  extends_but cm b b' →
  heap b' !! cm = Some (OPlain (<[u := c]> m)) →
  heap b !! cm = Some (OPlain m) ∨ heap b !! cm = None ∧ m = ∅ →
  ∀ l m0, heap b !! l = Some (OPlain m0) →
  ∃ m', heap b' !! l = Some (OPlain m') ∧ ∀ k, is_Some (m0 !! k) → is_Some (m' !! k).
Proof.
  intros He Hcm' Hcm l m0 Hl.
  destruct (decide (l = cm)) as [->|Hne].
  - destruct Hcm as [Hcm | [Hcm _]]; [|congruence].
    rewrite Hcm in Hl. simplify_eq. eexists. split; [done|].
    intros k Hk. rewrite lookup_insert_is_Some'. by right.
  - exists m0. split; [by apply He | done].
Qed.

Section Grows.
Variable tr : transport.

Lemma grows_added_single (b : Bluez) (P : string) (i : Interfaces) :
  wf b → single i → grows b (added tr P i b).
Proof.
  intros Hwf [p|p|p|p|p].
  - unfold added, after. rewrite adapter_added_run. simpl.
    apply grows_extends; try done. by intros ???.
  - unfold added, after. rewrite device_added_run. simpl.
    split; norm; try done; [| by intros ??? | intros l m H; eauto].
    intros k Hk. unfold js_set_str.
    destruct (String.eqb (Address p) "__proto__"); [done|].
    rewrite lookup_insert_is_Some'. by right.
  - destruct (service_spec tr b P p Hwf) as (_ & Ha & _ & H).
    cbv zeta in H.
    destruct H as [(_ & _ & Hd & Hp & He)
                  | (_ & _ & s & d & sm & ms & cm & i0 & c0 & Hs & Hs' & _ & _ & Hd & Hd'
                     & Hsm & Hold & Hp & He)].
    { by apply grows_extends. }
    assert (Hsm0 : heap b !! sm = Some (OPlain ms) ∨ heap b !! sm = None ∧ ms = ∅).
    { destruct Hold as [(_ & _ & ?) | (_ & ? & ? & _)]; auto. }
    split.
    + done.
    + rewrite Hp. intros k Hk. rewrite lookup_insert_is_Some'. by right.
    + rewrite Hd. intros k Hk. rewrite lookup_insert_is_Some'. by right.
    + apply (kept_but sm); [done|]. destruct Hsm0 as [? | [? _]]; eauto.
    + by apply (grows_children_but sm b _ ms (service_UUID p) s).
  - destruct (characteristic_spec tr b P p Hwf) as (_ & Ha & _ & Hd & H).
    cbv zeta in H.
    destruct H as [(_ & _ & Hp & He)
                  | (_ & _ & c & cm & m & dm & Hc & Hc' & _ & Hown & Hcm' & Hcm & _ & _
                     & HP & Hother & HS & He)].
    { by apply grows_extends. }
    split.
    + done.
    + intros k Hk.
      destruct (decide (k = P)) as [->|HkP]; [by rewrite HP|].
      destruct (decide (k = characteristic_Service p)) as [->|HkS].
      * destruct Hk as [q Hq]. rewrite (HS (not_eq_sym HkP) _ Hq). eauto.
      * by rewrite Hother.
    + by rewrite Hd.
    + apply (kept_but cm); [done|]. destruct Hcm as [? | [? _]]; eauto.
    + by apply (grows_children_but cm b _ m (characteristic_UUID p) c).
  - destruct (descriptor_spec tr b P p Hwf) as (_ & Ha & _ & Hd & H).
    cbv zeta in H.
    destruct H as [(_ & _ & Hp & He)
                  | (_ & _ & d & dm & m & Hn & Hd' & Hown & Hdm' & Hdm & _ & Hother & HX & He)].
    { by apply grows_extends. }
    split.
    + done.
    + intros k Hk.
      destruct (decide (k = descriptor_Characteristic p)) as [->|HkX].
      * destruct Hk as [q Hq]. rewrite (HX _ Hq). eauto.
      * by rewrite Hother.
    + by rewrite Hd.
    + apply (kept_but dm); [done|]. destruct Hdm as [? | [? _]]; eauto.
    + by apply (grows_children_but dm b _ m (descriptor_UUID p) d).
Qed.

(** X9. An "interfaces added" notification, whatever interfaces it names
    and whether or not its handler comes to its end, takes nothing away
    from a well-formed registry: [this.adapter] is untouched (announcing
    an adapter does not register it), every key of [this._path] and of
    [this.devices] is still there, every entity object is as it was, and
    every child map has the entries it had, possibly under a new
    child. *)
Theorem added_only_grows (b : Bluez) (P : string) (i : Interfaces) :
  wf b → grows b (added tr P i b).
Proof.
  intros Hwf.
  apply (added_by_blocks tr (grows b)); [|done | apply grows_refl].
  intros b' P' j Hwf' Hj Hg. eapply grows_trans; [exact Hg|]. by apply grows_added_single.
Qed.
End Grows.

Lemma added_only_grows_witness :
  grows sample_registry (added all_bound svc_path svc_and_chr sample_registry).
Proof. exact (added_only_grows all_bound sample_registry svc_path svc_and_chr wf_sample_registry). Defined.

(** ** A handler that rejects *)

Section Atomic.
Variable tr : transport.

(** X10. When the handler of a notification that names one interface
    rejects (a bind is refused, the device of a service is not known, the
    owner registered at the path named has no such child map), the
    registry is as before, to any depth: nothing of the entity that was
    being built is left in the maps. *)
Theorem added_rejected_keeps_registry (n : nat) (b : Bluez) (P : string) (i : Interfaces)
    (e : exn) :
  wf b → single i →
  outcome tr (onInterfacesAdded P i) b = inl e →
  registry n (added tr P i b) = registry n b.
Proof.
  intros Hwf [p|p|p|p|p] Hout.
  - unfold outcome in Hout. by rewrite adapter_added_run in Hout.
  - unfold outcome in Hout. by rewrite device_added_run in Hout.
  - destruct (service_spec tr b P p Hwf) as (_ & Ha & Hap & H).
    cbv zeta in H. rewrite Hout in H.
    destruct H as [(_ & _ & Hd & Hp & He) | (_ & ? & _)]; [|done].
    by apply registry_extends.
  - destruct (characteristic_spec tr b P p Hwf) as (_ & Ha & Hap & Hd & H).
    cbv zeta in H. rewrite Hout in H.
    destruct H as [(_ & _ & Hp & He) | (_ & ? & _)]; [|done].
    by apply registry_extends.
  - destruct (descriptor_spec tr b P p Hwf) as (_ & Ha & Hap & Hd & H).
    cbv zeta in H. rewrite Hout in H.
    destruct H as [(_ & _ & Hp & He) | (_ & ? & _)]; [|done].
    by apply registry_extends.
Qed.
End Atomic.

(** ** What a GATT notification attaches *)

Section Attaches.
Variable tr : transport.



End Attaches.

(** ** A descriptor announced before its characteristic *)

Section OrphanDescriptor.
Variable tr : transport.

(** The descriptor of a characteristic path at which nothing is
    registered: a placeholder is made for the path, with a new descriptor
    map that holds the descriptor. *)
Lemma descriptor_orphan_run (b : Bluez) (D : string) (dp : DescriptorProps) :
  path_truthy b (descriptor_Characteristic dp) = false →
  tr D "org.bluez.GattDescriptor1" = true →
  let b' := added tr D (descriptor_added dp) b in
  ∃ d dm h,
    heap b !! d = None ∧ heap b !! dm = None ∧ heap b !! h = None
    ∧ _path b' = <[descriptor_Characteristic dp := h]> (_path b)
    ∧ heap b' !! h = Some (OHolderD dm)
    ∧ heap b' !! dm = Some (OPlain (<[descriptor_UUID dp := d]> ∅))
    ∧ heap b' !! d = Some (ODescriptor (Handle D "org.bluez.GattDescriptor1"))
    ∧ extends b b'.
Proof.
  intros Hn Ht. cbv zeta. unfold added, after. rewrite descriptor_added_run.
  unfold new_Descriptor, make_holder, attach_child.
  repeat step. rewrite Ht. repeat step.
  rewrite (path_truthy_same b) by done. rewrite Hn. repeat step.
  rewrite lookup_insert_eq. unfold member. norm. rewrite lookup_insert_eq.
  cbn [descriptors_of].
  rewrite (run_child_set tr l0 ∅) by (by lk).
  norm. exists l, l0, l1. split_and!; try done; try (by lk).
  intros x o Hx. by lk.
Qed.

End OrphanDescriptor.

(** ** Removal and the resolvers *)

(** The pattern of the removal handler is the union of the patterns of the
    two resolvers. *)
Lemma match_removed_device (P a id : string) :
  Js.match_removed P = Some (a, Some id) → Js.match_device P = Some (a, id).
Proof.
  unfold Js.match_removed, Js.match_device.
  destruct (Js.strip_prefix "/org/bluez/" P) as [r|]; [|done].
  destruct (Js.span_word r) as [w rest].
  destruct (Js.nonempty w); [|done].
  destruct (Js.nonempty rest); [|done].
  destruct (Js.match_dev_suffix rest); intros; by simplify_eq.
Qed.

Lemma match_removed_word (P a : string) (g2 : option string) :
  Js.match_removed P = Some (a, g2) → word a = true.
Proof.
  unfold Js.match_removed, word.
  destruct (Js.strip_prefix "/org/bluez/" P) as [r|]; [|done].
  destruct (Js.span_word r) as [w rest] eqn:Hs.
  destruct (span_word_split _ _ _ Hs) as [_ Hw].
  destruct (Js.nonempty w) eqn:Hne; [|done].
  destruct (Js.nonempty rest); [destruct (Js.match_dev_suffix rest)|];
    intros; simplify_eq; by rewrite Hne, Hw.
Qed.

Lemma match_removed_path (w id : string) :
  word w = true → word id = true →
  Js.match_removed ("/org/bluez/" +:+ w +:+ "/dev_" +:+ id) = Some (w, Some id).
Proof.
  intros [Hw1 Hw2]%andb_true_iff [Hi1 Hi2]%andb_true_iff.
  unfold Js.match_removed.
  rewrite (strip_prefix_app "/org/bluez/").
  change ("/dev_" +:+ id) with (String "/" ("dev_" +:+ id)).
  rewrite span_word_stop by done. rewrite Hw1. cbn [Js.nonempty].
  unfold Js.match_dev_suffix.
  change (String "/" ("dev_" +:+ id)) with ("/dev_" +:+ id).
  rewrite strip_prefix_app, span_word_all by done. by rewrite Hi1.
Qed.

Section Removal.
Variables tr tr' : transport.

Lemma removed_devices (b : Bluez) (P a id : string) (l : list string) :
  Js.match_removed P = Some (a, Some id) →
  has_interface "org.bluez.Device1" l = true →
  devices (removed tr P l b) = delete (Js.replace_all "_" ":" id) (devices b).
Proof.
  intros Hm Hd. unfold removed, after, onInterfaceRemoved. rewrite Hm, Hd.
  rewrite (match_removed_group1 _ _ _ Hm).
  by destruct (has_interface "org.bluez.Adapter1" l).
Qed.

Lemma removed_adapter (b : Bluez) (P a : string) (g2 : option string) (l : list string) :
  Js.match_removed P = Some (a, g2) →
  has_interface "org.bluez.Adapter1" l = true →
  (g2 = None → has_interface "org.bluez.Device1" l = true → listening b = true) →
  adapter (removed tr P l b) = delete a (adapter b).
Proof.
  intros Hm Ha Hl. unfold removed, after, onInterfaceRemoved, emit_error. rewrite Hm, Ha.
  rewrite (match_removed_group1 _ _ _ Hm).
  destruct (has_interface "org.bluez.Device1" l), g2; try done.
  cbn. by rewrite Hl.
Qed.

(** X15. When the removal handler rejects and when it does not.  It
    rejects in two cases, both before it has changed anything: with a
    [TypeError] when the notification names the Device or the Adapter
    interface at a path that is neither [/org/bluez/<adapter>] nor
    [/org/bluez/<adapter>/dev_<id>]; and with the error "Removed Device
    with unknown path" when it names the Device interface at a path
    [/org/bluez/<adapter>] and no 'error' listener is attached.  In every
    other case it comes to its end. *)
Theorem removed_rejects_iff (b : Bluez) (P : string) (l : list string) :
  let device := has_interface "org.bluez.Device1" l in
  let named := device || has_interface "org.bluez.Adapter1" l in
  (Js.match_removed P = None → named = true →
     run tr (onInterfaceRemoved P l) b = (b, inl TypeError))
  ∧ (∀ a, Js.match_removed P = Some (a, None) → device = true → listening b = false →
       run tr (onInterfaceRemoved P l) b
       = (b, inl (Error "Removed Device with unknown path")))
  ∧ (named = false
     ∨ (∃ a id, Js.match_removed P = Some (a, Some id))
     ∨ (∃ a, Js.match_removed P = Some (a, None)
             ∧ (device = false ∨ listening b = true)) →
       outcome tr (onInterfaceRemoved P l) b = inr tt).
Proof.
  unfold outcome, onInterfaceRemoved, emit_error.
  pose proof (match_removed_group1 P) as Hg1.
  destruct (has_interface "org.bluez.Device1" l),
           (has_interface "org.bluez.Adapter1" l),
           (Js.match_removed P) as [[g1 [g2|]]|];
    try rewrite (Hg1 _ _ eq_refl); cbn;
    destruct (listening b); cbn; split_and!; try done;
    intros; simplify_eq; try done;
    repeat match goal with
           | H : _ ∨ _ |- _ => destruct H
           | H : ∃ _, _ |- _ => destruct H
           | H : _ ∧ _ |- _ => destruct H
           end; simplify_eq; done.
Qed.

(** X16. The Device interface removed at a device path: the key deleted
    from [this.devices] is the key [getDevice] computes from that path, so
    that [getDevice] of the path, or of the address in any form, then
    throws "Device not found" (unless the key is a name of
    [Object.prototype]). *)
Theorem getDevice_after_removal (b : Bluez) (P a id x : string) (l : list string) :
  Js.match_removed P = Some (a, Some id) →
  has_interface "org.bluez.Device1" l = true →
  Js.inherited (device_address P) = false →
  device_address x = device_address P →
  let b' := removed tr P l b in
  devices b' = delete (device_address P) (devices b)
  ∧ run tr' (getDevice x) b' = (b', inl (Error "Device not found")).
Proof.
  intros Hm Hd Hin Hx b'.
  assert (Hkey : device_address P = Js.replace_all "_" ":" id).
  { unfold device_address. by rewrite (match_removed_device _ _ _ Hm). }
  assert (Hdev : devices b' = delete (device_address P) (devices b)).
  { rewrite Hkey. by apply (removed_devices b P a). }
  split; [done|].
  apply getDevice_absent. rewrite Hx. unfold js_get.
  by rewrite Hdev, lookup_delete_eq, Hin.
Qed.

(** X17. The Adapter interface removed at an adapter path, or at a device
    path of that adapter: the entry of the adapter is deleted from
    [this.adapter], and the next [getAdapter] of the adapter binds again at
    the default path and, when the bind succeeds, returns a new object,
    not the handle made before the removal.  A notification that at an
    adapter path names the Device interface as well needs an 'error'
    listener attached: without one the handler ends at its report of the
    device, before it comes to the adapter. *)
Theorem getAdapter_after_removal (b : Bluez) (P a : string) (g2 : option string)
    (l : list string) :
  Js.match_removed P = Some (a, g2) →
  has_interface "org.bluez.Adapter1" l = true →
  (g2 = None → has_interface "org.bluez.Device1" l = true → listening b = true) →
  Js.inherited a = false →
  let b' := removed tr P l b in
  let path := "/org/bluez/" +:+ a in
  adapter b' = delete a (adapter b)
  ∧ calls (after tr' (getAdapter a) b') = calls b' ++ [(path, "org.bluez.Adapter1")]
  ∧ (tr' path "org.bluez.Adapter1" = true →
       ∃ h, outcome tr' (getAdapter a) b' = inr (VObj h)
            ∧ heap b !! h = None
            ∧ heap (after tr' (getAdapter a) b') !! h
              = Some (OAdapter (Handle path "org.bluez.Adapter1"))).
Proof.
  intros Hm Ha Hl Hin b' path.
  assert (Had : adapter b' = delete a (adapter b)) by (by apply (removed_adapter b P a g2)).
  assert (Hid : adapter_id a = a).
  { unfold adapter_id. rewrite match_adapter_word; [done|].
    by destruct (andb_prop _ _ (match_removed_word _ _ _ Hm)). }
  assert (Hheap : heap b' = heap b) by apply (removed_run tr b P l).
  split; [done|].
  unfold after, outcome, getAdapter. fold (adapter_id a). rewrite Hid. fold path. cbn [run].
  unfold js_get. rewrite Had, lookup_delete_eq, Hin. cbn [run]. unfold resolve.
  destruct (tr' path "org.bluez.Adapter1"); cbn.
  - split; [done|]. intros _. rewrite Hheap. eexists. split; [done|].
    split; [apply fresh_unused | apply lookup_insert_eq].
  - done.
Qed.

(** X18. A device announced at its path and removed again, when the
    announced address is the one the path spells: [this.devices] is as it
    was without an entry for the address. *)
Theorem device_announced_then_removed (b : Bluez) (w a : string) (props : DeviceProps) :
  word w = true →
  Js.nonempty a = true →
  all_chars address_char a = true →
  Address props = Js.replace_all "_" ":" a →
  let P := "/org/bluez/" +:+ w +:+ "/dev_" +:+ Js.replace_all ":" "_" a in
  devices (removed tr P ["org.bluez.Device1"] (added tr' P (device_added props) b))
  = delete (Address props) (devices b).
Proof.
  intros Hw Hne Ha Haddr P.
  assert (Hid : word (Js.replace_all ":" "_" a) = true).
  { unfold word. by rewrite underscore_form_nonempty, Hne, underscore_form_word. }
  rewrite (removed_devices _ P w (Js.replace_all ":" "_" a));
    [| by apply match_removed_path | done].
  rewrite replace_underscores, <- Haddr.
  unfold added, after. rewrite device_added_run. norm. unfold js_set_str.
  destruct (String.eqb (Address props) "__proto__") eqn:Hp; [done|].
  by rewrite delete_insert_eq.
Qed.
End Removal.

(** ** One suspended call among settled ones *)

Lemma forallb_lookup {A : Type} (p : A → bool) (l : list A) (n : nat) (x : A) :
  forallb p l = true → l !! n = Some x → p x = true.
Proof.
  revert n. induction l as [|y l IH]; intros n H Hn; [done|].
  simpl in H. apply andb_true_iff in H as [Hy Hl].
  destruct n as [|n]; simpl in Hn; [by simplify_eq | eauto].
Qed.

Lemma step_solo {R : Type} (tr : transport) (b : Bluez) (pre post : list (task R))
    (t : task R) (c' : config R) :
  forallb settled pre = true → forallb settled post = true →
  step tr (b, pre ++ t :: post) c' →
  ∃ p i k, t = Await p i k
           ∧ c' = ((advance (k (resolve tr p i)) b).1,
                   pre ++ (advance (k (resolve tr p i)) b).2 :: post).
Proof.
  intros Hpre Hpost.
  inversion 1 as [b0 b' ts n p i k t' Hn Hadv]; subst.
  destruct (lt_eq_lt_dec n (length pre)) as [[Hlt | ->] | Hgt].
  - rewrite lookup_app_l in Hn by done.
    by pose proof (forallb_lookup _ _ _ _ Hpre Hn).
  - rewrite list_lookup_middle in Hn by done. simplify_eq.
    exists p, i, k. split; [done|]. rewrite Hadv. simpl.
    rewrite insert_app_r_alt by lia. by rewrite Nat.sub_diag.
  - rewrite lookup_app_r in Hn by lia.
    destruct (n - length pre) as [|n'] eqn:Hn'; [lia|]. simpl in Hn.
    by pose proof (forallb_lookup _ _ _ _ Hpost Hn).
Qed.

Lemma solo {R : Type} (tr : transport) (t : task R) (b : Bluez) (pre post : list (task R))
    (c' : config R) :
  forallb settled pre = true → forallb settled post = true →
  rtc (step tr) ((advance t b).1, pre ++ (advance t b).2 :: post) c' →
  quiescent c' →
  c' = ((run tr t b).1, pre ++ settle (run tr t b).2 :: post).
Proof.
  intros Hpre Hpost. revert b c'.
  induction t as [r | e | k IH | b' k IH | p i k IH]; intros b c' Hrtc Hq.
  - simpl in *. apply rtc_inv in Hrtc as [<- | (c1 & Hstep & _)]; [done|].
    by destruct (step_solo _ _ _ _ _ _ Hpre Hpost Hstep) as (? & ? & ? & ? & _).
  - simpl in *. apply rtc_inv in Hrtc as [<- | (c1 & Hstep & _)]; [done|].
    by destruct (step_solo _ _ _ _ _ _ Hpre Hpost Hstep) as (? & ? & ? & ? & _).
  - by apply (IH b b).
  - by apply (IH b').
  - simpl in *. apply rtc_inv in Hrtc as [<- | (c1 & Hstep & Hrtc)].
    + unfold quiescent in Hq. simpl in Hq.
      rewrite forallb_app in Hq. simpl in Hq. by rewrite andb_false_r in Hq.
    + destruct (step_solo _ _ _ _ _ _ Hpre Hpost Hstep) as (p' & i' & k' & Heq & ->).
      simplify_eq. by apply IH.
Qed.

(** ** The enumeration *)

Lemma call_synchronous (tr : transport) (k : string) (i : Interfaces) (c : config unit) :
  synchronous i →
  call (onInterfacesAdded k i) c = (added tr k i c.1, c.2 ++ [Ret tt]).
Proof.
  intros (H1 & H2 & H3). destruct i as [a d s ch ds]. simpl in *. subst.
  destruct c as [b ts]. by destruct a, d.
Qed.

Lemma added_synchronous_calls (tr : transport) (k : string) (i : Interfaces)
    (g : list (string * string) → list (string * string)) (b : Bluez) :
  synchronous i →
  added tr k i (set_calls g b) = set_calls g (added tr k i b).
Proof.
  intros (H1 & H2 & H3). destruct i as [a d s ch ds]. simpl in *. subst.
  by destruct a, d.
Qed.

Lemma advance_gatt (S : string) (i : Interfaces) :
  gatt i →
  ∃ g t1, ∀ b, advance (onInterfacesAdded S i) b = (set_calls g b, t1).
Proof.
  intros [H1 H2]. destruct i as [a d s ch ds]. simpl in *. subst.
  destruct s as [sp|]; [|destruct ch as [cp|]; [|destruct ds as [dp|]]].
  - exists (λ l, l ++ [(S, "org.bluez.GattService1")]). eexists. intros b. reflexivity.
  - exists (λ l, l ++ [(S, "org.bluez.GattCharacteristic1")]). eexists. intros b. reflexivity.
  - exists (λ l, l ++ [(S, "org.bluez.GattDescriptor1")]). eexists. intros b. reflexivity.
  - exists (λ l, l), (Ret tt). by intros [].
Qed.

Lemma enumerate_synchronous (tr : transport) (objs : list (string * Interfaces))
    (c : config unit) :
  Forall (λ e, synchronous e.2) objs →
  foldl (λ c entry, call (onInterfacesAdded entry.1 entry.2) c) c objs
  = (one_by_one tr objs c.1, c.2 ++ ((λ _, Ret tt) <$> objs)).
Proof.
  intros H. revert c. induction H as [|[k i] objs Hi _ IH]; intros [b ts].
  - simpl. by rewrite app_nil_r.
  - simpl. rewrite (call_synchronous tr) by done. rewrite IH. simpl.
    by rewrite <- app_assoc.
Qed.

Lemma one_by_one_calls (tr : transport) (objs : list (string * Interfaces))
    (g : list (string * string) → list (string * string)) (b : Bluez) :
  Forall (λ e, synchronous e.2) objs →
  one_by_one tr objs (set_calls g b) = set_calls g (one_by_one tr objs b).
Proof.
  intros H. revert b. induction H as [|[k i] objs Hi _ IH]; intros b; [done|].
  simpl. rewrite added_synchronous_calls by done. apply IH.
Qed.

Lemma settled_returns {A : Type} (l : list A) :
  forallb settled ((λ _, @Ret unit tt) <$> l) = true.
Proof. by induction l. Qed.

(** The enumeration with one object of GATT interfaces among objects
    without: the configuration it leaves, from which the one suspended
    handler is resumed. *)
Lemma enumeration_solo (tr : transport) (b : Bluez) (pre post : list (string * Interfaces))
    (S : string) (i : Interfaces) :
  Forall (λ e, synchronous e.2) pre → Forall (λ e, synchronous e.2) post →
  gatt i →
  let t := onInterfacesAdded S i in
  let b2 := one_by_one tr (pre ++ post) b in
  foldl (λ c entry, call (onInterfacesAdded entry.1 entry.2) c) (b, [])
        (pre ++ (S, i) :: post)
  = ((advance t b2).1,
     ((λ _, Ret tt) <$> pre) ++ (advance t b2).2 :: ((λ _, Ret tt) <$> post)).
Proof.
  intros Hpre Hpost Hi t b2.
  destruct (advance_gatt S i Hi) as (g & t1 & Hadv).
  rewrite foldl_app. rewrite (enumerate_synchronous tr pre) by done. simpl.
  unfold call at 2. simpl. fold t. rewrite Hadv.
  rewrite (enumerate_synchronous tr post) by done. simpl.
  rewrite one_by_one_calls by done.
  subst t. rewrite Hadv. simpl. rewrite <- app_assoc. simpl.
  subst b2. unfold one_by_one. by rewrite foldl_app.
Qed.

Section Enumeration.
Variable tr : transport.

(** X19. The enumeration of the managed objects at start-up starts every
    handler without awaiting it.  When one object has GATT interfaces and
    the others have none (adapters and devices, whose handlers await
    nothing), the suspended handler comes to its end, and the instance is
    then as if the objects without GATT interfaces had been handled first,
    all of them, and the other one last: also those listed after it. *)
Theorem enumeration_reorders (b : Bluez) (pre post : list (string * Interfaces))
    (S : string) (i : Interfaces) (c0 : config unit) :
  Forall (λ e, synchronous e.2) pre → Forall (λ e, synchronous e.2) post →
  gatt i →
  managed_objects (Some (pre ++ (S, i) :: post)) (b, []) = inr c0 →
  (∃ c', rtc (step tr) c0 c' ∧ quiescent c')
  ∧ ∀ c', rtc (step tr) c0 c' → quiescent c' →
          c'.1 = added tr S i (one_by_one tr (pre ++ post) b).
Proof.
  intros Hpre Hpost Hi Hc0. unfold managed_objects in Hc0.
  rewrite enumeration_solo with (tr := tr) in Hc0 by done. simplify_eq.
  split.
  - eexists. split; [apply advance_run|].
    unfold quiescent. simpl. rewrite forallb_app. simpl.
    by rewrite !settled_returns, settled_settle.
  - intros c' Hrtc Hq.
    by rewrite (solo _ _ _ _ _ _ (settled_returns pre) (settled_returns post) Hrtc Hq).
Qed.
End Enumeration.

Section ServiceBeforeDevice.
Variable tr : transport.

(** X20. A service listed before its device in the enumeration at
    start-up is attached: its handler is suspended at its first bind while
    the handler of the device, started next, registers the path of the
    device; resumed, it finds the device.  The same two notifications
    handled one after the other, each to its end, leave no trace of the
    service in [this._path] when the device was not known before. *)
Theorem enumeration_service_before_device (b : Bluez) (S D : string)
    (sp : ServiceProps) (dp : DeviceProps) (c0 c' : config unit) :
  wf b →
  device_address (service_Device sp) = Address dp →
  Address dp ≠ "__proto__" →
  Js.nonempty D = true →
  tr S "org.bluez.GattService1" = true →
  tr D "org.bluez.Device1" = true →
  tr (properties_path (service_Device sp)) "org.freedesktop.DBus.Properties" = true →
  managed_objects (Some [(S, service_added sp); (D, device_added dp)]) (b, []) = inr c0 →
  rtc (step tr) c0 c' → quiescent c' →
  (∃ d i c sm m s cm,
     devices c'.1 !! Address dp = Some (VObj d)
     ∧ heap c'.1 !! d = Some (ODevice i c sm)
     ∧ heap c'.1 !! sm = Some (OPlain m)
     ∧ m !! service_UUID sp = Some s
     ∧ _path c'.1 !! S = Some s
     ∧ heap c'.1 !! s = Some (OService (Handle S "org.bluez.GattService1") cm))
  ∧ (js_get (devices b) (Address dp) = None →
     _path (one_by_one tr [(S, service_added sp); (D, device_added dp)] b) = _path b).
Proof.
  intros Hwf Hkey Hproto HD HtS HtD HtP Hc0 Hrtc Hq. split.
  - unfold managed_objects in Hc0.
    assert (Hsync : Forall (λ e : string * Interfaces, synchronous e.2)
                      [(D, device_added dp)]) by (by repeat constructor).
    pose proof (enumeration_solo tr b [] [(D, device_added dp)] S (service_added sp)
                  (Forall_nil_2 _) Hsync (conj eq_refl eq_refl)) as Hsolo.
    cbv zeta in Hsolo. cbn [app] in Hsolo. rewrite Hsolo in Hc0. simplify_eq.
    rewrite (solo tr _ _ [] [Ret tt] _ eq_refl eq_refl Hrtc Hq). cbn [fst].
    change (one_by_one tr [(D, device_added dp)] b)
      with (added tr D (device_added dp) b).
    fold (after tr (onInterfacesAdded S (service_added sp))
                (added tr D (device_added dp) b)).
    fold (added tr S (service_added sp) (added tr D (device_added dp) b)).
    assert (Hwf2 : wf (added tr D (device_added dp) b))
      by (apply wf_added; [done | constructor]).
    assert (Hdev : devices (added tr D (device_added dp) b) !! Address dp = Some (VStr D)).
    { unfold added, after. rewrite device_added_run. norm. unfold js_set_str.
      rewrite (proj2 (String.eqb_neq _ _) Hproto). apply lookup_insert_eq. }
    set (b2 := added tr D (device_added dp) b) in *. clearbody b2.
    assert (Hready : service_ready tr b2 S sp).
    { split; [done|]. unfold device_ready, js_get. by rewrite Hkey, Hdev. }
    destruct (service_spec tr b2 S sp Hwf2) as (_ & _ & _ & H). cbv zeta in H.
    destruct H as [(Hnr & _) | (_ & _ & s & d & sm & ms & cm & i & c & _ & Hs' & _ & _ & Hd
                                & Hd' & Hsm & _ & Hp & _)]; [done|].
    exists d, i, c, sm, (<[service_UUID sp := s]> ms), s, cm.
    rewrite Hd, Hp, Hkey. split_and!; try done; apply lookup_insert_eq.
  - intros Hno. unfold one_by_one. simpl.
    destruct (service_spec tr b S sp Hwf) as (_ & _ & _ & H). cbv zeta in H.
    destruct H as [(_ & _ & _ & Hp & _) | ([_ Hr] & _)].
    + exact Hp.
    + unfold device_ready in Hr. by rewrite Hkey, Hno in Hr.
Qed.
End ServiceBeforeDevice.

(** ** Two [getAdapter] calls in flight *)

Section AdapterRace.
Variable tr : transport.
Variables (b : Bluez) (dev : string).
Hypothesis Hnone : adapter b !! adapter_id dev = None.
Hypothesis Hown : Js.inherited (adapter_id dev) = false.
Hypothesis Hbind : tr ("/org/bluez/" +:+ adapter_id dev) "org.bluez.Adapter1" = true.

Ltac adapter_race_end Hq :=
  first
    [ by (unfold quiescent in Hq; cbn in Hq)
    | cbn; repeat name_fresh;
      refine (ex_intro _ _ (ex_intro _ _ (conj _ (conj eq_refl _))));
      [ congruence
      | split_and!; [ by lk | by lk | lk; eauto | by rewrite <- app_assoc ] ] ].

Ltac adapter_race H Hq :=
  let c := fresh "c" in
  let Hs := fresh "Hs" in
  apply rtc_inv in H as [<- | (c & Hs & H)];
  [ adapter_race_end Hq
  | apply step_pair in Hs as [(? & ? & ? & ? & ->) | (? & ? & ? & ? & ->)];
    simplify_eq;
    rewrite ?(resolve_true _ _ _ Hbind) in H;
    cbn in H;
    adapter_race H Hq ].

Lemma getAdapter_race (c' : config value) :
  rtc (step tr) (call (getAdapter dev) (call (getAdapter dev) (b, []))) c' →
  quiescent c' →
  ∃ a1 a2 : loc,
    a1 ≠ a2
    ∧ c'.2 = [Ret (VObj a1); Ret (VObj a2)]
    ∧ heap c'.1 !! a1
      = Some (OAdapter (Handle ("/org/bluez/" +:+ adapter_id dev) "org.bluez.Adapter1"))
    ∧ heap c'.1 !! a2
      = Some (OAdapter (Handle ("/org/bluez/" +:+ adapter_id dev) "org.bluez.Adapter1"))
    ∧ (adapter c'.1 !! adapter_id dev = Some (VObj a1)
       ∨ adapter c'.1 !! adapter_id dev = Some (VObj a2))
    ∧ calls c'.1 = calls b ++
        [ ("/org/bluez/" +:+ adapter_id dev, "org.bluez.Adapter1");
          ("/org/bluez/" +:+ adapter_id dev, "org.bluez.Adapter1") ].
Proof.
  unfold call, getAdapter. fold (adapter_id dev).
  cbn. unfold js_get. rewrite Hnone, Hown. cbn.
  rewrite ?Hnone, ?Hown. cbn.
  intros Hrtc Hq.
  adapter_race Hrtc Hq.
Qed.
End AdapterRace.

Section ConcurrentAdapter.
Variable tr : transport.

(** X21. [getAdapter] does not look again after its [await]: two calls
    for one adapter, made while [this.adapter] holds nothing for it, both
    bind, and each makes an Adapter object of its own.  However their
    awaits interleave, the two callers hold different objects, and
    [this.adapter] keeps one of the two. *)
Theorem concurrent_getAdapter (b : Bluez) (dev : string) :
  adapter b !! adapter_id dev = None →
  Js.inherited (adapter_id dev) = false →
  tr ("/org/bluez/" +:+ adapter_id dev) "org.bluez.Adapter1" = true →
  let c0 := call (getAdapter dev) (call (getAdapter dev) (b, [])) in
  (∃ c', rtc (step tr) c0 c' ∧ quiescent c')
  ∧ ∀ c', rtc (step tr) c0 c' → quiescent c' →
      ∃ a1 a2 : loc,
        a1 ≠ a2
        ∧ c'.2 = [Ret (VObj a1); Ret (VObj a2)]
        ∧ heap c'.1 !! a1
          = Some (OAdapter (Handle ("/org/bluez/" +:+ adapter_id dev) "org.bluez.Adapter1"))
        ∧ heap c'.1 !! a2
          = Some (OAdapter (Handle ("/org/bluez/" +:+ adapter_id dev) "org.bluez.Adapter1"))
        ∧ (adapter c'.1 !! adapter_id dev = Some (VObj a1)
           ∨ adapter c'.1 !! adapter_id dev = Some (VObj a2))
        ∧ calls c'.1 = calls b ++
            [ ("/org/bluez/" +:+ adapter_id dev, "org.bluez.Adapter1");
              ("/org/bluez/" +:+ adapter_id dev, "org.bluez.Adapter1") ].
Proof.
  intros Hnone Hown Hbind c0. split; [apply two_calls_terminate|].
  by apply getAdapter_race.
Qed.
End ConcurrentAdapter.

(** ** Objects are never taken back *)

Section Kept.
Variable tr : transport.

Lemma entities_kept_perform (b : Bluez) (o : op) : wf b → entities_kept b (perform tr b o).
Proof.
  intros Hwf. destruct o as [P i | P l | x | x]; simpl.
  - refine (proj2 (added_by_blocks tr (entities_kept b) _ b P i Hwf _)); [|by intros ???].
    intros b' P' j Hwf' Hj Hk l o Hl Hko.
    apply (grows_entities _ _ (grows_added_single tr b' P' j Hwf' Hj)); [|done].
    by apply Hk.
  - intros l0 o Hl _. by rewrite (proj1 (removed_run tr b P l)).
  - destruct (getAdapter_run tr b x) as [-> | [-> | [i ->]]]; try (by intros ???).
    intros l o Hl _. norm. rewrite lookup_insert_ne; [done|].
    intros <-. by rewrite fresh_unused in Hl.
  - destruct (getDevice_spec tr b x Hwf) as (b' & r & Hrun & _ & _ & _ & _ & H).
    unfold after. rewrite Hrun. simpl.
    destruct H as [(_ & _ & _ & Hh) | (_ & d & i & c & sm & ms & _ & _ & _ & _ & Hold)].
    + intros ???. by rewrite Hh.
    + destruct Hold as [[_ Hh] | (_ & _ & _ & _ & He)];
        [intros ???; by rewrite Hh | by apply kept_extends].
Qed.

(** X22. Nothing invalidates a handle: an entity object (an Adapter, a
    Device, a Service, a Characteristic, a Descriptor), once made, is in
    the instance unchanged after whatever is announced, removed or asked
    for later, in any order and with any transport; also after the removal
    of its own interface. *)
Theorem handles_never_invalidated (ops later : list op) (l : loc) (o : obj) :
  heap (history tr ops) !! l = Some o →
  kind o ≠ 7 →
  heap (history tr (ops ++ later)) !! l = Some o.
Proof.
  intros Hl Hk. induction later as [|x later IH] using rev_ind.
  - by rewrite app_nil_r.
  - rewrite app_assoc. unfold history. rewrite foldl_app. simpl.
    apply entities_kept_perform; [apply wf_history | exact IH | done].
Qed.
End Kept.

(** ** The maps of a new characteristic *)

Section OwnMap.
Variable tr : transport.

(** A characteristic announced at a free path has a descriptor map of its
    own, which is not the map it is entered in. *)
Lemma characteristic_own_map (b : Bluez) (P : string) (props : CharacteristicProps)
    (c cm dm : loc) (i h : handle) :
  wf b → _path b !! P = None → P ≠ characteristic_Service props →
  let b' := added tr P (characteristic_added props) b in
  _path b' !! P = Some c →
  heap b' !! c = Some (OCharacteristic i h dm) →
  owner_map b' characteristics_of (characteristic_Service props) = Some cm →
  heap b !! dm = None ∧ dm ≠ cm.
Proof.
  intros Hwf HP HPS. cbv zeta. unfold added, after.
  rewrite characteristic_added_run.
  set (S := characteristic_Service props) in *. set (u := characteristic_UUID props).
  unfold new_Characteristic.
  repeat step.
  destruct (tr P "org.bluez.GattCharacteristic1") eqn:Ht; cycle 1.
  { norm. congruence. }
  repeat step.
  destruct (tr P "org.freedesktop.DBus.Properties") eqn:Ht'; cycle 1.
  { norm. congruence. }
  repeat step.
  set (hC := Handle P "org.bluez.GattCharacteristic1").
  set (hP := Handle P "org.freedesktop.DBus.Properties").
  set (st0 := set_heap <[l0 := _]> _).
  assert (Hwf0 : wf st0) by (subst st0; wf_tac).
  assert (Hc0 : heap st0 !! l0 = Some (OCharacteristic hC hP l)) by (subst st0; by lk).
  assert (Hl0' : heap st0 !! l = Some (OPlain ∅)) by (subst st0; by lk).
  assert (He0 : extends b st0) by (subst st0; intros x o Hx; by lk).
  assert (Hp0 : _path st0 = _path b) by done.
  clearbody st0.
  destruct (take_over_spec tr (characteristic_sort hC hP) st0 P l0 l Hwf0 Hc0)
    as (st1 & dm1 & Hrun & Hwf1 & _ & _ & _ & Hp1 & Hc1 & _ & Hown_map & He1).
  cbn [field mk characteristic_sort] in Hrun, Hc1.
  rewrite Hrun. cbn [fst snd]. clear Hrun.
  rewrite Hp0 in Hown_map. specialize (Hown_map HP).
  assert (Hdmb : heap b !! dm1 = None).
  { destruct Hown_map as [-> | Hf]; [done | by apply (extends_fresh b st0)]. }
  destruct (wf_field _ (wf_objects _ Hwf1) _ _ _ Hc1 eq_refl) as [mdm Hdm1].
  assert (Hext1 : extends b st1).
  { intros x o Hx. apply He1; [by apply He0 | congruence]. }
  assert (Hown1 : ∀ f k, owner_map st1 f k = owner_map b f k).
  { intros f k. apply owner_map_extends; [done | congruence | done]. }
  rewrite run_assoc, run_bind.
  destruct (attach_spec tr holderC_sort st1 S u l0 Hwf1 (mk_is_Some _ _ Hc1))
    as (st2 & r & Hrun & Hwf2 & _ & _ & _ & Hcase).
  cbn [field mk holderC_sort] in Hrun, Hcase.
  rewrite Hrun. clear Hrun.
  destruct Hcase as [(HpS & Hnone & -> & ->)
                    | (-> & cm2 & m & Hown & Hcm & Hcases & Hframe & _)].
  - norm. congruence.
  - repeat step.
    assert (Hne : l0 ≠ cm2).
    { intros ->. destruct Hcases as [(_ & Hx & _)|(_ & Hx & _)]; congruence. }
    assert (Hlcm : dm1 ≠ cm2).
    { intros <-. destruct Hcases as [(Ho & _)|(_ & Hx & _)]; [|congruence].
      rewrite Hown1 in Ho.
      destruct (owner_map_plain _ _ _ _ Hwf characteristics_field Ho) as [m' Hm'].
      congruence. }
    rewrite lookup_insert_eq. intros [= <-].
    rewrite (Hframe _ _ Hc1 Hne). intros [= <- <- <-].
    rewrite owner_map_insert_ne by done. rewrite Hown. intros [= <-]. done.
Qed.
End OwnMap.

(** ** Every order in which the device comes before the service *)

Lemma owner_map_kept (b b' : Bluez) (f : obj → option loc) (k : string) (m : loc) :
  (∀ o x, f o = Some x → kind o ≠ 7) →
  entities_kept b b' → _path b' !! k = _path b !! k →
  owner_map b f k = Some m → owner_map b' f k = Some m.
Proof.
  intros Hf Hk Hp H. destruct (owner_map_inv _ _ _ _ H) as (p & o & Hq & Ho & Hm).
  unfold owner_map, member. rewrite Hp, Hq, (Hk _ _ Ho (Hf _ _ Hm)). done.
Qed.

Lemma characteristics_entity (o : obj) (x : loc) : characteristics_of o = Some x → kind o ≠ 7.
Proof. by destruct o. Qed.

Lemma descriptors_entity (o : obj) (x : loc) : descriptors_of o = Some x → kind o ≠ 7.
Proof. by destruct o. Qed.

Ltac parts := split; [|split; [|split; [|split; [|split; [|split]]]]].

Section Orders.
Variable tr : transport.
Variable o : Objects.
Hypothesis Hrel : related o.
Hypothesis Hbound : bound tr o.

Lemma deliver_device (vdev vc vd : bool) (b : Bluez) :
  delivered o vdev false vc vd b →
  delivered o true false vc vd (deliver tr o b NDevice).
Proof.
  intros (Hwf & d & sm & s & cm & c & dm & ds & [_ H1] & H2 & H3 & H4 & H5 & H6 & H7).
  split; [apply wf_added; [done | constructor]|].
  exists d, sm, s, cm, c, dm, ds.
  unfold deliver, added, after. rewrite device_added_run. cbn [fst].
  split_and!; try done.
  norm. intros _. unfold js_set_str.
  rewrite (proj2 (String.eqb_neq _ _) (related_address _ Hrel)). apply lookup_insert_eq.
Qed.

Lemma deliver_descriptor (vdev vs vc : bool) (b : Bluez) :
  delivered o vdev vs vc false b →
  delivered o vdev vs vc true (deliver tr o b NDescriptor).
Proof.
  intros (Hwf & d & sm & s & cm & c & dm & ds & H1 & H2 & H3 & H4 & H5 & H6 & H7).
  pose proof (related_characteristic _ Hrel) as HxC.
  pose proof (related_paths _ Hrel) as HSC.
  pose proof (bound_descriptor _ _ Hbound) as HtX.
  assert (Hwf' : wf (deliver tr o b NDescriptor)) by (apply wf_added; [done | constructor]).
  split; [done|]. unfold deliver in *.
  set (X := at_descriptor o) in *. set (xp := descriptor_bag o) in *.
  destruct vc.
  - (* the characteristic is there *)
    destruct H3 as [Hc Hco]. destruct (H4 eq_refl) as (md & Hmd & _). clear H4.
    assert (Hown : owner_map b descriptors_of (at_characteristic o) = Some dm).
    { unfold owner_map, member. by rewrite Hc, Hco. }
    destruct (descriptor_spec tr b X xp Hwf) as (_ & _ & _ & Hd & H). cbv zeta in H.
    rewrite HxC in H.
    destruct H as [(Hnr & _) | (_ & _ & ds' & dm' & m' & Hn & Hds & _ & Hdm' & Hdm & Hu
                                & Hother & HX & He)].
    { exfalso. apply Hnr. split; [done|]. right. rewrite HxC, Hown. eauto. }
    pose proof (Hu _ Hown) as ->.
    assert (Hm' : m' = md) by (destruct Hdm as [? | [? _]]; congruence). subst m'.
    set (b' := added tr X (descriptor_added xp) b) in *. clearbody b'.
    assert (Hk : entities_kept b b') by (apply (kept_but dm); eauto).
    assert (Hp : ∀ k, _path b' !! k = _path b !! k).
    { intros k. destruct (decide (k = at_characteristic o)) as [->|Hne]; [|by apply Hother].
      rewrite Hc. by apply HX. }
    exists d, sm, s, cm, c, dm, ds'. parts; try done.
    + destruct vs.
      * destruct H1 as (Hd1 & (i & h & Hd2) & (ms & Hsm & Hms) & Hs & Hso).
        rewrite Hd, Hp. split_and!; try done.
        -- exists i, h. by apply Hk.
        -- exists ms. split; [|done]. apply He; [done|]. apply H6; done.
        -- by apply Hk.
      * destruct H1 as [Hd1 Hs]. rewrite Hd. split; [done|].
        apply (owner_map_kept b); try done. apply characteristics_entity.
    + intros _. destruct (H2 (orb_true_r _)) as (mc & Hmc & Hcc).
      exists mc. split; [|done]. apply He; [done|]. apply H7; [apply orb_true_r | done].
    + rewrite Hp. split; [done | by apply Hk].
    + intros _. eexists. split; [exact Hdm'|]. intros _.
      split; [apply lookup_insert_eq | done].
  - (* nothing is at the path of the characteristic *)
    assert (HtC : path_truthy b (descriptor_Characteristic xp) = false).
    { rewrite HxC. apply path_truthy_false. split; [done | apply Hrel]. }
    destruct (descriptor_orphan_run tr b X xp HtC HtX)
      as (ds' & dm' & hd & Hdsn & Hdmn & Hhn & Hp & Hh & Hdm' & Hds' & He).
    rewrite HxC in *.
    destruct (descriptor_spec tr b X xp Hwf) as (_ & _ & _ & Hd & _).
    set (b' := added tr X (descriptor_added xp) b) in *. clearbody b'.
    assert (Hk : entities_kept b b') by (by apply kept_extends).
    assert (HpS : _path b' !! at_service o = _path b !! at_service o).
    { rewrite Hp. by rewrite lookup_insert_ne. }
    exists d, sm, s, cm, c, dm', ds'. parts.
    + destruct vs.
      * destruct H1 as (Hd1 & (i & h & Hd2) & (ms & Hsm & Hms) & Hs & Hso).
        rewrite Hd, HpS. split_and!; try done; eauto.
      * destruct H1 as [Hd1 Hs]. by rewrite Hd, HpS.
    + intros Hvs. destruct (H2 Hvs) as (mc & Hmc & Hcc). eauto.
    + unfold owner_map, member. by rewrite Hp, lookup_insert_eq, Hh.
    + intros _. eexists. split; [exact Hdm'|]. intros _.
      split; [apply lookup_insert_eq | done].
    + done.
    + intros Hvs _. subst vs. destruct H1 as (_ & _ & (ms & Hsm & _) & _). congruence.
    + intros Hvs _. destruct (H2 Hvs) as (mc & Hmc & _). congruence.
Qed.
Lemma deliver_service (vc vd : bool) (b : Bluez) :
  delivered o true false vc vd b →
  delivered o true true vc vd (deliver tr o b NService).
Proof.
  intros (Hwf & d & sm & s & cm & c & dm & ds & [Hdev HS] & H2 & H3 & H4 & H5 & H6 & H7).
  specialize (Hdev eq_refl).
  pose proof (related_device _ Hrel) as Hkey.
  pose proof (related_paths _ Hrel) as HSC.
  unfold deliver.
  set (P := at_service o) in *. set (sp := service_bag o) in *.
  assert (Hready : service_ready tr b P sp).
  { split; [apply Hbound|]. unfold device_ready, js_get. rewrite Hkey, Hdev.
    split_and!; [apply Hrel | apply Hbound | apply Hbound]. }
  destruct (service_spec tr b P sp Hwf) as (Hwf' & _ & _ & H). cbv zeta in H.
  rewrite Hkey in H.
  destruct H as [(Hnr & _) | (_ & _ & s' & d' & sm' & ms & cm' & i & h & Hs & Hs' & Hcm & Hnew
                              & Hd & Hd' & Hsm & Hold & Hp & He)]; [done|].
  destruct Hold as [(Hk & _) | (Hdn & Hsmn & -> & _)]; [congruence|].
  set (b' := added tr P (service_added sp) b) in *. clearbody b'.
  assert (Hext : extends b b').
  { intros x ob Hx. apply He; [done | congruence]. }
  assert (HpC : _path b' !! at_characteristic o = _path b !! at_characteristic o).
  { rewrite Hp. by rewrite lookup_insert_ne. }
  split; [done|].
  exists d', sm', s', cm', c, dm, ds. parts.
  - rewrite Hd, Hp, !lookup_insert_eq. split_and!; eauto.
    exists (<[service_UUID sp := s']> ∅). split; [done | apply lookup_insert_eq].
  - intros _. destruct vc.
    + pose proof (Hcm _ HS) as ->. destruct (H2 eq_refl) as (mc & Hmc & Hcc). eauto.
    + destruct (wf_field _ (wf_objects _ Hwf') _ _ _ Hs' eq_refl) as [mc Hmc].
      exists mc. split; [done|]. done.
  - destruct vc.
    + destruct H3 as [Hc Hco]. rewrite HpC. eauto.
    + destruct vd; [|by rewrite HpC].
      apply (owner_map_kept b); [apply descriptors_entity | by apply kept_extends | done | done].
  - intros Hv. destruct (H4 Hv) as (md & Hmd & Hds). exists md. split; [eauto|].
    intros Hvd. destruct (Hds Hvd). eauto.
  - intros _. destruct vc.
    + pose proof (Hcm _ HS) as ->. destruct (H2 eq_refl) as (mc & Hmc & _). congruence.
    + by destruct (Hnew HS).
  - intros _ Hv. destruct (H4 Hv) as (md & Hmd & _). congruence.
  - intros _ Hv. destruct vc.
    + pose proof (Hcm _ HS) as ->. by apply H7.
    + destruct (Hnew HS) as [Hcn _]. destruct (H4 Hv) as (md & Hmd & _). congruence.
Qed.

Lemma deliver_characteristic (vdev vs vd : bool) (b : Bluez) :
  delivered o vdev vs false vd b →
  delivered o vdev vs true vd (deliver tr o b NCharacteristic).
Proof.
  intros (Hwf & d & sm & s & cm & c & dm & ds & H1 & H2 & H3 & H4 & H5 & H6 & H7).
  pose proof (related_service _ Hrel) as HcS.
  pose proof (related_paths _ Hrel) as HSC.
  unfold deliver.
  set (P := at_characteristic o) in *. set (cp := characteristic_bag o) in *.
  assert (Hown_b : vs = true → owner_map b characteristics_of (at_service o) = Some cm).
  { intros ->. destruct H1 as (_ & _ & _ & Hs & Hso). unfold owner_map, member.
    by rewrite Hs, Hso. }
  assert (Hfree : vs = false → _path b !! at_service o = None).
  { intros ->. by destruct H1. }
  assert (Hready : characteristic_ready tr b P cp).
  { split; [apply Hbound|]. split; [apply Hbound|]. rewrite HcS.
    destruct vs;
      [right | left; apply path_truthy_false; split; [by apply Hfree | apply Hrel]].
    rewrite Hown_b by done. eauto. }
  pose proof (characteristic_own_map tr b P cp) as Hom.
  destruct (characteristic_spec tr b P cp Hwf) as (Hwf' & _ & _ & Hd & H). cbv zeta in H, Hom.
  rewrite HcS in H, Hom.
  destruct H as [(Hnr & _) | (_ & _ & c' & cm' & m & dm' & Hc & Hc' & Hdm & Hown & Hcm' & Hcm
                              & Hcmn & Hu & HP & Hother & HS & He)]; [done|].
  specialize (Hown (not_eq_sym HSC)). specialize (HS (not_eq_sym HSC)).
  specialize (λ H, Hom c' cm' dm' _ _ Hwf H (not_eq_sym HSC) HP Hc' Hown).
  set (b' := added tr P (characteristic_added cp) b) in *. clearbody b'.
  assert (Hk : entities_kept b b') by (apply (kept_but cm'); [done|]; destruct Hcm as [? | [? _]]; eauto).
  assert (Hcm_eq : vs = true → cm' = cm).
  { intros Hv. apply Hu. by apply Hown_b. }
  assert (Hcm_new : vs = false → heap b !! cm' = None).
  { intros Hv. by apply Hcmn, Hfree. }
  assert (Hdm_eq : vd = true → dm' = dm).
  { intros ->. by apply Hdm. }
  assert (Hdm_new : vd = false → heap b !! dm' = None ∧ dm' ≠ cm').
  { intros ->. by apply Hom. }
  split; [done|].
  exists d, sm, s, cm', c', dm', ds. parts.
  - destruct vs.
    + rewrite (Hcm_eq eq_refl) in *.
      destruct H1 as (Hd1 & (i & h & Hd2) & (ms & Hsm & Hms) & Hs & Hso).
      rewrite Hd. split_and!; try done.
      * exists i, h. by apply Hk.
      * exists ms. split; [|done]. apply He; [done|]. by apply H5.
      * by apply HS.
      * by apply Hk.
    + destruct H1 as [Hd1 _]. by rewrite Hd.
  - intros _. eexists. split; [exact Hcm'|]. intros _. apply lookup_insert_eq.
  - done.
  - intros _. destruct vd.
    + rewrite (Hdm_eq eq_refl) in *. destruct (H4 eq_refl) as (md & Hmd & Hds).
      destruct (Hds eq_refl) as [Hv Hdso].
      exists md. split; [|intros _; split; [done | by apply Hk]].
      apply He; [done|]. intros ->.
      destruct vs.
      * rewrite (Hcm_eq eq_refl) in *. by apply H7.
      * rewrite (Hcm_new eq_refl) in Hmd. done.
    + destruct (wf_field _ (wf_objects _ Hwf') _ _ _ Hc' eq_refl) as [md Hmd].
      exists md. split; [done|]. done.
  - intros Hv. rewrite (Hcm_eq Hv). by apply H5.
  - intros Hv _. destruct vd.
    + rewrite (Hdm_eq eq_refl). by apply H6.
    + destruct (Hdm_new eq_refl) as [Hn _]. subst vs.
      destruct H1 as (_ & _ & (ms & Hsm & _) & _). congruence.
  - intros _ _. destruct vd.
    + rewrite (Hdm_eq eq_refl). destruct vs.
      * rewrite (Hcm_eq eq_refl). by apply H7.
      * destruct (H4 eq_refl) as (md & Hmd & _). pose proof (Hcm_new eq_refl). congruence.
    + destruct (Hdm_new eq_refl) as [_ Hne]. congruence.
Qed.
End Orders.

Lemma delivered_start (o : Objects) (b : Bluez) :
  wf b → _path b !! at_service o = None → _path b !! at_characteristic o = None →
  delivered o false false false false b.
Proof.
  intros Hwf HS HC. split; [done|].
  exists 1%positive, 1%positive, 1%positive, 1%positive, 1%positive, 1%positive, 1%positive.
  parts; done.
Qed.

Lemma delivered_all (o : Objects) (b : Bluez) :
  delivered o true true true true b → hierarchy o b.
Proof.
  intros (Hwf & d & sm & s & cm & c & dm & ds & H1 & H2 & H3 & H4 & _).
  destruct H1 as (Hd & (i & h & Hdo) & (ms & Hsm & Hms) & Hs & Hso).
  destruct (H2 eq_refl) as (mc & Hcm & Hmc). destruct H3 as [Hc Hco].
  destruct (H4 eq_refl) as (md & Hdm & Hmd). destruct (Hmd eq_refl) as [Hv Hds].
  exists d, sm, s, cm, c, dm, ds, i, h, ms, mc, md. split_and!; try done. by apply Hmc.
Qed.

Section AnyOrder.
Variable tr : transport.
Variable o : Objects.

End AnyOrder.

Lemma sample_objects_related : related sample_objects.
Proof. split; try done; vm_compute; done. Qed.

Lemma sample_objects_bound : bound all_bound sample_objects.
Proof. by split. Qed.


(** ** A service of a device that is not known *)

Section UnknownDevice.
Variable tr : transport.

(** X24. A Service notification for a device of which [this.devices] knows
    nothing: the handler binds the service interface and then rejects with
    "Device not found".  The service is entered nowhere, and nothing
    remembers it for the time the device is announced: [this.devices] and
    [this._path] are as before. *)
Theorem service_of_unknown_device (b : Bluez) (P : string) (sp : ServiceProps) :
  tr P "org.bluez.GattService1" = true →
  js_get (devices b) (device_address (service_Device sp)) = None →
  let b' := added tr P (service_added sp) b in
  outcome tr (onInterfacesAdded P (service_added sp)) b = inl (Error "Device not found")
  ∧ calls b' = calls b ++ [(P, "org.bluez.GattService1")]
  ∧ devices b' = devices b ∧ _path b' = _path b ∧ adapter b' = adapter b
  ∧ events b' = events b.
Proof.
  intros Ht Hno. cbv zeta. unfold added, after, outcome.
  rewrite service_added_run. unfold new_Service.
  repeat step. rewrite Ht. repeat step.
  rewrite getDevice_absent by done. done.
Qed.
End UnknownDevice.

Lemma service_of_unknown_device_witness :
  outcome all_bound (onInterfacesAdded svc_path (service_added svc_props)) constructor
  = inl (Error "Device not found")
  ∧ _path (added all_bound svc_path (service_added svc_props) constructor) = ∅.
Proof.
  destruct (service_of_unknown_device all_bound constructor svc_path svc_props
              eq_refl eq_refl) as (Hout & _ & _ & Hp & _).
  split; [exact Hout | exact Hp].
Defined.

(** ** From the [device] event to the handle *)

Section Resolves.
Variable tr : transport.

(** X25. What a listener of the [device] event relies on when it calls
    [getDevice] with the address of the event: after a Device
    notification, the event with the address and the property bag is the
    last one emitted, and [getDevice] of that address binds [Device1] at
    the announced path and returns a new Device, with an empty map of
    services, that is from then on the entry of the address.  The address
    is one that [getDevice] leaves as it is (it has no underscore and is
    no device path). *)
Theorem announced_device_resolves (b : Bluez) (P : string) (props : DeviceProps) :
  device_address (Address props) = Address props →
  Js.nonempty P = true →
  tr P "org.bluez.Device1" = true →
  tr (properties_path (Address props)) "org.freedesktop.DBus.Properties" = true →
  let b1 := added tr P (device_added props) b in
  let b2 := after tr (getDevice (Address props)) b1 in
  events b1 = events b ++ [EvDevice (Address props) props]
  ∧ ∃ d m,
      outcome tr (getDevice (Address props)) b1 = inr (VObj d)
      ∧ heap b !! d = None
      ∧ heap b2 !! d
        = Some (ODevice (Handle P "org.bluez.Device1")
                  (Handle (properties_path (Address props)) "org.freedesktop.DBus.Properties")
                  m)
      ∧ heap b2 !! m = Some (OPlain ∅)
      ∧ devices b2 !! Address props = Some (VObj d)
      ∧ events b2 = events b1.
Proof.
  intros Hkey HP Ht1 Ht2 b1 b2.
  assert (H1 : devices b1 !! device_address (Address props) = Some (VStr P)).
  { rewrite Hkey. subst b1. unfold added, after. rewrite device_added_run.
    norm. unfold js_set_str.
    rewrite (proj2 (String.eqb_neq _ _) (device_address_fixed _ Hkey)).
    apply lookup_insert_eq. }
  split; [done|].
  subst b2. unfold after, outcome.
  rewrite (getDevice_created tr b1 _ P H1 HP Ht1 Ht2).
  unfold device_installed. norm. rewrite Hkey.
  assert (Hb1 : heap b1 = heap b) by done. rewrite Hb1.
  repeat name_fresh.
  exists l, l0. split_and!; try done; by lk.
Qed.
End Resolves.

Lemma announced_device_resolves_witness :
  let b1 := added all_bound dev_path (device_added dev_props) constructor in
  events b1 = [EvDevice "AA:BB:CC:DD:EE:FF" dev_props]
  ∧ ∃ d, outcome all_bound (getDevice "AA:BB:CC:DD:EE:FF") b1 = inr (VObj d).
Proof.
  intros b1.
  destruct (announced_device_resolves all_bound constructor dev_path dev_props
              eq_refl eq_refl eq_refl eq_refl) as (Hev & d & m & Hout & _).
  split; [exact Hev|]. exists d. exact Hout.
Defined.

(** ** Children of the right class *)

Lemma child_kind_entity (o : obj) (f : loc) : field_of o = Some f → child_kind o ≠ 7.
Proof. by destruct o. Qed.

(** An entity object stored, at a new place or over an object of its
    class. *)
Lemma typed_insert_entity (h : gmap loc obj) (l : loc) (o : obj) :
  well_typed h →
  kind o ≠ 7 →
  (∀ o0, h !! l = Some o0 → kind o0 = kind o) →
  (∀ f, field_of o = Some f →
     (∀ m k x, h !! f = Some (OPlain m) → m !! k = Some x →
        ∃ ox, h !! x = Some ox ∧ kind ox = child_kind o)
     ∧ (∀ l' o', l' ≠ l → h !! l' = Some o' → field_of o' = Some f →
          child_kind o' = child_kind o)) →
  well_typed (<[l := o]> h).
Proof.
  intros [T2 T3] Hk Hold Hf.
  assert (Hkeep : ∀ x ox, h !! x = Some ox → ∃ ox', <[l := o]> h !! x = Some ox'
                                               ∧ kind ox' = kind ox).
  { intros x ox Hx. destruct (decide (l = x)) as [->|Hne].
    - rewrite lookup_insert_eq. eexists. split; [done|]. symmetry. by apply Hold.
    - rewrite lookup_insert_ne by done. eauto. }
  assert (Hplain : ∀ f m, <[l := o]> h !! f = Some (OPlain m) → h !! f = Some (OPlain m)).
  { intros f m. destruct (decide (l = f)) as [->|Hne].
    - rewrite lookup_insert_eq. intros [= ->]. done.
    - by rewrite lookup_insert_ne. }
  split.
  - intros l1 o1 f m k x Hl1 Hfo Hm Hx. apply Hplain in Hm.
    destruct (decide (l1 = l)) as [->|Hne].
    + rewrite lookup_insert_eq in Hl1. simplify_eq.
      destruct (proj1 (Hf _ Hfo) _ _ _ Hm Hx) as (ox & Hox & Hkx).
      destruct (Hkeep _ _ Hox) as (ox' & Hox' & Hk'). exists ox'. split; [done | congruence].
    + rewrite lookup_insert_ne in Hl1 by done.
      destruct (T2 _ _ _ _ _ _ Hl1 Hfo Hm Hx) as (ox & Hox & Hkx).
      destruct (Hkeep _ _ Hox) as (ox' & Hox' & Hk'). exists ox'. split; [done | congruence].
  - intros l1 o1 l2 o2 f Hl1 Hl2 Hf1 Hf2.
    destruct (decide (l1 = l)) as [->|Hne1], (decide (l2 = l)) as [->|Hne2].
    + rewrite lookup_insert_eq in Hl1, Hl2. by simplify_eq.
    + rewrite lookup_insert_eq in Hl1. rewrite lookup_insert_ne in Hl2 by done. simplify_eq.
      symmetry. eapply (proj2 (Hf _ Hf1)); eauto.
    + rewrite lookup_insert_eq in Hl2. rewrite lookup_insert_ne in Hl1 by done. simplify_eq.
      eapply (proj2 (Hf _ Hf2)); eauto.
    + rewrite lookup_insert_ne in Hl1, Hl2 by done. eauto.
Qed.

(** A child map stored, at a new place or over a child map. *)
Lemma typed_insert_plain (h : gmap loc obj) (l : loc) (m' : gmap string loc) :
  well_typed h →
  (∀ o0, h !! l = Some o0 → kind o0 = 7) →
  (∀ p op k x, h !! p = Some op → field_of op = Some l → m' !! k = Some x →
     ∃ ox, h !! x = Some ox ∧ kind ox = child_kind op) →
  well_typed (<[l := OPlain m']> h).
Proof.
  intros [T2 T3] Hold Hnew.
  assert (Hent : ∀ l1 o1 f, <[l := OPlain m']> h !! l1 = Some o1 → field_of o1 = Some f →
                 l1 ≠ l ∧ h !! l1 = Some o1).
  { intros l1 o1 f Hl1 Hf. destruct (decide (l = l1)) as [->|Hne].
    - rewrite lookup_insert_eq in Hl1. by simplify_eq.
    - by rewrite lookup_insert_ne in Hl1. }
  assert (Hkeep : ∀ x ox c, h !! x = Some ox → kind ox = c → c ≠ 7 →
                  <[l := OPlain m']> h !! x = Some ox).
  { intros x ox c Hx Hk Hc. rewrite lookup_insert_ne; [done|]. intros ->.
    apply Hold in Hx. congruence. }
  split.
  - intros l1 o1 f m k x Hl1 Hfo Hm Hx.
    destruct (Hent _ _ _ Hl1 Hfo) as [Hne Hl1'].
    assert (∃ ox, h !! x = Some ox ∧ kind ox = child_kind o1) as (ox & Hox & Hkx).
    { destruct (decide (l = f)) as [->|Hnf].
      - rewrite lookup_insert_eq in Hm. simplify_eq. eauto.
      - rewrite lookup_insert_ne in Hm by done. eauto. }
    exists ox. split; [|done].
    eapply Hkeep; [done | done |]. by eapply child_kind_entity.
  - intros l1 o1 l2 o2 f Hl1 Hl2 Hf1 Hf2.
    destruct (Hent _ _ _ Hl1 Hf1) as [_ Hl1']. destruct (Hent _ _ _ Hl2 Hf2) as [_ Hl2'].
    eauto.
Qed.

(** A new place is no child map of anything. *)
Lemma fresh_no_owner (h : gmap loc obj) (f l : loc) (o : obj) :
  wf_heap h → h !! f = None → h !! l = Some o → field_of o ≠ Some f.
Proof.
  intros Hwf Hf Hl Hfo. destruct (wf_field _ Hwf _ _ _ Hl Hfo) as [m Hm]. congruence.
Qed.

Lemma typed_alloc_plain (h : gmap loc obj) (l : loc) :
  well_typed h → h !! l = None → well_typed (<[l := OPlain ∅]> h).
Proof.
  intros Ht Hl. apply typed_insert_plain; [done | congruence |].
  intros ????? _ Hx. by rewrite lookup_empty in Hx.
Qed.

(** A new entity with no child map, or with a child map that is empty and
    owned by nothing else. *)
Lemma typed_alloc_leaf (h : gmap loc obj) (l : loc) (o : obj) :
  well_typed h → h !! l = None → kind o ≠ 7 → field_of o = None →
  well_typed (<[l := o]> h).
Proof.
  intros Ht Hl Hk Hf. apply typed_insert_entity; [done | done | congruence |].
  intros f Hfo. congruence.
Qed.

Lemma typed_alloc_owner (h : gmap loc obj) (l f : loc) (o : obj) :
  wf_heap h → well_typed (<[f := OPlain ∅]> h) →
  h !! f = None → <[f := OPlain ∅]> h !! l = None → kind o ≠ 7 → field_of o = Some f →
  well_typed (<[l := o]> (<[f := OPlain ∅]> h)).
Proof.
  intros Hwf Ht Hf Hl Hk Hfo. apply typed_insert_entity; [done | done | congruence |].
  intros f' Hf'. rewrite Hfo in Hf'. simplify_eq. split.
  - intros m k x. rewrite lookup_insert_eq. intros [= <-]. by rewrite lookup_empty.
  - intros l' o' Hne Hl' Hfo'.
    destruct (decide (f' = l')) as [->|Hn].
    + rewrite lookup_insert_eq in Hl'. by simplify_eq.
    + rewrite lookup_insert_ne in Hl' by done.
      by destruct (fresh_no_owner _ _ _ _ Hwf Hf Hl').
Qed.

Section TypedParts.
Variable tr : transport.

(** Taking over the child map of what is registered at the path, when that
    one holds the same class of children. *)
Lemma typed_take_over (s : sort) (st : Bluez) (path : string) (self m0 : loc) :
  wf st → well_typed (heap st) →
  heap st !! self = Some (mk s m0) →
  (∀ o m m', field s o = Some m → child_kind o = child_kind (mk s m')) →
  well_typed (heap (after tr (take_over (field s) (mk s) path self) st)).
Proof.
  intros Hwf Ht Hself Hck. unfold after, take_over, member, path_truthy. cbn [run].
  pose proof (sort_field_of s) as Hfo. pose proof (sort_kind s) as Hk.
  pose proof (sort_not_plain s) as Hnp.
  assert (Hfm : ∀ m, field_of (mk s m) = Some m) by (intros; apply Hfo, sort_field).
  assert (Hnew : ∀ l, heap st !! l = None →
                 well_typed (<[self := mk s l]> (<[l := OPlain ∅]> (heap st)))).
  { intros l Hl.
    apply typed_insert_entity; [by apply typed_alloc_plain | apply Hnp | |].
    { intros o0. destruct (decide (l = self)) as [->|Hne]; [congruence|].
      rewrite lookup_insert_ne by done.
      intros Ho0. rewrite Hself in Ho0. simplify_eq. apply Hk. }
    intros f Hf. rewrite Hfm in Hf. simplify_eq. split.
    - intros mm k x. rewrite lookup_insert_eq. intros [= <-]. by rewrite lookup_empty.
    - intros l' o' Hne Hl' Hfo'. destruct (decide (f = l')) as [->|Hn].
      { rewrite lookup_insert_eq in Hl'. by simplify_eq. }
      rewrite lookup_insert_ne in Hl' by done.
      by destruct (fresh_no_owner _ _ _ _ (wf_objects _ Hwf) Hl Hl'). }
  destruct (_path st !! path) as [p|] eqn:HP; [|destruct (Js.inherited path)].
  - destruct (wf_path _ Hwf _ _ HP) as [o Ho]. rewrite Ho.
    destruct (field s o) as [m|] eqn:Hm.
    + unfold or_empty. repeat step.
      apply typed_insert_entity; [done | apply Hnp | |].
      { intros o0 Ho0. rewrite Hself in Ho0. simplify_eq. apply Hk. }
      intros f Hf. rewrite Hfm in Hf. simplify_eq. split.
      * intros mm k x Hmm Hx.
        destruct (typed_children _ Ht _ _ _ _ _ _ Ho (Hfo _ _ Hm) Hmm Hx) as (ox & ? & ?).
        exists ox. split; [done|]. rewrite <- (Hck o f f Hm). done.
      * intros l' o' Hne Hl' Hfo'. rewrite <- (Hck o f f Hm).
        eapply (typed_roles _ Ht); eauto.
    + cbn [or_empty]. repeat step. by apply Hnew.
  - cbn [or_empty]. repeat step. by apply Hnew.
  - repeat step. done.
Qed.

(** Entering a child in the child map of its owner, or of a placeholder
    made for the owner, when the child is of the class the owner holds. *)
Lemma typed_attach (s : sort) (st : Bluez) (owner uuid : string) (child : loc) (oc : obj) :
  wf st → well_typed (heap st) →
  heap st !! child = Some oc →
  (∀ o m, field s o = Some m → child_kind o = kind oc) →
  well_typed (heap (after tr (make_holder (mk s) owner
                              ≫= λ _, attach_child (field s) owner uuid child) st)).
Proof.
  intros Hwf Ht Hchild Hck. unfold after, make_holder, attach_child, path_truthy.
  pose proof (sort_field_of s) as Hfo. pose proof (sort_kind s) as Hk.
  pose proof (sort_not_plain s) as Hnp. pose proof (sort_field s) as Hfs.
  assert (Hfm : ∀ m, field_of (mk s m) = Some m) by (intros; apply Hfo, sort_field).
  repeat step.
  destruct (_path st !! owner) as [p|] eqn:HP; [|destruct (Js.inherited owner)].
  - repeat step. rewrite HP. unfold member.
    destruct (wf_path _ Hwf _ _ HP) as [o Ho]. rewrite Ho.
    destruct (field s o) as [cm|] eqn:Hcm.
    + destruct (wf_field _ (wf_objects _ Hwf) _ _ _ Ho (Hfo _ _ Hcm)) as [m Hm].
      erewrite run_child_set by exact Hm. norm.
      apply typed_insert_plain; [done | |].
      { intros o0 Ho0. rewrite Hm in Ho0. by simplify_eq. }
      intros p' op k x Hp' Hfop Hx.
      assert (Hsame : child_kind op = kind oc).
      { rewrite <- (Hck o cm Hcm). eapply (typed_roles _ Ht); eauto. }
      destruct (decide (uuid = k)) as [->|Hne].
      * rewrite lookup_insert_eq in Hx. simplify_eq. exists oc. by split.
      * rewrite lookup_insert_ne in Hx by done.
        eapply (typed_children _ Ht); eauto.
    + cbn [child_set run]. done.
  - repeat step. rewrite HP. cbn [member child_set run]. done.
  - repeat step. lk. unfold member. lk. rewrite Hfs.
    erewrite run_child_set by (lk; reflexivity). norm.
    assert (Hck' : ∀ m, child_kind (mk s m) = kind oc) by (intros m; eapply Hck, Hfs).
    assert (Hcl : child ≠ l) by congruence.
    assert (Hcl0 : child ≠ l0) by congruence.
    apply typed_insert_plain.
    + apply typed_alloc_owner; [by apply wf_objects | by apply typed_alloc_plain | done
                               | by lk | apply Hnp | apply Hfm].
    + intros o0. lk. intros; by simplify_eq.
    + intros p' op k x Hp' Hfop Hx.
      destruct (decide (uuid = k)) as [->|Hne];
        [|rewrite lookup_insert_ne in Hx by done; by rewrite lookup_empty in Hx].
      rewrite lookup_insert_eq in Hx. simplify_eq.
      exists oc. split; [by lk|].
      destruct (decide (p' = l0)) as [->|Hn0].
      * rewrite lookup_insert_eq in Hp'. simplify_eq. by rewrite Hck'.
      * rewrite lookup_insert_ne in Hp' by done.
        destruct (decide (p' = l)) as [->|Hn].
        { rewrite lookup_insert_eq in Hp'. by simplify_eq. }
        rewrite lookup_insert_ne in Hp' by done.
        by destruct (fresh_no_owner _ _ _ _ (wf_objects _ Hwf) Hl Hp').
Qed.
End TypedParts.

Section TypedOperations.
Variable tr : transport.

Lemma children_getDevice (st : Bluez) (a : string) :
  wf st → well_typed (heap st) → well_typed (heap (after tr (getDevice a) st)).
Proof.
  intros Hwf Ht. unfold after. set (key := device_address a).
  destruct (js_get (devices st) key) as [[reg|d|n]|] eqn:Hget;
    try (unfold getDevice; fold (device_address a); fold key; cbn [run];
         by rewrite Hget).
  assert (Hreg : devices st !! key = Some (VStr reg)).
  { unfold js_get in Hget. destruct (devices st !! key); [congruence|].
    by destruct (Js.inherited key). }
  destruct (Js.nonempty reg) eqn:Hne; cycle 1.
  { unfold getDevice. fold (device_address a). fold key. cbn [run].
    by rewrite Hget, Hne. }
  destruct (tr reg "org.bluez.Device1") eqn:Hd; cycle 1.
  { unfold getDevice. fold (device_address a). fold key. cbn [run]. rewrite Hget, Hne.
    by rewrite run_bind, run_getInterface, Hd. }
  destruct (tr (properties_path a) "org.freedesktop.DBus.Properties") eqn:Hp; cycle 1.
  { unfold getDevice. fold (device_address a). fold key. fold (properties_path a).
    cbn [run]. rewrite Hget, Hne.
    rewrite run_bind, run_getInterface, Hd. norm.
    by rewrite run_bind, run_getInterface, Hp. }
  rewrite (getDevice_created tr st a reg Hreg Hne Hd Hp).
  unfold device_installed. norm. repeat name_fresh.
  apply typed_alloc_owner; [by apply wf_objects | by apply typed_alloc_plain | done
                           | by lk | done | done].
Qed.

Lemma children_descriptor (b : Bluez) (P : string) (props : DescriptorProps) :
  wf b → well_typed (heap b) →
  well_typed (heap (added tr P (descriptor_added props) b)).
Proof.
  intros Hwf Ht. unfold added, after.
  rewrite descriptor_added_run. unfold new_Descriptor.
  repeat step.
  destruct (tr P "org.bluez.GattDescriptor1") eqn:Hb; cycle 1.
  { by norm. }
  repeat step.
  set (hD := Handle P "org.bluez.GattDescriptor1").
  set (st0 := set_heap <[l := _]> _).
  assert (Hwf0 : wf st0) by (subst st0; wf_tac).
  assert (Hd0 : heap st0 !! l = Some (ODescriptor hD)) by (subst st0; by lk).
  assert (Ht0 : well_typed (heap st0)).
  { subst st0. norm. by apply typed_alloc_leaf. }
  clearbody st0.
  rewrite <- run_bind.
  apply (typed_attach tr holderD_sort st0 _ _ l _ Hwf0 Ht0 Hd0).
  intros o m Hf. by destruct o.
Qed.

Lemma children_characteristic (b : Bluez) (P : string) (props : CharacteristicProps) :
  wf b → well_typed (heap b) →
  well_typed (heap (added tr P (characteristic_added props) b)).
Proof.
  intros Hwf Ht. unfold added, after.
  rewrite characteristic_added_run. unfold new_Characteristic.
  repeat step.
  destruct (tr P "org.bluez.GattCharacteristic1") eqn:Hb; cycle 1.
  { by norm. }
  repeat step.
  destruct (tr P "org.freedesktop.DBus.Properties") eqn:Hb'; cycle 1.
  { by norm. }
  repeat step.
  set (hC := Handle P "org.bluez.GattCharacteristic1").
  set (hP := Handle P "org.freedesktop.DBus.Properties").
  set (st0 := set_heap <[l0 := _]> _).
  assert (Hwf0 : wf st0) by (subst st0; wf_tac).
  assert (Hc0 : heap st0 !! l0 = Some (OCharacteristic hC hP l)) by (subst st0; by lk).
  assert (Ht0 : well_typed (heap st0)).
  { subst st0. norm.
    apply typed_alloc_owner; [by apply wf_objects | by apply typed_alloc_plain | done
                             | by lk | done | done]. }
  clearbody st0.
  pose proof (typed_take_over tr (characteristic_sort hC hP) st0 P l0 l Hwf0 Ht0 Hc0) as Ht1.
  destruct (take_over_spec tr (characteristic_sort hC hP) st0 P l0 l Hwf0 Hc0)
    as (st1 & dm & Hrun & Hwf1 & _ & _ & _ & _ & Hc1 & _).
  unfold after in Ht1. rewrite Hrun in Ht1.
  cbn [field mk characteristic_sort fst] in Hrun, Hc1, Ht1.
  rewrite Hrun. cbn [fst snd]. clear Hrun.
  assert (Ht1' : well_typed (heap st1)).
  { apply Ht1. intros o m m' Hf. by destruct o. }
  rewrite run_assoc, run_bind.
  pose proof (typed_attach tr holderC_sort st1 (characteristic_Service props)
                (characteristic_UUID props) l0 _ Hwf1 Ht1' Hc1) as Ht2.
  unfold after in Ht2. cbn [field mk holderC_sort] in Ht2.
  destruct (run tr (make_holder OHolderC _ ≫= _) st1) as [st2 [e|[]]];
    cbn [fst snd] in *.
  - apply Ht2. intros o m Hf. by destruct o.
  - repeat step. apply Ht2. intros o m Hf. by destruct o.
Qed.

Lemma children_service (b : Bluez) (P : string) (props : ServiceProps) :
  wf b → well_typed (heap b) →
  well_typed (heap (added tr P (service_added props) b)).
Proof.
  intros Hwf Ht. unfold added, after.
  rewrite service_added_run. unfold new_Service.
  repeat step.
  destruct (tr P "org.bluez.GattService1") eqn:Hb; cycle 1.
  { by norm. }
  repeat step.
  set (hS := Handle P "org.bluez.GattService1").
  set (st0 := set_heap <[l0 := _]> _).
  assert (Hwf0 : wf st0) by (subst st0; wf_tac).
  assert (Hs0 : heap st0 !! l0 = Some (OService hS l)) by (subst st0; by lk).
  assert (Ht0 : well_typed (heap st0)).
  { subst st0. norm.
    apply typed_alloc_owner; [by apply wf_objects | by apply typed_alloc_plain | done
                             | by lk | done | done]. }
  clearbody st0.
  pose proof (children_getDevice st0 (service_Device props) Hwf0 Ht0) as Ht1.
  destruct (getDevice_spec tr st0 (service_Device props) Hwf0)
    as (st1 & r & Hrun & Hwf1 & _ & _ & _ & Hcase).
  unfold after in Ht1. rewrite Hrun in Ht1. rewrite Hrun. cbn [fst snd] in *. clear Hrun.
  assert (Hs1 : heap st1 !! l0 = Some (OService hS l)).
  { destruct Hcase as [(_ & _ & _ & ->) | (_ & d & i & c & sm & ms & _ & _ & _ & _ & Hc)];
      [done|].
    destruct Hc as [(_ & ->) | (_ & _ & _ & _ & He)]; [done | by apply He]. }
  destruct r as [e|dev]; [done|].
  pose proof (typed_take_over tr (service_sort hS) st1 P l0 l Hwf1 Ht1 Hs1) as Ht2.
  destruct (take_over_spec tr (service_sort hS) st1 P l0 l Hwf1 Hs1)
    as (st2 & cm & Hrun & Hwf2 & _ & _ & _ & _ & Hs2 & _ & _ & He2).
  unfold after in Ht2. rewrite Hrun in Ht2.
  cbn [field mk service_sort fst] in Hrun, Hs2, Ht2.
  rewrite run_bind, Hrun. clear Hrun.
  assert (Ht2' : well_typed (heap st2)).
  { apply Ht2. intros o m m' Hf. by destruct o. }
  repeat step. unfold member.
  destruct (ref_of dev) as [d|]; [|done].
  destruct (heap st2 !! d) as [o|] eqn:Hd; [|done].
  destruct (services_of o) as [sm|] eqn:Hsm; [|done].
  cbn [child_set run].
  destruct (heap st2 !! sm) as [[| | | | | | |ms]|] eqn:Hms; try done.
  repeat step.
  apply typed_insert_plain; [done | |].
  { intros o0 Ho0. rewrite Hms in Ho0. by simplify_eq. }
  intros p' op k x Hp' Hfop Hx.
  assert (Hsame : child_kind op = 2).
  { rewrite (typed_roles _ Ht2' _ _ _ _ _ Hp' Hd Hfop (services_field _ _ Hsm)).
    by destruct o. }
  destruct (decide (service_UUID props = k)) as [<-|Hne].
  - rewrite lookup_insert_eq in Hx. simplify_eq. eexists. split; [exact Hs2|].
    by rewrite Hsame.
  - rewrite lookup_insert_ne in Hx by done.
    eapply (typed_children _ Ht2'); eauto.
Qed.

Lemma children_added_single (b : Bluez) (P : string) (i : Interfaces) :
  wf b → single i → well_typed (heap b) → well_typed (heap (added tr P i b)).
Proof.
  intros Hwf [p|p|p|p|p] Ht.
  - unfold added, after. by rewrite adapter_added_run.
  - unfold added, after. by rewrite device_added_run.
  - by apply children_service.
  - by apply children_characteristic.
  - by apply children_descriptor.
Qed.

Lemma children_perform (b : Bluez) (o : op) :
  wf b → well_typed (heap b) → well_typed (heap (perform tr b o)).
Proof.
  intros Hwf Ht. destruct o; simpl.
  - by apply (added_by_blocks tr (λ b, well_typed (heap b)) children_added_single).
  - by destruct (removed_run tr b path interfaces) as (-> & _).
  - destruct (getAdapter_run tr b dev) as [-> | [-> | [i ->]]]; [done | done |].
    norm. apply typed_alloc_leaf; [done | apply fresh_unused | done | done].
  - by apply children_getDevice.
Qed.

Lemma children_history (ops : list op) : well_typed (heap (history tr ops)).
Proof.
  unfold history. induction ops as [|o ops IH] using rev_ind.
  - split; simpl; intros *; by rewrite lookup_empty.
  - rewrite foldl_app. simpl. apply children_perform; [apply wf_history | done].
Qed.
End TypedOperations.

(** X26. Whatever was announced, removed and asked for, in whatever order:
    every entry of the child map of a Device is a Service, every entry of
    the child map of a Service (or of the placeholder made for a Service
    not announced yet) is a Characteristic, and every entry of the child
    map of a Characteristic (or of its placeholder) is a Descriptor. *)
Theorem children_of_their_class (tr : transport) (ops : list op)
    (l f x : loc) (o : obj) (m : gmap string loc) (u : string) :
  heap (history tr ops) !! l = Some o →
  field_of o = Some f →
  heap (history tr ops) !! f = Some (OPlain m) →
  m !! u = Some x →
  ∃ ox, heap (history tr ops) !! x = Some ox ∧ holds o ox = true.
Proof.
  intros Hl Hf Hm Hx.
  destruct (typed_children _ (children_history tr ops) _ _ _ _ _ _ Hl Hf Hm Hx)
    as (ox & Hox & Hk).
  exists ox. split; [done|]. by destruct o, ox.
Qed.

(** ** Handles are kept until their entry is removed or replaced *)

Lemma keeps_bind (J : Bluez → Prop) {R S : Type} (t : task R) (k : R → task S) :
  keeps J t → (∀ r, keeps J (k r)) → keeps J (t ≫= k).
Proof.
  intros Ht Hk tr b Hb. rewrite run_bind.
  specialize (Ht tr b Hb). destruct (run tr t b) as [b' [e | r]]; simpl in *; [done|].
  by apply Hk.
Qed.

Lemma keeps_stable {A : Type} (f : Bluez → A) (P : A → Prop) {R : Type} (t : task R) :
  stable f t → keeps (λ b, P (f b)) t.
Proof. intros Ht tr b Hb. by rewrite Ht. Qed.

Lemma getAdapter_devices (x : string) : stable devices (getAdapter x).
Proof.
  intros tr0 b. unfold getAdapter. cbn [run].
  destruct (js_get (adapter b) _) as [[s|a|n]|]; try destruct (Js.nonempty s);
    cbn; unfold resolve;
    repeat match goal with |- context [tr0 ?p ?i] => destruct (tr0 p i) end; done.
Qed.

Lemma getDevice_adapter (x : string) : stable adapter (getDevice x).
Proof. unfold getDevice, new_Device. stable_tac. Qed.

Lemma added_adapter (P : string) (i : Interfaces) : stable adapter (onInterfacesAdded P i).
Proof.
  unfold onInterfacesAdded, new_Service, new_Characteristic, new_Descriptor, emit.
  stable_tac; apply getDevice_adapter.
Qed.

Section Entries.
Variables tr : transport.

Lemma adapter_entry_kept (b : Bluez) (k : string) (a : loc) (o : op) :
  adapter b !! k = Some (VObj a) →
  keeps_adapter k o = true →
  adapter (perform tr b o) !! k = Some (VObj a).
Proof.
  intros Hk Ho. destruct o as [P i | P l | z | z]; cbn [perform keeps_adapter] in *.
  - unfold added, after. by rewrite added_adapter.
  - revert Ho. unfold removed, after, onInterfaceRemoved, emit_error.
    pose proof (match_removed_group1 P) as Hg1.
    destruct (has_interface "org.bluez.Device1" l),
             (has_interface "org.bluez.Adapter1" l),
             (Js.match_removed P) as [[g1 [g2|]]|];
      try rewrite (Hg1 _ _ eq_refl); cbn;
      destruct (listening b); cbn; try done;
      intros Hne; apply negb_true_iff, String.eqb_neq in Hne;
      by rewrite lookup_delete_ne.
  - destruct (decide (adapter_id z = k)) as [<-|Hne].
    + unfold after, getAdapter. fold (adapter_id z). cbn [run].
      unfold js_get. by rewrite Hk.
    + destruct (getAdapter_run tr b z) as [-> | [-> | [i ->]]]; try done.
      norm. by rewrite lookup_insert_ne.
  - unfold after. by rewrite getDevice_adapter.
Qed.

Lemma adapter_entry_history (ops : list op) (b : Bluez) (k : string) (a : loc) :
  adapter b !! k = Some (VObj a) →
  forallb (keeps_adapter k) ops = true →
  adapter (foldl (perform tr) b ops) !! k = Some (VObj a).
Proof.
  revert b. induction ops as [|o ops IH]; intros b Hk Hops; [done|].
  cbn in Hops. apply andb_prop in Hops as [Ho Hops].
  cbn [foldl]. apply IH; [|done]. by apply adapter_entry_kept.
Qed.

(** [getDevice] leaves the handles of [this.devices] in place. *)
Lemma getDevice_keeps (k : string) (d : loc) (z : string) :
  keeps (λ b, devices b !! k = Some (VObj d)) (getDevice z).
Proof.
  intros tr0 b Hk. unfold getDevice, new_Device. fold (device_address z). cbn [run].
  destruct (js_get (devices b) (device_address z)) as [[s|d0|n]|] eqn:Hget;
    cbn [run fst]; try done.
  destruct (Js.nonempty s); [|done].
  repeat step. destruct (tr0 s "org.bluez.Device1"); [|done].
  repeat step. destruct (tr0 _ "org.freedesktop.DBus.Properties"); [|done].
  repeat step. rewrite Hget. repeat step.
  rewrite lookup_insert_ne; [done|]. intros E. rewrite E in Hget.
  unfold js_get in Hget. rewrite Hk in Hget. done.
Qed.

Lemma added_keeps_device (k : string) (d : loc) (P : string) (i : Interfaces) :
  match Device1 i with
  | Some props => negb (String.eqb (Address props) k)
  | None => true
  end = true →
  keeps (λ b, devices b !! k = Some (VObj d)) (onInterfacesAdded P i).
Proof.
  intros Hi. rewrite onInterfacesAdded_blocks.
  set (J := λ b, devices b !! k = Some (VObj d)).
  assert (Hst : ∀ R (t : task R), stable devices t → keeps J t).
  { intros R t Ht. apply (keeps_stable devices (λ m, m !! k = Some (VObj d))), Ht. }
  apply keeps_bind; [|intros []; apply keeps_bind; [|intros []; apply keeps_bind;
    [|intros []; apply keeps_bind; [|intros []]]]].
  - apply Hst. unfold adapter_block. stable_tac.
  - intros tr0 b Hb. rewrite device_block_run. cbn [fst].
    destruct (Device1 i) as [props|]; [|done].
    apply negb_true_iff, String.eqb_neq in Hi.
    unfold J. norm. unfold js_set_str.
    destruct (String.eqb (Address props) "__proto__"); [done|].
    by rewrite lookup_insert_ne.
  - unfold service_block, new_Service.
    destruct (GattService1 i) as [props|]; [|by apply Hst, stable_ret].
    apply keeps_bind; [apply Hst; stable_tac | intros iface].
    apply keeps_bind; [apply Hst; stable_tac | intros service].
    apply keeps_bind; [apply getDevice_keeps | intros dev].
    apply Hst. stable_tac.
  - apply Hst. unfold characteristic_block, new_Characteristic. stable_tac.
  - apply Hst. unfold descriptor_block, new_Descriptor. stable_tac.
Qed.

Lemma device_entry_kept (b : Bluez) (k : string) (d : loc) (o : op) :
  devices b !! k = Some (VObj d) →
  keeps_device k o = true →
  devices (perform tr b o) !! k = Some (VObj d).
Proof.
  intros Hk Ho. destruct o as [P i | P l | z | z]; cbn [perform keeps_device] in *.
  - exact (added_keeps_device k d P i Ho tr b Hk).
  - revert Ho. unfold removed, after, onInterfaceRemoved, emit_error.
    pose proof (match_removed_group1 P) as Hg1.
    destruct (has_interface "org.bluez.Device1" l),
             (has_interface "org.bluez.Adapter1" l),
             (Js.match_removed P) as [[g1 [g2|]]|];
      try rewrite (Hg1 _ _ eq_refl); cbn;
      destruct (listening b); cbn; try done;
      intros Hne; apply negb_true_iff, String.eqb_neq in Hne;
      by rewrite lookup_delete_ne.
  - unfold after. by rewrite getAdapter_devices.
  - exact (getDevice_keeps k d z tr b Hk).
Qed.

Lemma device_entry_history (ops : list op) (b : Bluez) (k : string) (d : loc) :
  devices b !! k = Some (VObj d) →
  forallb (keeps_device k) ops = true →
  devices (foldl (perform tr) b ops) !! k = Some (VObj d).
Proof.
  revert b. induction ops as [|o ops IH]; intros b Hk Hops; [done|].
  cbn in Hops. apply andb_prop in Hops as [Ho Hops].
  cbn [foldl]. apply IH; [|done]. by apply device_entry_kept.
Qed.
End Entries.

Section Cached.
Variables tr tr' tr'' : transport.

(** X2. [getAdapter] keeps the handle it made.  Once a call has returned
    an Adapter, then whatever is announced, removed or asked for
    afterwards, one operation after the other, short of a removal that
    names the Adapter interface at a path of that adapter: a call that
    names the same adapter, by its name or by its path, returns that very
    object, asks nothing of the transport and changes nothing. *)
Theorem getAdapter_cached (b : Bluez) (x y : string) (a : loc) (ops : list op) :
  outcome tr (getAdapter x) b = inr (VObj a) →
  adapter_id y = adapter_id x →
  forallb (keeps_adapter (adapter_id x)) ops = true →
  let b' := foldl (perform tr') (after tr (getAdapter x) b) ops in
  run tr'' (getAdapter y) b' = (b', inr (VObj a)).
Proof.
  intros Hout Hid Hops b'. unfold outcome, after in *.
  assert (Hkey : adapter (run tr (getAdapter x) b).1 !! adapter_id x = Some (VObj a)).
  { revert Hout. unfold getAdapter. fold (adapter_id x). cbn [run].
    destruct (js_get (adapter b) (adapter_id x)) as [[s|a0|n]|] eqn:Hget;
      try destruct (Js.nonempty s); cbn [run]; unfold resolve;
      repeat match goal with |- context [tr ?p ?i] => destruct (tr p i) end;
      cbn; intros Hout; simplify_eq;
      first [ apply lookup_insert_eq | by apply js_get_own ]. }
  pose proof (adapter_entry_history tr' ops _ _ _ Hkey Hops) as Hkey'. fold b' in Hkey'.
  rewrite (getAdapter_id _ _ Hid). unfold getAdapter at 1. fold (adapter_id x).
  cbn [run]. unfold js_get. by rewrite Hkey'.
Qed.

(** X3. [getDevice] keeps the handle it made.  Once a call has returned a
    Device, then whatever is announced, removed or asked for afterwards,
    one operation after the other, short of an announcement of a device
    with that address and of a removal that names the Device interface at
    a device path spelling it: a call that names the same device, by its
    address in either form or by its path, returns that very object, asks
    nothing of the transport and changes nothing. *)
Theorem getDevice_cached (b : Bluez) (x y : string) (d : loc) (ops : list op) :
  outcome tr (getDevice x) b = inr (VObj d) →
  device_address y = device_address x →
  forallb (keeps_device (device_address x)) ops = true →
  let b' := foldl (perform tr') (after tr (getDevice x) b) ops in
  run tr'' (getDevice y) b' = (b', inr (VObj d)).
Proof.
  intros Hout Hid Hops b'. unfold outcome, after in *.
  assert (Hkey : devices (run tr (getDevice x) b).1 !! device_address x = Some (VObj d)).
  { revert Hout. unfold getDevice, new_Device. fold (device_address x). cbn [run].
    destruct (js_get (devices b) (device_address x)) as [[s|d0|n]|] eqn:Hget;
      cbn [run fst snd]; [| intros; simplify_eq; by apply js_get_own | done | done].
    destruct (Js.nonempty s); [|done].
    repeat step. destruct (tr s "org.bluez.Device1"); [|done].
    repeat step. destruct (tr _ "org.freedesktop.DBus.Properties"); [|done].
    repeat step. rewrite Hget. repeat step.
    intros Hout. simplify_eq. by lk. }
  pose proof (device_entry_history tr' ops _ _ _ Hkey Hops) as Hkey'. fold b' in Hkey'.
  apply getDevice_key_cached; [by rewrite Hid | done].
Qed.
End Cached.

(** ** The theorems at the sample objects *)

Lemma device_reannounced_drops_handle_witness :
  let b := history all_bound
             [Added dev_path (device_added dev_props); GetDevice "AA:BB:CC:DD:EE:FF"] in
  devices b !! "AA:BB:CC:DD:EE:FF" = Some (VObj 2%positive)
  ∧ ∃ d', outcome all_bound (getDevice "AA:BB:CC:DD:EE:FF")
            (added all_bound dev_path (device_added dev_props) b) = inr (VObj d')
          ∧ d' ≠ 2%positive.
Proof.
  intros b.
  assert (Hd : devices b !! Address dev_props = Some (VObj 2%positive))
    by (vm_compute; reflexivity).
  split; [exact Hd|].
  destruct (device_reannounced_drops_handle all_bound b dev_path dev_props 2%positive
              (wf_history all_bound _) Hd eq_refl eq_refl eq_refl eq_refl)
    as (_ & d' & m & Hout & Hne & _).
  exists d'. split; [exact Hout | exact Hne].
Defined.

Lemma added_rejected_keeps_registry_witness :
  outcome all_bound (onInterfacesAdded svc_path (service_added svc_props)) constructor
  = inl (Error "Device not found")
  ∧ registry 4 (added all_bound svc_path (service_added svc_props) constructor)
    = registry 4 constructor.
Proof.
  split; [reflexivity|].
  exact (added_rejected_keeps_registry all_bound 4 constructor svc_path
           (service_added svc_props) (Error "Device not found")
           wf_constructor (single_service svc_props) eq_refl).
Defined.

Lemma service_ready_sample :
  service_ready all_bound (added all_bound dev_path (device_added dev_props) constructor)
    svc_path svc_props.
Proof. vm_compute. repeat split. Qed.


Lemma characteristic_ready_sample :
  characteristic_ready all_bound constructor chr_path chr_props.
Proof. split; [done|]. split; [done|]. by left. Qed.


Lemma descriptor_ready_sample :
  descriptor_ready all_bound constructor dsc_path dsc_props.
Proof. split; [done|]. by left. Qed.



Lemma getDevice_after_removal_witness :
  let b := added all_bound dev_path (device_added dev_props) constructor in
  let b' := removed all_bound dev_path ["org.bluez.Device1"] b in
  devices b !! "AA:BB:CC:DD:EE:FF" = Some (VStr dev_path)
  ∧ run all_bound (getDevice "AA:BB:CC:DD:EE:FF") b' = (b', inl (Error "Device not found")).
Proof.
  intros b b'. split; [reflexivity|].
  exact (proj2 (getDevice_after_removal all_bound all_bound b dev_path "hci0"
                  "AA_BB_CC_DD_EE_FF" "AA:BB:CC:DD:EE:FF" ["org.bluez.Device1"]
                  eq_refl eq_refl eq_refl eq_refl)).
Defined.

Lemma getAdapter_after_removal_witness :
  let b := after all_bound (getAdapter "hci0") constructor in
  let b' := removed all_bound hci0_path ["org.bluez.Adapter1"] b in
  adapter b !! "hci0" = Some (VObj 1%positive)
  ∧ adapter b' = delete "hci0" (adapter b)
  ∧ ∃ h, outcome all_bound (getAdapter "hci0") b' = inr (VObj h) ∧ heap b !! h = None.
Proof.
  intros b b'. split; [reflexivity|].
  assert (Hl : @None string = None →
               has_interface "org.bluez.Device1" ["org.bluez.Adapter1"] = true →
               listening b = true)
    by (intros _ H; vm_compute in H; discriminate H).
  destruct (getAdapter_after_removal all_bound all_bound b hci0_path "hci0"
              None ["org.bluez.Adapter1"] eq_refl eq_refl Hl eq_refl)
    as (Had & _ & Hnew).
  split; [exact Had|].
  destruct (Hnew eq_refl) as (h & Hout & Hfresh & _).
  exists h. split; [exact Hout | exact Hfresh].
Defined.

Lemma device_announced_then_removed_witness :
  devices (removed all_bound dev_path ["org.bluez.Device1"]
             (added all_bound dev_path (device_added dev_props) constructor))
  = delete "AA:BB:CC:DD:EE:FF" (devices constructor).
Proof.
  exact (device_announced_then_removed all_bound all_bound constructor "hci0"
           "AA:BB:CC:DD:EE:FF" dev_props eq_refl eq_refl eq_refl eq_refl).
Defined.

Lemma enumeration_reorders_witness :
  ∃ c', rtc (step all_bound)
          (foldl (λ c entry, call (onInterfacesAdded entry.1 entry.2) c) (constructor, [])
             [(hci0_path, adapter_added hci0_props); (svc_path, service_added svc_props);
              (dev_path, device_added dev_props)]) c'
        ∧ quiescent c'.
Proof.
  refine (proj1 (enumeration_reorders all_bound constructor
                   [(hci0_path, adapter_added hci0_props)]
                   [(dev_path, device_added dev_props)]
                   svc_path (service_added svc_props) _ _ _ (conj eq_refl eq_refl) eq_refl)).
  - repeat constructor.
  - repeat constructor.
Defined.

Lemma enumeration_service_before_device_witness :
  let c0 := foldl (λ c entry, call (onInterfacesAdded entry.1 entry.2) c) (constructor, [])
              [(svc_path, service_added svc_props); (dev_path, device_added dev_props)] in
  let c' := (added all_bound svc_path (service_added svc_props)
               (added all_bound dev_path (device_added dev_props) constructor),
             [Ret tt; Ret tt]) in
  rtc (step all_bound) c0 c'
  ∧ is_Some (_path c'.1 !! svc_path)
  ∧ _path (one_by_one all_bound
             [(svc_path, service_added svc_props); (dev_path, device_added dev_props)]
             constructor) = ∅.
Proof.
  intros c0 c'.
  assert (Hrtc : rtc (step all_bound) c0 c').
  { apply (advance_run all_bound (onInterfacesAdded svc_path (service_added svc_props))
             (added all_bound dev_path (device_added dev_props) constructor) [] [Ret tt]). }
  split; [exact Hrtc|].
  destruct (enumeration_service_before_device all_bound constructor svc_path dev_path
              svc_props dev_props c0 c' wf_constructor eq_refl) as [Hatt Hseq];
    [discriminate | reflexivity | reflexivity | reflexivity | reflexivity | reflexivity
    | exact Hrtc | reflexivity |].
  destruct Hatt as (d & i & c & sm & m & s & cm & _ & _ & _ & _ & Hp & _).
  split; [by rewrite Hp | exact (Hseq eq_refl)].
Defined.

Lemma concurrent_getAdapter_witness :
  ∃ c', rtc (step all_bound)
          (call (getAdapter "hci0") (call (getAdapter "hci0") (constructor, []))) c'
        ∧ quiescent c'.
Proof.
  exact (proj1 (concurrent_getAdapter all_bound constructor "hci0" eq_refl eq_refl eq_refl)).
Defined.

Lemma handles_never_invalidated_witness :
  let ops := [Added dev_path (device_added dev_props); GetDevice "AA:BB:CC:DD:EE:FF"] in
  let later := [Removed dev_path ["org.bluez.Device1"];
                Added dev_path (device_added dev_props)] in
  devices (history all_bound (ops ++ later)) !! "AA:BB:CC:DD:EE:FF" = Some (VStr dev_path)
  ∧ heap (history all_bound (ops ++ later)) !! 2%positive
    = Some (ODevice (Handle dev_path "org.bluez.Device1")
              (Handle dev_path "org.freedesktop.DBus.Properties") 1%positive).
Proof.
  intros ops later. split; [reflexivity|].
  refine (handles_never_invalidated all_bound ops later 2%positive _ eq_refl _).
  discriminate.
Defined.

(** A characteristic whose service is named by a member name of
    [Object.prototype]: [this._path] yields the inherited member, no
    placeholder is made, and the assignment into its [characteristics]
    throws.  Likewise for a descriptor. *)
Lemma inherited_owner_throws :
  let cp := {| characteristic_Service := "toString";
               characteristic_UUID := characteristic_UUID chr_props |} in
  let dp := {| descriptor_Characteristic := "constructor";
               descriptor_UUID := descriptor_UUID dsc_props |} in
  outcome all_bound (onInterfacesAdded chr_path (characteristic_added cp)) constructor
    = inl TypeError
  ∧ _path (added all_bound chr_path (characteristic_added cp) constructor) = ∅
  ∧ outcome all_bound (onInterfacesAdded dsc_path (descriptor_added dp)) constructor
    = inl TypeError
  ∧ _path (added all_bound dsc_path (descriptor_added dp) constructor) = ∅.
Proof. vm_compute. done. Qed.

(** The Device and the Adapter interface removed at an adapter path: with
    no 'error' listener attached the handler ends at the report of the
    device and the adapter stays; with one, the report is an event and the
    adapter goes. *)
Lemma removed_both_at_adapter_path :
  let b := after all_bound (getAdapter "hci0") constructor in
  let l := ["org.bluez.Device1"; "org.bluez.Adapter1"] in
  adapter b !! "hci0" = Some (VObj 1%positive)
  ∧ run all_bound (onInterfaceRemoved hci0_path l) b
    = (b, inl (Error "Removed Device with unknown path"))
  ∧ outcome all_bound (onInterfaceRemoved hci0_path l) (on_error b) = inr tt
  ∧ adapter (removed all_bound hci0_path l (on_error b)) = ∅
  ∧ events (removed all_bound hci0_path l (on_error b))
    = [EvError "Removed Device with unknown path"].
Proof. vm_compute. done. Qed.

Lemma children_of_their_class_witness :
  let ops := [Added dev_path (device_added dev_props);
              Added svc_path (service_added svc_props)] in
  heap (history all_bound ops) !! 3%positive
  = Some (OPlain (<[service_UUID svc_props := 2%positive]> ∅))
  ∧ ∃ ox, heap (history all_bound ops) !! 2%positive = Some ox
          ∧ holds (ODevice (Handle dev_path "org.bluez.Device1")
                     (Handle (properties_path dev_path) "org.freedesktop.DBus.Properties")
                     3%positive) ox = true.
Proof.
  intros ops. split; [by vm_compute|].
  refine (children_of_their_class all_bound ops 4%positive 3%positive 2%positive
            (ODevice (Handle dev_path "org.bluez.Device1")
               (Handle (properties_path dev_path) "org.freedesktop.DBus.Properties")
               3%positive)
            (<[service_UUID svc_props := 2%positive]> ∅) (service_UUID svc_props)
            _ eq_refl _ _).
  - by vm_compute.
  - by vm_compute.
  - by vm_compute.
Defined.

Lemma getAdapter_cached_witness :
  let ops := [Added dev_path (device_added dev_props); GetDevice "AA:BB:CC:DD:EE:FF";
              Removed dev_path ["org.bluez.Device1"]; GetAdapter "hci1"] in
  let b' := foldl (perform all_bound) (after all_bound (getAdapter "hci0") constructor) ops in
  outcome all_bound (getAdapter "hci0") constructor = inr (VObj 1%positive)
  ∧ forallb (keeps_adapter "hci0") ops = true
  ∧ run (λ _ _, false) (getAdapter "/org/bluez/hci0") b' = (b', inr (VObj 1%positive)).
Proof.
  intros ops b'. split; [reflexivity|]. split; [reflexivity|].
  exact (getAdapter_cached all_bound all_bound (λ _ _, false) constructor "hci0"
           "/org/bluez/hci0" 1%positive ops eq_refl eq_refl eq_refl).
Defined.

Lemma getDevice_cached_witness :
  let b := added all_bound dev_path (device_added dev_props) constructor in
  let ops := [Added svc_path (service_added svc_props); GetAdapter "hci0";
              Removed hci0_path ["org.bluez.Adapter1"]] in
  let b' := foldl (perform all_bound) (after all_bound (getDevice "AA:BB:CC:DD:EE:FF") b) ops in
  outcome all_bound (getDevice "AA:BB:CC:DD:EE:FF") b = inr (VObj 2%positive)
  ∧ forallb (keeps_device "AA:BB:CC:DD:EE:FF") ops = true
  ∧ run (λ _ _, false) (getDevice dev_path) b' = (b', inr (VObj 2%positive)).
Proof.
  intros b ops b'.
  assert (H : outcome all_bound (getDevice "AA:BB:CC:DD:EE:FF") b = inr (VObj 2%positive))
    by (vm_compute; reflexivity).
  split; [exact H|]. split; [reflexivity|].
  apply (getDevice_cached all_bound all_bound (λ _ _, false) b "AA:BB:CC:DD:EE:FF" dev_path
           2%positive ops H); vm_compute; reflexivity.
Defined.

